(** * nativefs: copy and move with progress reporting

    A shallow embedding of [src/main.cc] (the [NativeFS] namespace of the
    node addon) together with a model of the POSIX calls it makes, and the
    properties of the copy/move engine proved over that embedding.

    Layout:
    - [Posix]: the environment.  Regular files in a flat name space, open
      file descriptions, [errno], the process umask, a script of injected
      faults, a script of refused [remove] calls, and a log of the calls
      made.
    - [NativeFS]: the code.  [Args], [SendProgressUpdate], [SendComplete],
      [SendError], [doWrite], [Copy] (on descriptors), the two exported
      methods [Copy_method] (NAN_METHOD(Copy)) and [Move]
      (NAN_METHOD(Move)), [InitAll], and the vocabulary for reading the
      log of a run.
    - [Samples]: concrete requests, worlds and write primitives.
    - [PosixFacts], [DoWriteFacts], [CopyFacts], [MethodFacts],
      [ArgsFacts]: what each call does, the loop invariant of [Copy], and
      the outcome of every run of the two methods.
    - [OutcomeFacts], [CallFacts]: the name space a run leaves behind,
      and the calls of a run in their order.
    - [Scenarios]: further requests and worlds.
    - the claims C1 to C10.
    - further properties X1 to X19 of the same code.

    Conventions.  State is passed explicitly: a call takes the world and
    returns its C result with the new world.  [doWrite] and the loop of
    [Copy] are not bounded by anything the code computes, so they take
    fuel, and [None] means that the fuel ran out; that runs do return is
    proved, not assumed. *)

From stdpp Require Import gmap strings list fin_maps sorting.
From Stdlib Require Import ZArith Strings.Byte Lia.

Open Scope string_scope.
Open Scope list_scope.
Open Scope Z_scope.

(** ** Values that cross the JavaScript boundary *)

(** A [v8::Local<v8::Value>] as far as the addon inspects or builds one.
    Functions are identified by a number (their identity as objects). *)
Inductive jsval :=
| JNull
| JUndefined
| JBool (b : bool)
| JNumber (n : Z)
| JString (s : string)
| JFunction (f : nat).

Definition IsString (v : jsval) : bool :=
  match v with JString _ => true | _ => false end.

Definition IsFunction (v : jsval) : bool :=
  match v with JFunction _ => true | _ => false end.

(** ** What a run does, as seen from outside *)

(** One entry per system call and per JavaScript call ([Nan::Call]); calls
    whose result the code looks at carry it. *)
Inductive event :=
| SysOpen (path : string) (flags : Z) (ret : Z)
| SysFstat (fd : Z) (ret : Z)
| SysRead (fd : Z) (ret : Z)
| SysWrite (fd : Z) (ret : Z)
| SysClose (fd : Z)
| SysFsync (fd : Z)
| SysRemove (path : string)
| SysRename (oldpath newpath : string) (ret : Z)
| Call (callee : jsval) (argv : list jsval)
| Throw (message : string).

Module Posix.

(** A regular file: its bytes and its [st_mode].  The name space is flat
    and has no links: two different paths are two different files. *)
Record file := File { f_data : list byte; f_mode : Z }.

(** An open file description.  It names its file by path: the program never
    unlinks or renames a file while it holds a descriptor on it (every
    [remove] and [rename] comes after the [close] calls), so for this
    program a path identifies the open file as well as an inode would. *)
Record ofd := Ofd { o_path : string; o_pos : nat; o_wronly : bool }.

(** What the environment may do to the next fallible call
    ([open], [fstat], [read], [write], [rename]). *)
Inductive fault :=
| NoFault                (* the call behaves normally *)
| Errno (e : Z)          (* the call fails with -1 and sets errno to e *)
| Short (n : positive).  (* a read or write transfers at most n bytes *)

Record stat := Stat { st_size : Z; st_mode : Z; st_dev : Z }.

Record world := World {
  files : gmap string file;   (* the name space: path -> regular file *)
  fds : gmap nat ofd;         (* the descriptor table *)
  devs : string -> Z;         (* the volume (st_dev) a path lives on *)
  umask : Z;                  (* the process file-mode creation mask *)
  errno : Z;
  faults : list fault;        (* faults still to be injected, in call order *)
  unlinks : list fault;       (* what is done to the [remove] calls, in call order *)
  trace : list event          (* calls made so far, oldest first *)
}.

Definition set_files (m : gmap string file) (w : world) : world :=
  World m (fds w) (devs w) (umask w) (errno w) (faults w) (unlinks w) (trace w).
Definition set_fds (t : gmap nat ofd) (w : world) : world :=
  World (files w) t (devs w) (umask w) (errno w) (faults w) (unlinks w) (trace w).
Definition set_errno (e : Z) (w : world) : world :=
  World (files w) (fds w) (devs w) (umask w) e (faults w) (unlinks w) (trace w).
Definition set_faults (l : list fault) (w : world) : world :=
  World (files w) (fds w) (devs w) (umask w) (errno w) l (unlinks w) (trace w).
Definition set_unlinks (l : list fault) (w : world) : world :=
  World (files w) (fds w) (devs w) (umask w) (errno w) (faults w) l (trace w).
Definition log (e : event) (w : world) : world :=
  World (files w) (fds w) (devs w) (umask w) (errno w) (faults w) (unlinks w)
    (trace w ++ [e]).

(** Take the fault scripted for the next fallible call. *)
Definition next_fault (w : world) : fault * world :=
  match faults w with
  | [] => (NoFault, w)
  | f :: l => (f, set_faults l w)
  end.

(** Take what is scripted for the next [remove] call. *)
Definition next_unlink (w : world) : fault * world :=
  match unlinks w with
  | [] => (NoFault, w)
  | f :: l => (f, set_unlinks l w)
  end.

Definition ENOENT : Z := 2.
Definition EBADF : Z := 9.
Definition EXDEV : Z := 18.

Definition O_RDONLY : Z := 0.
Definition O_WRONLY : Z := 1.
Definition O_CREAT : Z := 64.
Definition O_TRUNC : Z := 512.
(** [#define O_BINARY 0] outside Windows. *)
Definition O_BINARY : Z := 0.

Definition has_flag (flags f : Z) : bool := negb (Z.land flags f =? 0).

Definition fd_lookup (w : world) (fd : Z) : option ofd :=
  if fd <? 0 then None else fds w !! Z.to_nat fd.

(** Bound on one transfer of [count] bytes under fault [f]. *)
Definition transfer_cap (f : fault) (count : nat) : nat :=
  match f with
  | Short n => Nat.min (Pos.to_nat n) count
  | _ => count
  end.

(** [open(path, flags, mode)].  [mode] matters only when the call creates
    the file, and then the umask bits are cleared from it; an existing file
    keeps its mode and is emptied under [O_TRUNC]. *)
Definition open (path : string) (flags mode : Z) (w : world) : Z * world :=
  let '(f, w) := next_fault w in
  match f with
  | Errno e => (-1, log (SysOpen path flags (-1)) (set_errno e w))
  | _ =>
    let fd := fresh (dom (fds w)) in
    let o := Ofd path 0 (has_flag flags O_WRONLY) in
    match files w !! path with
    | Some fl =>
      let fl' := if has_flag flags O_TRUNC then File [] (f_mode fl) else fl in
      (Z.of_nat fd,
       log (SysOpen path flags (Z.of_nat fd))
         (set_fds (<[fd := o]> (fds w)) (set_files (<[path := fl']> (files w)) w)))
    | None =>
      if has_flag flags O_CREAT then
        let fl' := File [] (Z.ldiff mode (umask w)) in
        (Z.of_nat fd,
         log (SysOpen path flags (Z.of_nat fd))
           (set_fds (<[fd := o]> (fds w)) (set_files (<[path := fl']> (files w)) w)))
      else (-1, log (SysOpen path flags (-1)) (set_errno ENOENT w))
    end
  end.

(** [fstat(fd, &st)]: the result and the filled-in buffer. *)
Definition fstat (fd : Z) (w : world) : Z * stat * world :=
  let '(f, w) := next_fault w in
  match f with
  | Errno e => (-1, Stat 0 0 0, log (SysFstat fd (-1)) (set_errno e w))
  | _ =>
    match fd_lookup w fd with
    | Some o =>
      match files w !! o_path o with
      | Some fl =>
        (0, Stat (Z.of_nat (length (f_data fl))) (f_mode fl) (devs w (o_path o)),
         log (SysFstat fd 0) w)
      | None => (-1, Stat 0 0 0, log (SysFstat fd (-1)) (set_errno EBADF w))
      end
    | None => (-1, Stat 0 0 0, log (SysFstat fd (-1)) (set_errno EBADF w))
    end
  end.

(** [read(fd, buf, count)]: the result and the bytes put in the buffer.
    0 is returned at end of file only; a short read still makes progress. *)
Definition read (fd : Z) (count : Z) (w : world) : Z * list byte * world :=
  let '(f, w) := next_fault w in
  match f with
  | Errno e => (-1, [], log (SysRead fd (-1)) (set_errno e w))
  | _ =>
    match fd_lookup w fd with
    | Some o =>
      match files w !! o_path o with
      | Some fl =>
        if o_wronly o then (-1, [], log (SysRead fd (-1)) (set_errno EBADF w))
        else
          let chunk :=
            take (transfer_cap f (Z.to_nat count)) (drop (o_pos o) (f_data fl)) in
          let o' := Ofd (o_path o) (o_pos o + length chunk) (o_wronly o) in
          (Z.of_nat (length chunk), chunk,
           log (SysRead fd (Z.of_nat (length chunk)))
             (set_fds (<[Z.to_nat fd := o']> (fds w)) w))
      | None => (-1, [], log (SysRead fd (-1)) (set_errno EBADF w))
      end
    | None => (-1, [], log (SysRead fd (-1)) (set_errno EBADF w))
    end
  end.

(** The file's bytes after [chunk] is written at offset [pos]
    (a hole before [pos] reads as zeros). *)
Definition write_at (pos : nat) (chunk old : list byte) : list byte :=
  take pos old ++ replicate (pos - length old) x00 ++ chunk
    ++ drop (pos + length chunk) old.

(** [write(fd, buf, count)] with [data] the [count] bytes at [buf].  On a
    regular file a write of a non-empty buffer transfers at least one byte
    or fails. *)
Definition write (fd : Z) (data : list byte) (w : world) : Z * world :=
  let '(f, w) := next_fault w in
  match f with
  | Errno e => (-1, log (SysWrite fd (-1)) (set_errno e w))
  | _ =>
    match fd_lookup w fd with
    | Some o =>
      match files w !! o_path o with
      | Some fl =>
        if o_wronly o then
          let chunk := take (transfer_cap f (length data)) data in
          let fl' := File (write_at (o_pos o) chunk (f_data fl)) (f_mode fl) in
          let o' := Ofd (o_path o) (o_pos o + length chunk) (o_wronly o) in
          (Z.of_nat (length chunk),
           log (SysWrite fd (Z.of_nat (length chunk)))
             (set_fds (<[Z.to_nat fd := o']> (fds w))
                (set_files (<[o_path o := fl']> (files w)) w)))
        else (-1, log (SysWrite fd (-1)) (set_errno EBADF w))
      | None => (-1, log (SysWrite fd (-1)) (set_errno EBADF w))
      end
    | None => (-1, log (SysWrite fd (-1)) (set_errno EBADF w))
    end
  end.

(** [close(fd)]; the code never looks at the result. *)
Definition close (fd : Z) (w : world) : world :=
  match fd_lookup w fd with
  | Some _ => log (SysClose fd) (set_fds (delete (Z.to_nat fd) (fds w)) w)
  | None => log (SysClose fd) (set_errno EBADF w)
  end.

(** [fsync(fd)]: nothing to flush in this model. *)
Definition fsync (fd : Z) (w : world) : world := log (SysFsync fd) w.

(** [remove(path)]; the code never looks at the result.  Where no file is,
    the call fails with ENOENT.  Where one is, the environment may refuse
    to unlink it (EACCES, EPERM, EROFS, EBUSY): the call then fails with
    the scripted error number and the file stays.  The script of the
    [remove] calls is kept apart from that of the calls whose result the
    code checks. *)
Definition remove (path : string) (w : world) : world :=
  let '(f, w) := next_unlink w in
  match files w !! path with
  | Some _ =>
    match f with
    | Errno e => log (SysRemove path) (set_errno e w)
    | _ => log (SysRemove path) (set_files (delete path (files w)) w)
    end
  | None => log (SysRemove path) (set_errno ENOENT w)
  end.

(** Whether the environment refuses the next [remove] of a file. *)
Definition remove_refused (w : world) : bool :=
  match unlinks w with
  | Errno _ :: _ => true
  | _ => false
  end.

(** [rename(oldpath, newpath)]: replaces [newpath]; needs both on one
    volume. *)
Definition rename (oldpath newpath : string) (w : world) : Z * world :=
  let '(f, w) := next_fault w in
  match f with
  | Errno e => (-1, log (SysRename oldpath newpath (-1)) (set_errno e w))
  | _ =>
    match files w !! oldpath with
    | Some fl =>
      if devs w oldpath =? devs w newpath then
        (0, log (SysRename oldpath newpath 0)
              (set_files (<[newpath := fl]> (delete oldpath (files w))) w))
      else (-1, log (SysRename oldpath newpath (-1)) (set_errno EXDEV w))
    | None => (-1, log (SysRename oldpath newpath (-1)) (set_errno ENOENT w))
    end
  end.

(** [strerror(errnum)] for the error numbers that occur here. *)
Definition strerror (errnum : Z) : string :=
  if errnum =? 2 then "No such file or directory"
  else if errnum =? 5 then "Input/output error"
  else if errnum =? 9 then "Bad file descriptor"
  else if errnum =? 13 then "Permission denied"
  else if errnum =? 18 then "Invalid cross-device link"
  else if errnum =? 28 then "No space left on device"
  else "Unknown error".

End Posix.

(** ** The code of [src/main.cc] *)

Module NativeFS.
Import Posix.

(** Outcome of code that may call [Nan::ThrowError] / [Nan::ThrowTypeError]. *)
Inductive thrown (A : Type) :=
| Ok (a : A)
| Threw (message : string).
Arguments Ok {A} a.
Arguments Threw {A} message.

(** [get(value)]: the argument as a non-empty string. *)
Definition get (value : jsval) : thrown string :=
  match value with
  | JString s =>
    if (String.length s <=? 0)%nat then Threw "arg must be a non-empty string"
    else Ok s
  | _ => Threw "arg must be a string"
  end.

Record Args := {
  Source : string;
  Destination : string;
  ProgressCallback : jsval;
  ResultCallback : jsval;
  UpdateProgress : bool
}.

(** [args[i]]: out of range reads as undefined. *)
Definition arg (info : list jsval) (i : nat) : jsval := nth i info JUndefined.

(** The constructor [Args::Args(info)]: the checks and the assignments in
    the order of the source.  [Threw] carries the first exception raised.
    (In the source a throw only leaves an exception pending: the
    constructor returns, or for [get] goes on, and the method body then
    runs on a partly default-constructed object.  That is outside this
    model, which follows accepted requests.) *)
Definition Args_new (info : list jsval) : thrown Args :=
  if (length info <? 3)%nat then Threw "Not enough arguments"
  else if negb (IsString (arg info 0)) then Threw "First argument is not a path"
  else if negb (IsString (arg info 1)) then Threw "Second argument is not a path"
  else if negb (IsFunction (arg info 2)) then Threw "Missing result callback"
  else if (3 <? length info)%nat && negb (IsFunction (arg info 3))
  then Threw "Unknown arguments"
  else
    let UpdateProgress := (3 <? length info)%nat in
    match get (arg info 0) with
    | Threw m => Threw m
    | Ok Source =>
      match get (arg info 1) with
      | Threw m => Threw m
      | Ok Destination =>
        let ResultCallback := if UpdateProgress then arg info 3 else arg info 2 in
        let ProgressCallback := arg info 2 in
        Ok {| Source := Source;
              Destination := Destination;
              ProgressCallback := ProgressCallback;
              ResultCallback := ResultCallback;
              UpdateProgress := UpdateProgress |}
      end
    end.

(** The [double]s handed to JavaScript are kept as the integers they are
    converted from (the conversion is monotone, and exact below 2^53). *)
Definition SendProgressUpdate (args : Args) (completed total : Z) (w : world) : world :=
  if UpdateProgress args then
    log (Call (ProgressCallback args) [JNumber completed; JNumber total]) w
  else w.

Definition SendComplete (args : Args) (w : world) : world :=
  log (Call (ResultCallback args) [JNull; JBool true]) w.

Definition SendError (args : Args) (errorText : string) (w : world) : world :=
  log (Call (ResultCallback args) [JString errorText; JBool false]) w.

(** [doWrite(fd, data, datalen)], over any write primitive.  [data] stands
    for the [datalen] bytes at the pointer, so [data + written] is
    [drop written data].  The recursion of the source is not bounded by
    anything the code computes, hence the fuel: [None] means that the
    recursion is still open after [fuel] calls. *)
Section DoWrite.
Context {St : Type}.
Variable write : Z -> list byte -> St -> Z * St.

Fixpoint doWrite (fuel : nat) (fd : Z) (data : list byte) (st : St)
  : option (Z * St) :=
  match fuel with
  | O => None
  | S fuel' =>
    let '(written, st) := write fd data st in
    if written =? -1 then Some (-1, st)
    else if written <? Z.of_nat (length data) then
      doWrite fuel' fd (drop (Z.to_nat written) data) st
    else Some (written, st)
  end.
End DoWrite.

(** What is asked of a write primitive.  [accepted fd st] stands for the
    bytes the primitive has taken for [fd] so far: each call either reports
    an error or transfers a prefix of the buffer, possibly an empty one. *)
Definition write_contract {St : Type} (write : Z -> list byte -> St -> Z * St)
    (accepted : Z -> St -> list byte) : Prop :=
  forall fd data st,
    (write fd data st).1 = -1 \/
    (exists k : nat,
       (k <= length data)%nat /\ (write fd data st).1 = Z.of_nat k /\
       accepted fd (write fd data st).2 = accepted fd st ++ take k data).

(** A successful call on a non-empty buffer transfers at least one byte. *)
Definition write_progress {St : Type} (write : Z -> list byte -> St -> Z * St)
  : Prop :=
  forall fd data st, data <> [] -> (write fd data st).1 <> 0.

Definition BUFFER_SIZE : Z := 16384.

(** How the [while] loop of [Copy] is left. *)
Inductive loop_exit :=
| ReadEnd (bytes_read : Z)   (* the loop condition failed: bytes_read <= 0 *)
| WriteError.                (* goto copyByFdError from inside the body *)

(** The [while] loop of [Copy]; [progress] and [sinceLastUpdate] are the
    locals of the source.  File sizes are [ssize_t] values, far from the
    range where the additions could overflow. *)
Fixpoint Copy_loop (fuel : nat) (fd_in fd_out inputSize bytesPerUpdate : Z)
    (args : Args) (progress sinceLastUpdate : Z) (w : world)
  : option (loop_exit * world) :=
  match fuel with
  | O => None
  | S fuel' =>
    let '(bytes_read, buffer, w) := read fd_in BUFFER_SIZE w in
    if bytes_read >? 0 then
      match doWrite write fuel fd_out buffer w with
      | None => None
      | Some (written, w) =>
        if written =? -1 then Some (WriteError, w)
        else
          let progress := progress + bytes_read in
          let sinceLastUpdate := sinceLastUpdate + bytes_read in
          if sinceLastUpdate >? bytesPerUpdate then
            Copy_loop fuel' fd_in fd_out inputSize bytesPerUpdate args progress 0
              (SendProgressUpdate args progress inputSize w)
          else
            Copy_loop fuel' fd_in fd_out inputSize bytesPerUpdate args progress
              sinceLastUpdate w
      end
    else Some (ReadEnd bytes_read, w)
  end.

(** The label [copyByFdError] of [Copy]. *)
Definition copyByFdError (fd_in fd_out : Z) (args : Args) (w : world) : world :=
  let w := close fd_in w in
  let w := close fd_out w in
  let w := remove (Destination args) w in
  SendError args (strerror (errno w)) w.

(** [Copy(fd_in, fd_out, inputSize, args, removeWhenDone)]. *)
Definition Copy (fuel : nat) (fd_in fd_out inputSize : Z) (args : Args)
    (removeWhenDone : bool) (w : world) : option world :=
  let bytesPerUpdate := Z.quot inputSize 100 in
  match Copy_loop fuel fd_in fd_out inputSize bytesPerUpdate args 0 0 w with
  | None => None
  | Some (WriteError, w) => Some (copyByFdError fd_in fd_out args w)
  | Some (ReadEnd bytes_read, w) =>
    if bytes_read =? -1 then Some (copyByFdError fd_in fd_out args w)
    else
      let w := SendProgressUpdate args inputSize inputSize w in
      let w := close fd_in w in
      let w := fsync fd_out w in
      let w := close fd_out w in
      let w := if removeWhenDone then remove (Source args) w else w in
      Some (SendComplete args w)
  end.

(** The labels [copyByPathError] and [moveError] (the same three lines). *)
Definition copyByPathError (args : Args) (w : world) : world :=
  let w := remove (Destination args) w in
  SendError args (strerror (errno w)) w.

Definition moveError (args : Args) (w : world) : world :=
  let w := remove (Destination args) w in
  SendError args (strerror (errno w)) w.

Definition rd_flags : Z := Z.lor O_RDONLY O_BINARY.
Definition wr_flags : Z := Z.lor (Z.lor (Z.lor O_WRONLY O_CREAT) O_TRUNC) O_BINARY.

(** NAN_METHOD(Copy).  A call rejected by [Args] is modelled up to the
    exception only: it makes no system call and no callback here.  [fuel]
    bounds the loop of [Copy] and the recursion of [doWrite]. *)
Definition Copy_method (fuel : nat) (info : list jsval) (w : world) : option world :=
  match Args_new info with
  | Threw m => Some (log (Throw m) w)
  | Ok args =>
    let '(in_, w) := open (Source args) rd_flags 0 w in
    if in_ <? 0 then Some (copyByPathError args w)
    else
      let '(r, st, w) := fstat in_ w in
      if negb (r =? 0) then Some (copyByPathError args (close in_ w))
      else
        let '(out, w) := open (Destination args) wr_flags (st_mode st) w in
        if out <? 0 then Some (copyByPathError args (close in_ w))
        else Copy fuel in_ out (st_size st) args false w
  end.

(** NAN_METHOD(Move). *)
Definition Move (fuel : nat) (info : list jsval) (w : world) : option world :=
  match Args_new info with
  | Threw m => Some (log (Throw m) w)
  | Ok args =>
    let '(in_, w) := open (Source args) rd_flags 0 w in
    if in_ <? 0 then Some (moveError args w)
    else
      let '(r, in_stats, w) := fstat in_ w in
      if negb (r =? 0) then Some (moveError args (close in_ w))
      else
        let '(out, w) := open (Destination args) wr_flags (st_mode in_stats) w in
        if out <? 0 then Some (moveError args (close in_ w))
        else
          let '(r, out_stats, w) := fstat out w in
          if negb (r =? 0) then Some (moveError args (close out (close in_ w)))
          else
            let inputSize := st_size in_stats in
            if st_dev in_stats =? st_dev out_stats then
              let w := close in_ w in
              let w := close out w in
              let w := remove (Destination args) w in
              let '(_, w) := rename (Source args) (Destination args) w in
              let w := SendProgressUpdate args inputSize inputSize w in
              Some (SendComplete args w)
            else Copy fuel in_ out inputSize args true w
  end.

(** NAN_MODULE_INIT(InitAll): the functions set on the module object.
    [nativefs.js] re-exports both and passes its arguments through. *)
Definition InitAll (name : string)
  : option (nat -> list jsval -> world -> option world) :=
  if decide (name = "copy") then Some Copy_method
  else if decide (name = "move") then Some Move
  else None.

(** *** Reading a run *)

Definition is_progress (e : event) : bool :=
  match e with
  | Call _ [JNumber _; JNumber _] => true
  | _ => false
  end.

(** A call with a completion outcome: (null, true) or (errorText, false). *)
Definition is_success (e : event) : bool :=
  match e with
  | Call _ [JNull; JBool true] => true
  | _ => false
  end.

Definition is_failure (e : event) : bool :=
  match e with
  | Call _ [JString _; JBool false] => true
  | _ => false
  end.

Definition is_completion (e : event) : bool := is_success e || is_failure e.

(** Whether some call in [evs] reported success, or failure. *)
Definition signals_success (evs : list event) : bool := existsb is_success evs.
Definition signals_failure (evs : list event) : bool := existsb is_failure evs.

Definition callee_of (e : event) : jsval :=
  match e with
  | Call f _ => f
  | _ => JUndefined
  end.

(** The (completed, total) pair of a progress call. *)
Definition progress_of (e : event) : option (Z * Z) :=
  match e with
  | Call _ [JNumber completed; JNumber total] => Some (completed, total)
  | _ => None
  end.

(** The (completed, total) pairs reported, in order. *)
Definition progress_updates (evs : list event) : list (Z * Z) :=
  omap progress_of evs.

(** The completed counts reported, in order. *)
Definition completed (evs : list event) : list Z := (progress_updates evs).*1.

(** The events a run added to the log. *)
Definition emitted (w w' : world) : list event :=
  drop (length (trace w)) (trace w').

(** What [SendProgressUpdate], [SendComplete] and [SendError] add to the
    log. *)
Definition progress_call (args : Args) (completed total : Z) : list event :=
  if UpdateProgress args then
    [Call (ProgressCallback args) [JNumber completed; JNumber total]]
  else [].

Definition success_call (args : Args) : event :=
  Call (ResultCallback args) [JNull; JBool true].

Definition failure_call (args : Args) (text : string) : event :=
  Call (ResultCallback args) [JString text; JBool false].

(** The size [fstat] reports for the source of a request made in [w]
    (the size captured at open time). *)
Definition source_size (w : world) (args : Args) : Z :=
  match files w !! Source args with
  | Some fl => Z.of_nat (length (f_data fl))
  | None => 0
  end.

Definition is_errno (f : fault) : bool :=
  match f with Errno _ => true | _ => false end.

(** Whether the script fails one of the four calls that open and stat the
    two files of a move. *)
Definition opening_fault (w : world) : bool :=
  existsb is_errno (take 4 (faults w)).

(** Bytes at a path, if a file is there. *)
Definition content (w : world) (path : string) : option (list byte) :=
  f_data <$> files w !! path.

Definition mode_of (w : world) (path : string) : option Z :=
  f_mode <$> files w !! path.

(** The spec's wording of a move across devices, "a copy followed by
    deletion of the source": NAN_METHOD(Copy), then [remove] on the source
    when the copy reported success. *)
Definition copy_then_delete (fuel : nat) (info : list jsval) (w : world)
  : option world :=
  match Copy_method fuel info w with
  | Some w1 =>
    if signals_success (emitted w w1) then
      match Args_new info with
      | Ok args => Some (remove (Source args) w1)
      | Threw _ => Some w1
      end
    else Some w1
  | None => None
  end.

End NativeFS.

(** * Sample requests and worlds *)

Module Samples.
Import Posix NativeFS.

Definition hello : list byte := [x68; x65; x6c; x6c; x6f].

Definition cb1 : jsval := JFunction 1.
Definition cb2 : jsval := JFunction 2.

Definition info3 : list jsval := [JString "a"; JString "b"; cb1].
Definition info4 : list jsval := [JString "a"; JString "b"; cb1; cb2].
Definition args3 : Args :=
  {| Source := "a"; Destination := "b"; ProgressCallback := cb1;
     ResultCallback := cb1; UpdateProgress := false |}.
Definition args4 : Args :=
  {| Source := "a"; Destination := "b"; ProgressCallback := cb1;
     ResultCallback := cb2; UpdateProgress := true |}.

(** One file, "a", holding "hello" with mode 0644. *)
Definition fs_a : gmap string file := {[ "a" := File hello 420 ]}.

(** A world with one volume, umask 022, nothing open, no [remove]
    refused. *)
Definition world0 (fs : gmap string file) (script : list fault) : world :=
  {| files := fs; fds := ∅; devs := fun _ => 1; umask := 18; errno := 0;
     faults := script; unlinks := []; trace := [] |}.

(** "a" is on volume 1 and every other path on volume 2. *)
Definition two_volumes (path : string) : Z :=
  if decide (path = "a") then 1 else 2.

Definition world2 (fs : gmap string file) (script : list fault) : world :=
  {| files := fs; fds := ∅; devs := two_volumes; umask := 18; errno := 0;
     faults := script; unlinks := []; trace := [] |}.

(** Scripts for a copy: the first three entries go to open, fstat, open
    (a move has a second fstat), the rest to the reads and writes. *)
Definition short_transfers : list fault :=
  [NoFault; NoFault; NoFault; Short 2; Short 1].
Definition disk_full : list fault :=
  [NoFault; NoFault; NoFault; Short 3; Short 2; Errno 28].

(** The world a run ends in ([w] itself if the fuel does not suffice). *)
Definition outcome (r : option world) (w : world) : world := default w r.

(** A copy with short reads and writes; a copy and a move whose second
    write finds the disk full; moves on one volume and across two. *)
Definition w_short : world := world0 fs_a short_transfers.
Definition w_full : world := world0 fs_a disk_full.
Definition w_move_full : world := world2 fs_a (NoFault :: disk_full).
Definition w_move_short : world := world2 fs_a (NoFault :: short_transfers).
Definition w_plain : world := world0 fs_a [].
Definition w_across : world := world2 fs_a [].

(** The same copy and moves in an environment that refuses the [remove]
    with EACCES. *)
Definition w_full_kept : world := set_unlinks [Errno 13] w_full.
Definition w_across_kept : world := set_unlinks [Errno 13] w_across.
Definition w_plain_kept : world := set_unlinks [Errno 13] w_plain.

(** A primitive that accepts calls and never transfers anything. *)
Definition write_nothing (fd : Z) (data : list byte) (st : list byte)
  : Z * list byte := (0, st).

(** A primitive that takes one byte per call. *)
Definition write_one (fd : Z) (data : list byte) (st : list byte)
  : Z * list byte :=
  match data with
  | [] => (0, st)
  | b :: _ => (1, st ++ [b])
  end.

(** Both keep the bytes they took as their state. *)
Definition sink (fd : Z) (st : list byte) : list byte := st.

End Samples.

(** * Properties of the environment *)

Module PosixFacts.
Import Posix.

Lemma fd_lookup_nat (w : world) (n : nat) : fd_lookup w (Z.of_nat n) = fds w !! n.
Proof.
  unfold fd_lookup. destruct (Z.ltb_spec (Z.of_nat n) 0) as [H|H]; [lia|].
  by rewrite Nat2Z.id.
Qed.

Lemma transfer_cap_le (f : fault) (count : nat) : (transfer_cap f count <= count)%nat.
Proof. destruct f; simpl; lia. Qed.

Lemma transfer_cap_pos (f : fault) (count : nat) :
  (0 < count)%nat -> (0 < transfer_cap f count)%nat.
Proof. destruct f; simpl; lia. Qed.

Lemma fresh_fd_unused (w : world) : fds w !! fresh (dom (fds w)) = None.
Proof. apply not_elem_of_dom, is_fresh. Qed.

(** What does not depend on the scripted fault. *)
Lemma next_fault_frame (w w1 : world) (f : fault) :
  next_fault w = (f, w1) ->
  files w1 = files w /\ fds w1 = fds w /\ devs w1 = devs w /\
  umask w1 = umask w /\ errno w1 = errno w /\ trace w1 = trace w.
Proof.
  unfold next_fault. destruct (faults w); intros [= <- <-]; done.
Qed.

(** A call fails on the script's say-so only if its entry is an [Errno]. *)
Definition scripted_failure (w : world) : Prop :=
  exists e, head (faults w) = Some (Errno e).

Lemma next_fault_script (w w1 : world) (f : fault) :
  next_fault w = (f, w1) ->
  faults w1 = tail (faults w) /\
  (forall e, f = Errno e -> scripted_failure w).
Proof.
  unfold next_fault, scripted_failure.
  destruct (faults w) as [|f' l] eqn:E; intros [= <- <-]; simpl;
    (split; [done|]); intros e He; [done|]. subst f'. by exists e.
Qed.

(** The mode a file at [path] has after [open(path, O_WRONLY|O_CREAT|O_TRUNC, mode)]. *)
Definition mode_after_create (w : world) (path : string) (mode : Z) : Z :=
  match files w !! path with
  | Some fl => f_mode fl
  | None => Z.ldiff mode (umask w)
  end.

Lemma open_rd_spec (path : string) (mode : Z) (w w' : world) (r : Z) :
  open path NativeFS.rd_flags mode w = (r, w') ->
  devs w' = devs w /\ umask w' = umask w /\ files w' = files w /\
  faults w' = tail (faults w) /\
  trace w' = trace w ++ [SysOpen path NativeFS.rd_flags r] /\
  ((r = -1 /\ fds w' = fds w /\
    (scripted_failure w \/ files w !! path = None)) \/
   (exists (n : nat) (fl : file),
      r = Z.of_nat n /\ fds w !! n = None /\ files w !! path = Some fl /\
      fds w' = <[n := Ofd path 0 false]> (fds w))).
Proof.
  unfold open. destruct (next_fault w) as [f w1] eqn:Hf.
  destruct (next_fault_script _ _ _ Hf) as [Hfa Hcause].
  apply next_fault_frame in Hf as (Hfi & Hfd & Hdv & Hum & _ & Htr).
  pose proof (fresh_fd_unused w1) as Hfresh.
  assert (Hid : forall fl, files w1 !! path = Some fl ->
                           <[path := fl]> (files w1) = files w1)
    by (intros; by apply insert_id).
  destruct f; (destruct (files w1 !! path) as [fl|] eqn:Hp;
    [specialize (Hid fl eq_refl)|]); intros [= <- <-]; simpl;
    rewrite ?Hid, ?Htr; repeat split; try congruence;
    try (left; repeat split; try congruence; (by right; congruence) || (left; by eapply Hcause));
    right; exists (fresh (dom (fds w1))), fl; rewrite <- Hfd, <- Hfi;
    repeat split; done.
Qed.

Lemma open_wr_spec (path : string) (mode : Z) (w w' : world) (r : Z) :
  open path NativeFS.wr_flags mode w = (r, w') ->
  devs w' = devs w /\ umask w' = umask w /\
  faults w' = tail (faults w) /\
  trace w' = trace w ++ [SysOpen path NativeFS.wr_flags r] /\
  ((r = -1 /\ fds w' = fds w /\ files w' = files w /\ scripted_failure w) \/
   (exists n : nat,
      r = Z.of_nat n /\ fds w !! n = None /\
      fds w' = <[n := Ofd path 0 true]> (fds w) /\
      files w' = <[path := File [] (mode_after_create w path mode)]> (files w))).
Proof.
  unfold open, mode_after_create.
  destruct (next_fault w) as [f w1] eqn:Hf.
  destruct (next_fault_script _ _ _ Hf) as [Hfa Hcause].
  apply next_fault_frame in Hf as (Hfi & Hfd & Hdv & Hum & _ & Htr).
  pose proof (fresh_fd_unused w1) as Hfresh.
  rewrite <- Hfi, <- Hum.
  destruct f; destruct (files w1 !! path) as [fl|] eqn:Hp;
    intros [= <- <-]; simpl; rewrite ?Htr; repeat split; try congruence;
    try (left; repeat split; try congruence; by eapply Hcause);
    right; exists (fresh (dom (fds w1))); rewrite <- Hfd;
    repeat split; done.
Qed.

Lemma fstat_spec (n : nat) (o : ofd) (fl : file) (w w' : world) (r : Z) (st : stat) :
  fds w !! n = Some o ->
  files w !! o_path o = Some fl ->
  fstat (Z.of_nat n) w = (r, st, w') ->
  devs w' = devs w /\ umask w' = umask w /\ files w' = files w /\
  fds w' = fds w /\ faults w' = tail (faults w) /\
  trace w' = trace w ++ [SysFstat (Z.of_nat n) r] /\
  ((r = -1 /\ scripted_failure w) \/
   (r = 0 /\
    st = Stat (Z.of_nat (length (f_data fl))) (f_mode fl) (devs w (o_path o)))).
Proof.
  intros Hn Hp. unfold fstat.
  destruct (next_fault w) as [f w1] eqn:Hf.
  destruct (next_fault_script _ _ _ Hf) as [Hfa Hcause].
  pose proof (fd_lookup_nat w1 n) as Hl.
  apply next_fault_frame in Hf as (Hfi & Hfd & Hdv & Hum & _ & Htr).
  rewrite Hl, Hfd, Hn, Hfi, Hp, Hdv.
  destruct f; intros [= <- <- <-]; simpl; rewrite ?Htr; repeat split;
    try congruence;
    try (left; split; [done|by eapply Hcause]);
    right; done.
Qed.

Lemma read_spec (n : nat) (path : string) (pos : nat) (fl : file)
    (w w' : world) (r : Z) (buf : list byte) :
  fds w !! n = Some (Ofd path pos false) ->
  files w !! path = Some fl ->
  read (Z.of_nat n) NativeFS.BUFFER_SIZE w = (r, buf, w') ->
  devs w' = devs w /\ umask w' = umask w /\ files w' = files w /\
  faults w' = tail (faults w) /\
  trace w' = trace w ++ [SysRead (Z.of_nat n) r] /\
  ((r = -1 /\ fds w' = fds w /\ scripted_failure w) \/
   (exists k : nat,
      (0 < k)%nat /\ buf = take k (drop pos (f_data fl)) /\
      r = Z.of_nat (length buf) /\
      fds w' = <[n := Ofd path (pos + length buf) false]> (fds w))).
Proof.
  intros Hn Hp. unfold read.
  destruct (next_fault w) as [f w1] eqn:Hf.
  destruct (next_fault_script _ _ _ Hf) as [Hfa Hcause].
  pose proof (fd_lookup_nat w1 n) as Hl.
  apply next_fault_frame in Hf as (Hfi & Hfd & Hdv & Hum & _ & Htr).
  rewrite Hl, Hfd, Hn; simpl; rewrite Hfi, Hp, ?Nat2Z.id; simpl.
  assert (Hcap : (0 < transfer_cap f (Z.to_nat NativeFS.BUFFER_SIZE))%nat)
    by (apply transfer_cap_pos; unfold NativeFS.BUFFER_SIZE; lia).
  destruct f; intros [= <- <- <-]; simpl; rewrite ?Htr;
    repeat split; try congruence;
    try (left; repeat split; try congruence; by eapply Hcause);
    right; eexists; (split; [exact Hcap|]); repeat split; congruence.
Qed.

Lemma write_spec (n : nat) (path : string) (pos : nat) (fl : file)
    (data : list byte) (w w' : world) (r : Z) :
  fds w !! n = Some (Ofd path pos true) ->
  files w !! path = Some fl ->
  write (Z.of_nat n) data w = (r, w') ->
  devs w' = devs w /\ umask w' = umask w /\
  faults w' = tail (faults w) /\
  trace w' = trace w ++ [SysWrite (Z.of_nat n) r] /\
  ((r = -1 /\ fds w' = fds w /\ files w' = files w /\ scripted_failure w) \/
   (exists k : nat,
      (k <= length data)%nat /\ (data <> [] -> (0 < k)%nat) /\
      r = Z.of_nat k /\
      fds w' = <[n := Ofd path (pos + k) true]> (fds w) /\
      files w' =
        <[path := File (write_at pos (take k data) (f_data fl)) (f_mode fl)]>
          (files w))).
Proof.
  intros Hn Hp. unfold write.
  destruct (next_fault w) as [f w1] eqn:Hf.
  destruct (next_fault_script _ _ _ Hf) as [Hfa Hcause].
  pose proof (fd_lookup_nat w1 n) as Hl.
  apply next_fault_frame in Hf as (Hfi & Hfd & Hdv & Hum & _ & Htr).
  rewrite Hl, Hfd, Hn; simpl; rewrite Hfi, Hp, ?Nat2Z.id; simpl.
  pose proof (transfer_cap_le f (length data)) as Hle.
  assert (Hpos : data <> [] -> (0 < transfer_cap f (length data))%nat).
  { intros Hd. apply transfer_cap_pos. destruct data; [done|simpl; lia]. }
  assert (Hlen : length (take (transfer_cap f (length data)) data)
                 = transfer_cap f (length data))
    by (rewrite length_take; lia).
  remember (transfer_cap f (length data)) as c eqn:Hc.
  destruct f; intros [= <- <-]; simpl; rewrite ?Htr, ?Hlen;
    repeat split; try congruence;
    try (left; repeat split; try congruence; by eapply Hcause);
    right; eexists; (split; [exact Hle|]); (split; [exact Hpos|]);
    repeat split; congruence.
Qed.

Lemma rename_spec (oldpath newpath : string) (w w' : world) (r : Z) :
  rename oldpath newpath w = (r, w') ->
  devs w' = devs w /\ umask w' = umask w /\ fds w' = fds w /\
  trace w' = trace w ++ [SysRename oldpath newpath r] /\
  ((r = -1 /\ files w' = files w) \/
   (exists fl : file,
      r = 0 /\ files w !! oldpath = Some fl /\
      devs w oldpath = devs w newpath /\
      files w' = <[newpath := fl]> (delete oldpath (files w)))).
Proof.
  unfold rename.
  destruct (next_fault w) as [f w1] eqn:Hf.
  apply next_fault_frame in Hf as (Hfi & Hfd & Hdv & Hum & _ & Htr).
  rewrite <- Hfi, <- Hdv.
  destruct f; destruct (files w1 !! oldpath) as [fl|] eqn:Hp;
    try destruct (Z.eqb_spec (devs w1 oldpath) (devs w1 newpath));
    intros [= <- <-]; simpl; rewrite ?Htr; repeat split; try congruence;
    try (left; split; congruence);
    right; exists fl; repeat split; congruence.
Qed.

(** Calls without a scripted outcome: plain equations. *)
Lemma files_close fd w : files (close fd w) = files w.
Proof. unfold close. by destruct (fd_lookup w fd). Qed.
Lemma devs_close fd w : devs (close fd w) = devs w.
Proof. unfold close. by destruct (fd_lookup w fd). Qed.
Lemma umask_close fd w : umask (close fd w) = umask w.
Proof. unfold close. by destruct (fd_lookup w fd). Qed.
Lemma faults_close fd w : faults (close fd w) = faults w.
Proof. unfold close. by destruct (fd_lookup w fd). Qed.
Lemma trace_close fd w : trace (close fd w) = trace w ++ [SysClose fd].
Proof. unfold close. by destruct (fd_lookup w fd). Qed.
Lemma fds_close (n : nat) w : fds (close (Z.of_nat n) w) = delete n (fds w).
Proof.
  unfold close. rewrite fd_lookup_nat, Nat2Z.id.
  destruct (fds w !! n) eqn:H; simpl; [done|].
  symmetry. by apply delete_id.
Qed.

(** [remove]: the file goes unless the environment refuses the call. *)
Lemma files_remove path w :
  files (remove path w) = if remove_refused w then files w else delete path (files w).
Proof.
  unfold remove, next_unlink, remove_refused.
  destruct (unlinks w) as [|[|e|k] l]; simpl; destruct (files w !! path) eqn:H; simpl;
    try done; symmetry; by apply delete_id.
Qed.
Lemma devs_remove path w : devs (remove path w) = devs w.
Proof.
  unfold remove, next_unlink.
  destruct (unlinks w) as [|[|e|k] l]; simpl; by destruct (files w !! path).
Qed.
Lemma umask_remove path w : umask (remove path w) = umask w.
Proof.
  unfold remove, next_unlink.
  destruct (unlinks w) as [|[|e|k] l]; simpl; by destruct (files w !! path).
Qed.
Lemma fds_remove path w : fds (remove path w) = fds w.
Proof.
  unfold remove, next_unlink.
  destruct (unlinks w) as [|[|e|k] l]; simpl; by destruct (files w !! path).
Qed.
Lemma faults_remove path w : faults (remove path w) = faults w.
Proof.
  unfold remove, next_unlink.
  destruct (unlinks w) as [|[|e|k] l]; simpl; by destruct (files w !! path).
Qed.
Lemma trace_remove path w : trace (remove path w) = trace w ++ [SysRemove path].
Proof.
  unfold remove, next_unlink.
  destruct (unlinks w) as [|[|e|k] l]; simpl; by destruct (files w !! path).
Qed.

(** Whatever [remove] does to the file, the rest of the name space stays. *)
Lemma delete_files_remove path w :
  delete path (files (remove path w)) = delete path (files w).
Proof.
  rewrite files_remove. destruct (remove_refused w); [done|]. apply delete_delete_eq.
Qed.

(** Two name spaces that agree once [path] is taken out agree off [path]. *)
Lemma off_path (path other : string) (m m' : gmap string file) :
  delete path m' = delete path m -> other <> path -> m' !! other = m !! other.
Proof.
  intros Heq Hne.
  rewrite <- (lookup_delete_ne m' path other), <- (lookup_delete_ne m path other) by done.
  by rewrite Heq.
Qed.

(** The other calls leave the script of the [remove] calls alone. *)
Lemma unlinks_next_fault (w w1 : world) (f : fault) :
  next_fault w = (f, w1) -> unlinks w1 = unlinks w.
Proof. unfold next_fault. destruct (faults w); intros [= <- <-]; done. Qed.

Lemma unlinks_open path flags mode w : unlinks (open path flags mode w).2 = unlinks w.
Proof.
  unfold open. destruct (next_fault w) as [f w1] eqn:Hf.
  apply unlinks_next_fault in Hf as <-. by repeat case_match.
Qed.

Lemma unlinks_fstat fd w : unlinks (fstat fd w).2 = unlinks w.
Proof.
  unfold fstat. destruct (next_fault w) as [f w1] eqn:Hf.
  apply unlinks_next_fault in Hf as <-. by repeat case_match.
Qed.

Lemma unlinks_read fd count w : unlinks (read fd count w).2 = unlinks w.
Proof.
  unfold read. destruct (next_fault w) as [f w1] eqn:Hf.
  apply unlinks_next_fault in Hf as <-. by repeat case_match.
Qed.

Lemma unlinks_write fd data w : unlinks (write fd data w).2 = unlinks w.
Proof.
  unfold write. destruct (next_fault w) as [f w1] eqn:Hf.
  apply unlinks_next_fault in Hf as <-. by repeat case_match.
Qed.

Lemma unlinks_rename oldpath newpath w : unlinks (rename oldpath newpath w).2 = unlinks w.
Proof.
  unfold rename. destruct (next_fault w) as [f w1] eqn:Hf.
  apply unlinks_next_fault in Hf as <-. by repeat case_match.
Qed.

Lemma unlinks_close fd w : unlinks (close fd w) = unlinks w.
Proof. unfold close. by destruct (fd_lookup w fd). Qed.

Lemma remove_refused_unlinks (w w1 : world) :
  unlinks w1 = unlinks w -> remove_refused w1 = remove_refused w.
Proof. unfold remove_refused. by intros ->. Qed.

End PosixFacts.

(** * The write-retry helper *)

Module DoWriteFacts.
Import Posix NativeFS Samples.

Section Generic.
Context {St : Type}.
Variable write : Z -> list byte -> St -> Z * St.

Lemma doWrite_S (fuel : nat) (fd : Z) (data : list byte) (st : St) :
  doWrite write (S fuel) fd data st =
  let '(written, st) := write fd data st in
  if written =? -1 then Some (-1, st)
  else if written <? Z.of_nat (length data) then
    doWrite write fuel fd (drop (Z.to_nat written) data) st
  else Some (written, st).
Proof. reflexivity. Qed.

(** More fuel never changes a result. *)
Lemma doWrite_mono (n m : nat) (fd : Z) (data : list byte) (st : St) r :
  doWrite write n fd data st = Some r -> (n <= m)%nat ->
  doWrite write m fd data st = Some r.
Proof.
  revert m data st. induction n as [|n IH]; intros m data st H Hle; [done|].
  destruct m as [|m]; [lia|].
  rewrite doWrite_S in *. destruct (write fd data st) as [written st1].
  destruct (written =? -1); [done|].
  destruct (written <? Z.of_nat (length data)); [|done].
  apply IH; [done|lia].
Qed.

Variable accepted : Z -> St -> list byte.

Lemma doWrite_total (fd : Z) :
  write_contract write accepted -> write_progress write ->
  forall (fuel : nat) (data : list byte) (st : St),
    (length data < fuel)%nat ->
    exists r st', doWrite write fuel fd data st = Some (r, st') /\
      (r <> -1 -> accepted fd st' = accepted fd st ++ data).
Proof.
  intros Hc Hp. induction fuel as [|fuel IH]; intros data st Hlt; [lia|].
  rewrite doWrite_S.
  destruct (Hc fd data st) as [Herr|(k & Hk & Hr & Hacc)];
    pose proof (Hp fd data st) as Hnz;
    destruct (write fd data st) as [written st1]; simpl in *; subst written.
  - eexists _, _. split; [reflexivity|]. done.
  - destruct (Z.eqb_spec (Z.of_nat k) (-1)) as [?|_]; [lia|].
    destruct (Z.ltb_spec (Z.of_nat k) (Z.of_nat (length data))) as [Hlt'|Hge].
    + rewrite Nat2Z.id.
      assert (data <> []) by (intros ->; simpl in *; lia).
      assert (k <> 0%nat) by (intros ->; by apply Hnz).
      destruct (IH (drop k data) st1) as (r & st' & Hrun & Hres).
      { rewrite length_drop. lia. }
      exists r, st'. split; [done|]. intros Hne.
      rewrite (Hres Hne), Hacc, <- app_assoc. by rewrite take_drop.
    + eexists _, _. split; [reflexivity|]. intros _.
      rewrite Hacc. f_equal. apply take_ge. lia.
Qed.
End Generic.

Lemma write_nothing_contract : write_contract write_nothing sink.
Proof.
  intros fd data st. right. exists 0%nat. simpl. unfold sink.
  repeat split; [lia|]. by rewrite app_nil_r.
Qed.

Lemma write_one_contract : write_contract write_one sink.
Proof.
  intros fd [|b data] st; right.
  - exists 0%nat. simpl. unfold sink. by rewrite app_nil_r.
  - exists 1%nat. simpl. repeat split. lia.
Qed.

Lemma write_one_progress : write_progress write_one.
Proof. by intros fd [|b data] st. Qed.

Lemma doWrite_nothing_hangs (fuel : nat) (fd : Z) (b : byte) (st : list byte) :
  doWrite write_nothing fuel fd [b] st = None.
Proof. induction fuel as [|fuel IH]; [done|]. by rewrite doWrite_S. Qed.

End DoWriteFacts.

(** * The copy engine *)

Module CopyFacts.
Import Posix NativeFS PosixFacts DoWriteFacts.

(** [chain lo l hi]: lo <= l1 <= l2 <= ... <= hi. *)
Fixpoint chain (lo : Z) (l : list Z) (hi : Z) : Prop :=
  match l with
  | [] => lo <= hi
  | c :: l' => lo <= c /\ chain c l' hi
  end.

Lemma chain_bounds lo l hi : chain lo l hi -> lo <= hi.
Proof.
  revert lo. induction l as [|c l IH]; simpl; intros lo H; [done|].
  destruct H as [H1 H2]. apply IH in H2. lia.
Qed.

Lemma chain_weaken lo lo' l hi : lo' <= lo -> chain lo l hi -> chain lo' l hi.
Proof. destruct l; simpl; intros; [lia|]. split; [lia|tauto]. Qed.

Lemma chain_app lo l mid l' hi :
  chain lo l mid -> chain mid l' hi -> chain lo (l ++ l') hi.
Proof.
  revert lo. induction l as [|c l IH]; simpl; intros lo H H'.
  - by apply chain_weaken with mid.
  - destruct H. split; [done|]. by apply IH.
Qed.

Lemma chain_all_ge lo l hi : chain lo l hi -> Forall (fun c => lo <= c <= hi) l.
Proof.
  revert lo. induction l as [|c l IH]; simpl; intros lo H; [constructor|].
  destruct H as [H1 H2]. pose proof (chain_bounds _ _ _ H2).
  constructor; [lia|].
  eapply Forall_impl; [by apply IH|]. simpl. intros; lia.
Qed.

Lemma chain_sorted lo l hi : chain lo l hi -> StronglySorted Z.le l.
Proof.
  revert lo. induction l as [|c l IH]; simpl; intros lo H; constructor.
  - destruct H as [_ H]. by eapply IH.
  - destruct H as [_ H]. apply chain_all_ge in H.
    eapply Forall_impl; [exact H|]. simpl. intros; lia.
Qed.

Lemma progress_updates_app evs evs' :
  progress_updates (evs ++ evs') = progress_updates evs ++ progress_updates evs'.
Proof. apply omap_app. Qed.

Lemma completed_app evs evs' : completed (evs ++ evs') = completed evs ++ completed evs'.
Proof. unfold completed. by rewrite progress_updates_app, fmap_app. Qed.

(** What a run emits before its completion call: system calls, and progress
    calls on the progress callback that all carry the same total. *)
Definition quiet_event (args : Args) (total : Z) (e : event) : Prop :=
  match e with
  | Call f argv =>
    UpdateProgress args = true /\ f = ProgressCallback args /\
    exists c, argv = [JNumber c; JNumber total]
  | Throw _ => False
  | _ => True
  end.

(** Events other than [remove] and [rename]. *)
Definition no_unlink (e : event) : Prop :=
  match e with
  | SysRemove _ | SysRename _ _ _ => False
  | _ => True
  end.

(** What the loop of [Copy] emits. *)
Definition transfer_event (args : Args) (total : Z) (e : event) : Prop :=
  quiet_event args total e /\ no_unlink e.

Lemma transfer_events_quiet args total evs :
  Forall (transfer_event args total) evs -> Forall (quiet_event args total) evs.
Proof. intros H. eapply Forall_impl; [exact H|]. by intros e [? ?]. Qed.

Lemma transfer_events_no_unlink args total evs :
  Forall (transfer_event args total) evs -> Forall no_unlink evs.
Proof. intros H. eapply Forall_impl; [exact H|]. by intros e [? ?]. Qed.

Lemma write_at_end (d chunk : list byte) : write_at (length d) chunk d = d ++ chunk.
Proof.
  unfold write_at. rewrite firstn_all, Nat.sub_diag. simpl.
  rewrite drop_ge by lia. by rewrite app_nil_r.
Qed.

Lemma take_length_take {A} (k : nat) (l : list A) : take (length (take k l)) l = take k l.
Proof.
  rewrite length_take. destruct (Nat.le_gt_cases k (length l)).
  - by rewrite Nat.min_l.
  - rewrite Nat.min_r by lia. rewrite !take_ge; [done|lia|lia].
Qed.

Lemma no_script_no_failure (w : world) : faults w = [] -> ~ scripted_failure w.
Proof. intros H [e He]. by rewrite H in He. Qed.

Lemma no_script_stays (w w' : world) :
  faults w' = tail (faults w) -> faults w = [] -> faults w' = [].
Proof. intros -> ->. done. Qed.

(** [doWrite] on an open descriptor whose offset is the end of its file:
    it returns, and unless a write failed the whole buffer was appended. *)
Lemma doWrite_world (fuel : nat) (no : nat) (dst : string) (dmode : Z) :
  forall (data d : list byte) (w : world),
    fds w !! no = Some (Ofd dst (length d) true) ->
    files w !! dst = Some (File d dmode) ->
    (length data <= fuel)%nat -> (0 < fuel)%nat ->
    exists r w' evs,
      doWrite write fuel (Z.of_nat no) data w = Some (r, w') /\
      devs w' = devs w /\ umask w' = umask w /\
      trace w' = trace w ++ evs /\
      Forall (fun e => exists r, e = SysWrite (Z.of_nat no) r) evs /\
      (forall n, n <> no -> fds w' !! n = fds w !! n) /\
      (faults w = [] -> faults w' = [] /\ r <> -1) /\
      ((r = -1 /\ exists d', files w' = <[dst := File d' dmode]> (files w)) \/
       (r <> -1 /\ files w' = <[dst := File (d ++ data) dmode]> (files w) /\
        fds w' !! no = Some (Ofd dst (length d + length data) true))).
Proof.
  induction fuel as [|fuel IH]; intros data d w Hfd Hfile Hlen Hpos; [lia|].
  rewrite doWrite_S.
  destruct (write (Z.of_nat no) data w) as [written w1] eqn:Hw.
  destruct (write_spec _ _ _ _ _ _ _ _ Hfd Hfile Hw)
    as (Hdv & Hum & Hfa & Htr &
        [(-> & Hfds & Hfiles & Hcause)|(k & Hk & Hkpos & -> & Hfds & Hfiles)]).
  - (* the write failed *)
    simpl. exists (-1), w1, [SysWrite (Z.of_nat no) (-1)].
    repeat split; try done.
    + by repeat constructor; eexists.
    + intros. by rewrite Hfds.
    + by eapply no_script_stays.
    + intros _. by eapply no_script_no_failure.
    + left. split; [done|]. exists d. rewrite Hfiles. symmetry. by apply insert_id.
  - simpl in Hfiles. rewrite write_at_end in Hfiles.
    destruct (Z.eqb_spec (Z.of_nat k) (-1)) as [?|_]; [lia|].
    destruct (Z.ltb_spec (Z.of_nat k) (Z.of_nat (length data))) as [Hlt|Hge].
    + (* short write: retry on the tail *)
      rewrite Nat2Z.id.
      assert (data <> []) by (intros ->; simpl in *; lia).
      specialize (Hkpos ltac:(done)).
      destruct (IH (drop k data) (d ++ take k data) w1)
        as (r & w' & evs & Hrun & Hdv' & Hum' & Htr' & Hevs & Hfr & Hnf & Hres).
      { rewrite Hfds, lookup_insert_eq, length_app, length_take. do 3 f_equal. lia. }
      { by rewrite Hfiles, lookup_insert_eq. }
      { rewrite length_drop. lia. }
      { lia. }
      exists r, w', (SysWrite (Z.of_nat no) (Z.of_nat k) :: evs).
      repeat split; try congruence.
      * rewrite Htr', Htr, <- app_assoc. done.
      * constructor; [by eexists|done].
      * intros n Hn. rewrite Hfr by done. rewrite Hfds. by apply lookup_insert_ne.
      * apply Hnf. by eapply no_script_stays.
      * apply Hnf. by eapply no_script_stays.
      * destruct Hres as [(-> & d' & Hd')|(Hr & Hf' & Hfd')]; [left|right].
        -- split; [done|]. exists d'. by rewrite Hd', Hfiles, insert_insert_eq.
        -- split; [done|]. rewrite Hf', Hfiles, insert_insert_eq, <- app_assoc, take_drop.
           split; [done|]. rewrite Hfd'. rewrite length_app, length_take, length_drop.
           do 2 f_equal. lia.
    + (* the whole buffer went out *)
      assert (k = length data) as -> by lia.
      rewrite firstn_all in Hfiles.
      exists (Z.of_nat (length data)), w1, [SysWrite (Z.of_nat no) (Z.of_nat (length data))].
      repeat split; try done.
      * by repeat constructor; eexists.
      * intros n Hn. rewrite Hfds. by apply lookup_insert_ne.
      * by eapply no_script_stays.
      * lia.
      * right. split; [lia|]. split; [done|]. by rewrite Hfds, lookup_insert_eq.
Qed.

(** The notification helpers only add to the log. *)
Lemma trace_SendProgressUpdate args c t w :
  trace (SendProgressUpdate args c t w) = trace w ++ progress_call args c t.
Proof.
  unfold SendProgressUpdate, progress_call.
  destruct (UpdateProgress args); simpl; [done|by rewrite app_nil_r].
Qed.
Lemma files_SendProgressUpdate args c t w : files (SendProgressUpdate args c t w) = files w.
Proof. unfold SendProgressUpdate. by destruct (UpdateProgress args). Qed.
Lemma fds_SendProgressUpdate args c t w : fds (SendProgressUpdate args c t w) = fds w.
Proof. unfold SendProgressUpdate. by destruct (UpdateProgress args). Qed.
Lemma devs_SendProgressUpdate args c t w : devs (SendProgressUpdate args c t w) = devs w.
Proof. unfold SendProgressUpdate. by destruct (UpdateProgress args). Qed.
Lemma umask_SendProgressUpdate args c t w : umask (SendProgressUpdate args c t w) = umask w.
Proof. unfold SendProgressUpdate. by destruct (UpdateProgress args). Qed.
Lemma faults_SendProgressUpdate args c t w : faults (SendProgressUpdate args c t w) = faults w.
Proof. unfold SendProgressUpdate. by destruct (UpdateProgress args). Qed.

Lemma progress_call_transfer args c t :
  Forall (transfer_event args t) (progress_call args c t).
Proof.
  unfold progress_call. destruct (UpdateProgress args) eqn:H; repeat constructor; eauto.
Qed.

Lemma progress_call_quiet args c t : Forall (quiet_event args t) (progress_call args c t).
Proof. apply transfer_events_quiet, progress_call_transfer. Qed.

Lemma completed_progress_call args c t :
  completed (progress_call args c t) = if UpdateProgress args then [c] else [].
Proof. unfold progress_call. by destruct (UpdateProgress args). Qed.

Lemma chain_progress_call args lo c t : lo <= c -> chain lo (completed (progress_call args c t)) c.
Proof. rewrite completed_progress_call. destruct (UpdateProgress args); simpl; lia. Qed.

Lemma Copy_loop_S fuel fd_in fd_out inputSize bytesPerUpdate args progress sinceLastUpdate w :
  Copy_loop (S fuel) fd_in fd_out inputSize bytesPerUpdate args progress sinceLastUpdate w =
  let '(bytes_read, buffer, w) := read fd_in BUFFER_SIZE w in
  if bytes_read >? 0 then
    match doWrite write (S fuel) fd_out buffer w with
    | None => None
    | Some (written, w) =>
      if written =? -1 then Some (WriteError, w)
      else
        let progress := progress + bytes_read in
        let sinceLastUpdate := sinceLastUpdate + bytes_read in
        if sinceLastUpdate >? bytesPerUpdate then
          Copy_loop fuel fd_in fd_out inputSize bytesPerUpdate args progress 0
            (SendProgressUpdate args progress inputSize w)
        else
          Copy_loop fuel fd_in fd_out inputSize bytesPerUpdate args progress
            sinceLastUpdate w
    end
  else Some (ReadEnd bytes_read, w).
Proof. reflexivity. Qed.

(** More fuel never changes the result of the loop. *)
Lemma Copy_loop_mono n : forall m fd_in fd_out inputSize bpu args progress since w r,
  Copy_loop n fd_in fd_out inputSize bpu args progress since w = Some r ->
  (n <= m)%nat ->
  Copy_loop m fd_in fd_out inputSize bpu args progress since w = Some r.
Proof.
  induction n as [|n IH]; intros m fd_in fd_out inputSize bpu args progress since w r H Hle;
    [done|].
  destruct m as [|m]; [lia|].
  rewrite Copy_loop_S in *.
  destruct (read fd_in BUFFER_SIZE w) as [[bytes_read buffer] w1].
  destruct (bytes_read >? 0); [|done].
  destruct (doWrite write (S n) fd_out buffer w1) as [[written w2]|] eqn:Hw; [|done].
  rewrite (doWrite_mono _ _ (S m) _ _ _ _ Hw) by lia.
  destruct (written =? -1); [done|].
  cbv zeta in *. destruct (since + bytes_read >? bpu); apply IH; (done || lia).
Qed.

Lemma Copy_mono n m fd_in fd_out inputSize args rm w w' :
  Copy n fd_in fd_out inputSize args rm w = Some w' -> (n <= m)%nat ->
  Copy m fd_in fd_out inputSize args rm w = Some w'.
Proof.
  unfold Copy. intros H Hle.
  destruct (Copy_loop n _ _ _ _ _ _ _ _) as [r|] eqn:Hl; [|done].
  by rewrite (Copy_loop_mono _ _ _ _ _ _ _ _ _ _ _ Hl Hle).
Qed.

(** The transfer leaves the script of the [remove] calls alone. *)
Lemma unlinks_SendProgressUpdate args c t w : unlinks (SendProgressUpdate args c t w) = unlinks w.
Proof. unfold SendProgressUpdate. by destruct (UpdateProgress args). Qed.

Lemma doWrite_unlinks (fuel : nat) (fd : Z) :
  forall (data : list byte) (w w' : world) (r : Z),
    doWrite write fuel fd data w = Some (r, w') -> unlinks w' = unlinks w.
Proof.
  induction fuel as [|fuel IH]; intros data w w' r; [done|].
  rewrite doWrite_S. pose proof (unlinks_write fd data w) as Hu.
  destruct (write fd data w) as [written w1]. simpl in Hu.
  destruct (written =? -1); [by intros [= <- <-]|].
  destruct (written <? Z.of_nat (length data)); [|by intros [= <- <-]].
  intros Hrun. apply IH in Hrun. congruence.
Qed.

Lemma Copy_loop_unlinks (fuel : nat) fd_in fd_out inputSize bpu args :
  forall (progress since : Z) (w w' : world) (ex : loop_exit),
    Copy_loop fuel fd_in fd_out inputSize bpu args progress since w = Some (ex, w') ->
    unlinks w' = unlinks w.
Proof.
  induction fuel as [|fuel IH]; intros progress since w w' ex; [done|].
  rewrite Copy_loop_S. pose proof (unlinks_read fd_in BUFFER_SIZE w) as Hu.
  destruct (read fd_in BUFFER_SIZE w) as [[bytes_read buffer] w1]. simpl in Hu.
  destruct (bytes_read >? 0); [|by intros [= <- <-]].
  destruct (doWrite write (S fuel) fd_out buffer w1) as [[written w2]|] eqn:Hw; [|done].
  apply doWrite_unlinks in Hw.
  destruct (written =? -1); [intros [= <- <-]; congruence|].
  cbv zeta. destruct (since + bytes_read >? bpu); intros Hrun; apply IH in Hrun;
    rewrite ?unlinks_SendProgressUpdate in Hrun; congruence.
Qed.

Section CopyCore.
Variables (args : Args) (ni no : nat).
Variables (sdata : list byte) (smode dmode : Z).
Variable w0 : world.
Variable inputSize : Z.

Hypothesis Hsrc : files w0 !! Source args = Some (File sdata smode).
Hypothesis Hdst : files w0 !! Destination args = Some (File [] dmode).
Hypothesis Hne : ni <> no.

(** The state between two iterations, [p] bytes having been copied. *)
Definition Inv (p : nat) (w : world) : Prop :=
  files w = <[Destination args := File (take p sdata) dmode]> (files w0) /\
  fds w !! ni = Some (Ofd (Source args) p false) /\
  fds w !! no = Some (Ofd (Destination args) p true) /\
  (p <= length sdata)%nat /\
  devs w = devs w0 /\ umask w = umask w0.

(** What [fd_in] can still read: the source past [p].  When source and
    destination are one path, the file was emptied by the second [open]
    and nothing is left. *)
Lemma source_view p w :
  Inv p w ->
  exists fl, files w !! Source args = Some fl /\
             drop p (f_data fl) = drop p sdata.
Proof.
  intros (Hf & _). rewrite Hf.
  destruct (decide (Destination args = Source args)) as [Heq|Hneq].
  - rewrite Heq, lookup_insert_eq. eexists; split; [done|]. simpl.
    rewrite Heq in Hdst. rewrite Hsrc in Hdst. injection Hdst as -> _.
    by rewrite take_nil, drop_nil.
  - rewrite lookup_insert_ne by done. by exists (File sdata smode).
Qed.

Lemma Copy_loop_spec (bytesPerUpdate : Z) (fuel : nat) :
  forall (p : nat) (since : Z) (w : world),
  Inv p w -> (length sdata - p < fuel)%nat ->
  exists ex w' evs (p' : nat),
    Copy_loop fuel (Z.of_nat ni) (Z.of_nat no) inputSize bytesPerUpdate args
      (Z.of_nat p) since w = Some (ex, w') /\
    trace w' = trace w ++ evs /\
    Forall (transfer_event args inputSize) evs /\
    chain (Z.of_nat p) (completed evs) (Z.of_nat p') /\
    (p' <= length sdata)%nat /\
    devs w' = devs w0 /\ umask w' = umask w0 /\
    (faults w = [] -> faults w' = [] /\ ex = ReadEnd 0) /\
    match ex with
    | ReadEnd r =>
      (r = 0 /\ files w' = <[Destination args := File sdata dmode]> (files w0)) \/
      (r = -1 /\ exists d, files w' = <[Destination args := File d dmode]> (files w0))
    | WriteError =>
      exists d, files w' = <[Destination args := File d dmode]> (files w0)
    end.
Proof.
  induction fuel as [|fuel IH]; intros p since w HI Hfuel; [lia|].
  rewrite Copy_loop_S.
  destruct (source_view p w HI) as (fl & Hfl & Hview).
  destruct HI as (Hfiles & Hin & Hout & Hp & Hdv & Hum).
  destruct (read (Z.of_nat ni) BUFFER_SIZE w) as [[bytes_read buffer] w1] eqn:Hr.
  destruct (read_spec _ _ _ _ _ _ _ _ Hin Hfl Hr)
    as (Hdv1 & Hum1 & Hfiles1 & Hfa1 & Htr1 &
        [(-> & Hfds1 & Hcause)|(k & Hk & Hbuf & -> & Hfds1)]).
  { (* the read failed *)
    simpl. exists (ReadEnd (-1)), w1, [SysRead (Z.of_nat ni) (-1)], p.
    split; [done|]. split; [done|]. split; [by repeat constructor|].
    split; [simpl; lia|]. split; [done|]. split; [congruence|].
    split; [congruence|].
    split; [intros Hnil; by apply no_script_no_failure in Hnil|].
    right. split; [done|]. eexists. by rewrite Hfiles1, Hfiles. }
  rewrite Hview in Hbuf.
  destruct (Z.gtb_spec (Z.of_nat (length buffer)) 0) as [Hgt|Hle].
  2: { (* end of input *)
    assert (length buffer = 0%nat) as Hz by lia.
    exists (ReadEnd (Z.of_nat (length buffer))), w1,
      [SysRead (Z.of_nat ni) (Z.of_nat (length buffer))], p.
    split; [done|]. split; [done|]. split; [by repeat constructor|].
    split; [simpl; lia|]. split; [done|]. split; [congruence|].
    split; [congruence|].
    split; [intros Hnil; split; [by eapply no_script_stays|by rewrite Hz]|].
    left. split; [lia|]. rewrite Hfiles1, Hfiles. do 3 f_equal.
      apply take_ge. rewrite Hbuf, length_take, length_drop in Hz. lia. }
  (* a chunk was read *)
  set (c := length buffer) in *.
  assert (Hc : (c <= length sdata - p)%nat).
  { unfold c. rewrite Hbuf, length_take, length_drop. lia. }
  assert (Htake : take p sdata ++ buffer = take (p + c) sdata).
  { rewrite <- take_take_drop. f_equal. unfold c. rewrite Hbuf.
    symmetry. apply take_length_take. }
  destruct (doWrite_world (S fuel) no (Destination args) dmode buffer (take p sdata) w1)
    as (r & w2 & wevs & Hrun & Hdv2 & Hum2 & Htr2 & Hwevs & Hfr2 & Hnf2 & Hres).
  { rewrite Hfds1, lookup_insert_ne by done. rewrite Hout, length_take. do 3 f_equal. lia. }
  { by rewrite Hfiles1, Hfiles, lookup_insert_eq. }
  { fold c. lia. }
  { lia. }
  rewrite Hrun.
  assert (Hq : Forall (transfer_event args inputSize)
                 (SysRead (Z.of_nat ni) (Z.of_nat c) :: wevs)).
  { constructor; [done|]. eapply Forall_impl; [exact Hwevs|].
    by intros e [r' ->]. }
  assert (Hcw : completed (SysRead (Z.of_nat ni) (Z.of_nat c) :: wevs) = []).
  { unfold completed, progress_updates. simpl.
    clear -Hwevs. induction Hwevs as [|e l [r' ->] _ IHl]; [done|]. by simpl. }
  destruct Hres as [(-> & d' & Hd')|(Hrne & Hfiles2 & Hfd2)].
  { (* a write failed *)
    simpl. exists WriteError, w2, (SysRead (Z.of_nat ni) (Z.of_nat c) :: wevs), p.
    split; [done|]. split; [by rewrite Htr2, Htr1, <- app_assoc|].
    split; [done|]. split; [rewrite Hcw; simpl; lia|]. split; [done|].
    split; [congruence|]. split; [congruence|].
    split.
    { intros Hnil. destruct Hnf2 as [_ Hrne]; [by eapply no_script_stays|done]. }
    exists d'. by rewrite Hd', Hfiles1, Hfiles, insert_insert_eq. }
  destruct (Z.eqb_spec r (-1)) as [?|_]; [done|].
  rewrite length_take, Nat.min_l in Hfd2 by lia. fold c in Hfd2.
  assert (HI2 : Inv (p + c) w2).
  { repeat split; try congruence.
    - by rewrite Hfiles2, Hfiles1, Hfiles, insert_insert_eq, Htake.
    - rewrite Hfr2 by done. by rewrite Hfds1, lookup_insert_eq.
    - lia. }
  assert (Hp2 : Z.of_nat p + Z.of_nat c = Z.of_nat (p + c)) by lia.
  cbv zeta. rewrite Hp2.
  destruct (since + Z.of_nat c >? bytesPerUpdate).
  - destruct (IH (p + c)%nat 0
                (SendProgressUpdate args (Z.of_nat (p + c)) inputSize w2))
      as (ex & w' & evs & p' & Hloop & Htr' & Hevs & Hch & Hp' & Hdv' & Hum' & Hnf' & Hex).
    { destruct HI2 as (? & ? & ? & ? & ? & ?).
      repeat split;
        rewrite ?files_SendProgressUpdate, ?fds_SendProgressUpdate,
          ?devs_SendProgressUpdate, ?umask_SendProgressUpdate; done. }
    { lia. }
    exists ex, w',
      ((SysRead (Z.of_nat ni) (Z.of_nat c) :: wevs)
         ++ progress_call args (Z.of_nat (p + c)) inputSize ++ evs), p'.
    split; [done|]. split.
    { rewrite Htr', trace_SendProgressUpdate, Htr2, Htr1.
      rewrite <- !app_assoc. done. }
    split.
    { apply Forall_app. split; [done|]. apply Forall_app. split; [|done].
      apply progress_call_transfer. }
    split.
    { rewrite !completed_app, Hcw. simpl.
      apply chain_app with (Z.of_nat (p + c)); [|done].
      apply chain_progress_call. lia. }
    do 3 (split; [done|]). split; [|done].
    intros Hnil. apply Hnf'. rewrite faults_SendProgressUpdate.
    apply Hnf2. by eapply no_script_stays.
  - destruct (IH (p + c)%nat (since + Z.of_nat c) w2)
      as (ex & w' & evs & p' & Hloop & Htr' & Hevs & Hch & Hp' & Hdv' & Hum' & Hnf' & Hex);
      [done|lia|].
    exists ex, w', ((SysRead (Z.of_nat ni) (Z.of_nat c) :: wevs) ++ evs), p'.
    split; [done|]. split.
    { rewrite Htr', Htr2, Htr1. rewrite <- !app_assoc. done. }
    split; [apply Forall_app; split; done|].
    split.
    { rewrite completed_app, Hcw. simpl.
      apply chain_weaken with (Z.of_nat (p + c)); [lia|done]. }
    do 3 (split; [done|]). split; [|done].
    intros Hnil. apply Hnf'. apply Hnf2. by eapply no_script_stays.
Qed.

Hypothesis Hsize : Z.of_nat (length sdata) <= inputSize.

(** [Copy] on the two fresh descriptors: it returns, makes exactly one
    completion call, and either installs the source bytes at the
    destination or calls [remove] on the destination; a [remove] takes
    effect unless the environment refuses it. *)
Lemma Copy_spec (fuel : nat) (removeWhenDone : bool) (w : world) :
  Inv 0 w -> (length sdata < fuel)%nat ->
  exists w' pre fin,
    Copy fuel (Z.of_nat ni) (Z.of_nat no) inputSize args removeWhenDone w = Some w' /\
    trace w' = trace w ++ pre ++ [fin] /\
    Forall (quiet_event args inputSize) pre /\
    chain 0 (completed pre) inputSize /\
    devs w' = devs w0 /\ umask w' = umask w0 /\
    ((fin = Call (ResultCallback args) [JNull; JBool true] /\
      files w' =
        (if removeWhenDone && negb (remove_refused w) then delete (Source args) else id)
          (<[Destination args := File sdata dmode]> (files w0)) /\
      (UpdateProgress args = true ->
       last (progress_updates pre) = Some (inputSize, inputSize))) \/
     (exists text pre',
        fin = Call (ResultCallback args) [JString text; JBool false] /\
        pre = pre' ++ [SysRemove (Destination args)] /\
        delete (Destination args) (files w') = delete (Destination args) (files w0) /\
        (remove_refused w = false -> files w' !! Destination args = None) /\
        Forall no_unlink pre')).
Proof.
  intros HI Hfuel. unfold Copy. cbv zeta.
  destruct (Copy_loop_spec (Z.quot inputSize 100) fuel 0 0 w HI ltac:(lia))
    as (ex & w1 & evs & p' & Hloop & Htr & Hevt & Hch & Hp' & Hdv & Hum & _ & Hex).
  pose proof (transfer_events_quiet _ _ _ Hevt) as Hevs.
  pose proof (transfer_events_no_unlink _ _ _ Hevt) as Hevu.
  change (Z.of_nat 0) with 0 in Hloop. rewrite Hloop.
  pose proof (Copy_loop_unlinks _ _ _ _ _ _ _ _ _ _ _ Hloop) as Hun.
  assert (Hfail : forall d, files w1 = <[Destination args := File d dmode]> (files w0) ->
    exists w' pre fin,
      Some (copyByFdError (Z.of_nat ni) (Z.of_nat no) args w1) = Some w' /\
      trace w' = trace w ++ pre ++ [fin] /\
      Forall (quiet_event args inputSize) pre /\
      chain 0 (completed pre) inputSize /\
      devs w' = devs w0 /\ umask w' = umask w0 /\
      ((fin = Call (ResultCallback args) [JNull; JBool true] /\
        files w' =
          (if removeWhenDone && negb (remove_refused w) then delete (Source args) else id)
            (<[Destination args := File sdata dmode]> (files w0)) /\
        (UpdateProgress args = true ->
         last (progress_updates pre) = Some (inputSize, inputSize))) \/
       (exists text pre',
          fin = Call (ResultCallback args) [JString text; JBool false] /\
          pre = pre' ++ [SysRemove (Destination args)] /\
          delete (Destination args) (files w') = delete (Destination args) (files w0) /\
          (remove_refused w = false -> files w' !! Destination args = None) /\
          Forall no_unlink pre'))).
  { intros d Hd. unfold copyByFdError, SendError.
    eexists _, (evs ++ [SysClose (Z.of_nat ni); SysClose (Z.of_nat no);
                        SysRemove (Destination args)]), _.
    split; [reflexivity|]. simpl.
    rewrite trace_remove, !trace_close, Htr, <- !app_assoc. simpl.
    split; [reflexivity|].
    split; [apply Forall_app; split; [done|by repeat constructor]|].
    split.
    { rewrite completed_app.
      apply chain_app with (Z.of_nat p'); [exact Hch|simpl; lia]. }
    rewrite devs_remove, !devs_close, umask_remove, !umask_close.
    do 2 (split; [done|]).
    right. eexists _, (evs ++ [SysClose (Z.of_nat ni); SysClose (Z.of_nat no)]).
    split; [reflexivity|]. split; [by rewrite <- app_assoc|].
    split; [rewrite delete_files_remove, !files_close, Hd; apply delete_insert_eq|].
    split; [|apply Forall_app; split; [done|]; by repeat constructor].
    intros Hok. rewrite files_remove.
    rewrite (remove_refused_unlinks w) by (by rewrite !unlinks_close).
    rewrite Hok. apply lookup_delete_eq. }
  destruct ex as [r|]; [|destruct Hex as [d Hd]; exact (Hfail d Hd)].
  destruct Hex as [(-> & Hfiles)|(-> & d & Hd)]; [|exact (Hfail d Hd)].
  (* end of input: the success path *)
  simpl. unfold SendComplete.
  eexists _, (evs ++ progress_call args inputSize inputSize
                ++ [SysClose (Z.of_nat ni); SysFsync (Z.of_nat no);
                    SysClose (Z.of_nat no)]
                ++ (if removeWhenDone then [SysRemove (Source args)] else [])), _.
  split; [reflexivity|].
  split.
  { simpl. destruct removeWhenDone; simpl;
      rewrite ?trace_remove, !trace_close; unfold fsync; simpl;
      rewrite !trace_close, trace_SendProgressUpdate, Htr, <- !app_assoc; done. }
  split.
  { apply Forall_app; split; [done|]. apply Forall_app; split;
      [apply progress_call_quiet|].
    destruct removeWhenDone; by repeat constructor. }
  split.
  { rewrite !completed_app.
    apply chain_app with (Z.of_nat p'); [exact Hch|].
    apply chain_app with inputSize; [apply chain_progress_call; lia|].
    destruct removeWhenDone; simpl; lia. }
  split.
  { destruct removeWhenDone; simpl;
      rewrite ?devs_remove, !devs_close; unfold fsync; simpl;
      by rewrite !devs_close, devs_SendProgressUpdate. }
  split.
  { destruct removeWhenDone; simpl;
      rewrite ?umask_remove, !umask_close; unfold fsync; simpl;
      by rewrite !umask_close, umask_SendProgressUpdate. }
  left. split; [done|]. split.
  - destruct removeWhenDone; simpl.
    + rewrite files_remove.
      rewrite (remove_refused_unlinks w)
        by (rewrite !unlinks_close; unfold fsync; simpl;
            by rewrite unlinks_close, unlinks_SendProgressUpdate).
      rewrite !files_close. unfold fsync. simpl.
      rewrite !files_close, files_SendProgressUpdate, Hfiles.
      by destruct (remove_refused w).
    + rewrite !files_close. unfold fsync. simpl.
      by rewrite !files_close, files_SendProgressUpdate, Hfiles.
  - intros Hup. rewrite !progress_updates_app.
    unfold progress_call. rewrite Hup.
    destruct removeWhenDone; simpl; apply last_snoc.
Qed.

(** With no fault scripted the copy succeeds. *)
Lemma Copy_unscripted (fuel : nat) (removeWhenDone : bool) (w : world) :
  Inv 0 w -> (length sdata < fuel)%nat -> faults w = [] ->
  exists w',
    Copy fuel (Z.of_nat ni) (Z.of_nat no) inputSize args removeWhenDone w = Some w' /\
    last (trace w') = Some (Call (ResultCallback args) [JNull; JBool true]).
Proof.
  intros HI Hfuel Hnil. unfold Copy. cbv zeta.
  destruct (Copy_loop_spec (Z.quot inputSize 100) fuel 0 0 w HI ltac:(lia))
    as (ex & w1 & evs & p' & Hloop & _ & _ & _ & _ & _ & _ & Hnf & _).
  destruct (Hnf Hnil) as [_ ->].
  change (Z.of_nat 0) with 0 in Hloop. rewrite Hloop. simpl.
  eexists. split; [reflexivity|]. unfold SendComplete, log. simpl.
  apply last_snoc.
Qed.
End CopyCore.

End CopyFacts.

(** * The exported methods *)

Module MethodFacts.
Import Posix NativeFS PosixFacts DoWriteFacts CopyFacts.

(** Fuel that lets every run from [w] finish. *)
Definition enough_fuel (w : world) (args : Args) : nat :=
  S (Z.to_nat (source_size w args)).

(** One of the first [k] scripted faults is an error. *)
Definition early_fault (w : world) (k : nat) : Prop :=
  exists i e, (i < k)%nat /\ faults w !! i = Some (Errno e).

Lemma opening_fault_early (w : world) : early_fault w 4 -> opening_fault w = true.
Proof.
  intros (i & e & Hi & Hl). unfold opening_fault. apply existsb_exists.
  exists (Errno e). split; [|done]. apply list_elem_of_In.
  apply list_elem_of_lookup. exists i. by rewrite lookup_take_lt.
Qed.

(** What every run looks like: quiet events, then one completion call. *)
Definition run_shape (args : Args) (total : Z) (w w' : world)
    (pre : list event) (fin : event) : Prop :=
  trace w' = trace w ++ pre ++ [fin] /\
  Forall (quiet_event args total) pre /\
  chain 0 (completed pre) total /\
  devs w' = devs w /\ umask w' = umask w.

(** The failure outcome: [remove] was called on the destination just
    before the error was reported, and that is the only [remove] or
    [rename] of the run.  The rest of the name space is as it was, and
    the destination is gone unless the environment refused the call. *)
Definition failed (args : Args) (w w' : world) (pre : list event) (fin : event) : Prop :=
  exists text pre',
    fin = failure_call args text /\
    pre = pre' ++ [SysRemove (Destination args)] /\
    delete (Destination args) (files w') = delete (Destination args) (files w) /\
    (remove_refused w = false -> files w' !! Destination args = None) /\
    Forall no_unlink pre'.

Lemma source_size_nonneg w args : 0 <= source_size w args.
Proof. unfold source_size. destruct (files w !! Source args); lia. Qed.

Lemma path_error (args : Args) (total : Z) (w w1 : world) (evs : list event) :
  trace w1 = trace w ++ evs ->
  Forall (quiet_event args total) evs ->
  Forall no_unlink evs ->
  completed evs = [] -> 0 <= total ->
  devs w1 = devs w -> umask w1 = umask w ->
  unlinks w1 = unlinks w ->
  delete (Destination args) (files w1) = delete (Destination args) (files w) ->
  exists pre fin,
    run_shape args total w (copyByPathError args w1) pre fin /\
    failed args w (copyByPathError args w1) pre fin.
Proof.
  intros Htr Hq Hnu Hc Ht Hdv Hum Hun Hfiles.
  exists (evs ++ [SysRemove (Destination args)]),
    (failure_call args (strerror (errno (remove (Destination args) w1)))).
  unfold copyByPathError, SendError, run_shape, failed. simpl.
  rewrite trace_remove, devs_remove, umask_remove, Htr, <- !app_assoc.
  split; [|eexists _, _; split; [done|]; split; [done|]].
  - split; [done|]. split; [apply Forall_app; split; [done|]; by repeat constructor|].
    split; [|done]. rewrite completed_app, Hc. simpl. lia.
  - split; [by rewrite delete_files_remove|]. split; [|done].
    intros Hok. rewrite files_remove, (remove_refused_unlinks w) by done.
    rewrite Hok. apply lookup_delete_eq.
Qed.

(** The fault script of a later world is empty when the first one was. *)
Ltac script_empty :=
  repeat match goal with
         | H : faults _ = tail _ |- _ => rewrite H
         end;
  match goal with
  | H : faults _ = [] |- _ => rewrite H
  end; reflexivity.

(** A failure that needs a scripted fault cannot happen on an empty script. *)
Ltac unscripted :=
  let Hnil := fresh "Hnil" in
  let Hsome := fresh "Hsome" in
  intros Hnil Hsome; exfalso;
  match goal with
  | H : scripted_failure ?w1 \/ _ = None |- _ =>
    destruct H as [H|H];
    [apply (no_script_no_failure w1); [script_empty|exact H]
    |rewrite H in Hsome; by destruct Hsome]
  | H : scripted_failure ?w1 |- _ =>
    apply (no_script_no_failure w1); [script_empty|exact H]
  end.

Lemma last_of_run (t pre : list event) (fin : event) : last (t ++ pre ++ [fin]) = Some fin.
Proof. rewrite app_assoc. apply last_snoc. Qed.

Lemma moveError_copyByPathError args w : moveError args w = copyByPathError args w.
Proof. reflexivity. Qed.

(** What a run of NAN_METHOD(Copy) from [w] to [w'] amounts to: it either
    installs the source bytes at the destination, or fails. *)
Definition Copy_outcome (args : Args) (w w' : world)
    (pre : list event) (fin : event) : Prop :=
  run_shape args (source_size w args) w w' pre fin /\
  (faults w = [] -> is_Some (files w !! Source args) -> fin = success_call args) /\
  ((exists sdata smode,
      files w !! Source args = Some (File sdata smode) /\
      fin = success_call args /\
      files w' =
        <[Destination args :=
            File (if decide (Source args = Destination args) then [] else sdata)
                 (mode_after_create w (Destination args) smode)]> (files w) /\
      (UpdateProgress args = true ->
       last (progress_updates pre)
       = Some (source_size w args, source_size w args))) \/
   failed args w w' pre fin).

(** NAN_METHOD(Copy), for a request that [Args] accepts. *)
Lemma Copy_method_spec (info : list jsval) (args : Args) (w : world) (fuel : nat) :
  Args_new info = Ok args -> (enough_fuel w args <= fuel)%nat ->
  exists w' pre fin,
    Copy_method fuel info w = Some w' /\ Copy_outcome args w w' pre fin.
Proof.
  intros HA Hfuel. unfold Copy_outcome, Copy_method. rewrite HA.
  pose proof (source_size_nonneg w args) as Hnn.
  destruct (open (Source args) rd_flags 0 w) as [in_ w1] eqn:Ho1.
  assert (Hu1 : unlinks w1 = unlinks w)
    by (pose proof (unlinks_open (Source args) rd_flags 0 w) as Hu; by rewrite Ho1 in Hu).
  destruct (open_rd_spec _ _ _ _ _ Ho1)
    as (Hdv1 & Hum1 & Hfi1 & Hfa1 & Htr1 &
        [(-> & Hfd1 & Hc1)|(ni & fl & -> & Hni & Hsrc & Hfd1)]).
  { (* the source could not be opened *)
    simpl.
    destruct (path_error args (source_size w args) w w1 _ Htr1)
      as (pre & fin & Hshape & Hfailed);
      try done; [by repeat constructor|by repeat constructor|by rewrite Hfi1|].
    eexists _, pre, fin. split; [reflexivity|]. split; [done|].
    split; [unscripted|]. by right. }
  destruct (Z.ltb_spec (Z.of_nat ni) 0) as [?|_]; [lia|].
  destruct (fstat (Z.of_nat ni) w1) as [[r st] w2] eqn:Hs.
  assert (Hu2 : unlinks w2 = unlinks w)
    by (pose proof (unlinks_fstat (Z.of_nat ni) w1) as Hu; rewrite Hs in Hu; simpl in Hu;
        congruence).
  destruct (fstat_spec ni (Ofd (Source args) 0 false) fl w1 w2 r st)
    as (Hdv2 & Hum2 & Hfi2 & Hfd2 & Hfa2 & Htr2 & Hst); try done.
  { by rewrite Hfd1, lookup_insert_eq. }
  { by rewrite Hfi1. }
  destruct Hst as [(-> & Hc2)| (-> & ->)].
  { (* fstat failed *)
    simpl.
    destruct (path_error args (source_size w args) w (close (Z.of_nat ni) w2)
                [SysOpen (Source args) rd_flags (Z.of_nat ni);
                 SysFstat (Z.of_nat ni) (-1); SysClose (Z.of_nat ni)])
      as (pre & fin & Hshape & Hfailed); try done.
    - by rewrite trace_close, Htr2, Htr1, <- !app_assoc.
    - by repeat constructor.
    - by repeat constructor.
    - rewrite devs_close. congruence.
    - rewrite umask_close. congruence.
    - rewrite unlinks_close. congruence.
    - rewrite files_close. congruence.
    - eexists _, pre, fin. split; [reflexivity|]. split; [done|].
      split; [unscripted|]. by right. }
  simpl.
  destruct (open (Destination args) wr_flags (f_mode fl) w2) as [out w3] eqn:Ho2.
  assert (Hu3 : unlinks w3 = unlinks w)
    by (pose proof (unlinks_open (Destination args) wr_flags (f_mode fl) w2) as Hu;
        rewrite Ho2 in Hu; simpl in Hu; congruence).
  destruct (open_wr_spec _ _ _ _ _ Ho2)
    as (Hdv3 & Hum3 & Hfa3 & Htr3 &
        [(-> & Hfd3 & Hfi3 & Hc3)|(no & -> & Hno & Hfd3 & Hfi3)]).
  { (* the destination could not be opened *)
    simpl.
    destruct (path_error args (source_size w args) w (close (Z.of_nat ni) w3)
                [SysOpen (Source args) rd_flags (Z.of_nat ni);
                 SysFstat (Z.of_nat ni) 0;
                 SysOpen (Destination args) wr_flags (-1);
                 SysClose (Z.of_nat ni)])
      as (pre & fin & Hshape & Hfailed); try done.
    - by rewrite trace_close, Htr3, Htr2, Htr1, <- !app_assoc.
    - by repeat constructor.
    - by repeat constructor.
    - rewrite devs_close. congruence.
    - rewrite umask_close. congruence.
    - rewrite unlinks_close. congruence.
    - rewrite files_close. congruence.
    - eexists _, pre, fin. split; [reflexivity|]. split; [done|].
      split; [unscripted|]. by right. }
  destruct (Z.ltb_spec (Z.of_nat no) 0) as [?|_]; [lia|].
  (* both descriptors are open: the copy proper *)
  assert (Hneq : ni <> no).
  { intros ->. rewrite Hfd2, Hfd1, lookup_insert_eq in Hno. done. }
  set (dmode := mode_after_create w2 (Destination args) (f_mode fl)) in *.
  set (sdata := if decide (Source args = Destination args) then [] else f_data fl).
  set (smode := if decide (Source args = Destination args) then dmode else f_mode fl).
  assert (Hsrc3 : files w3 !! Source args = Some (File sdata smode)).
  { rewrite Hfi3. unfold sdata, smode. destruct (decide _) as [Heq|Hne].
    - by rewrite Heq, lookup_insert_eq.
    - rewrite lookup_insert_ne by done. rewrite Hfi2, Hfi1, Hsrc. by destruct fl. }
  assert (Hdst3 : files w3 !! Destination args = Some (File [] dmode))
    by (by rewrite Hfi3, lookup_insert_eq).
  assert (Hlen : (length sdata <= length (f_data fl))%nat)
    by (unfold sdata; destruct (decide _); simpl; lia).
  assert (Hsz : source_size w args = Z.of_nat (length (f_data fl)))
    by (unfold source_size; by rewrite Hsrc).
  destruct (Copy_spec args ni no sdata smode dmode w3 (Z.of_nat (length (f_data fl)))
              Hsrc3 Hdst3 Hneq ltac:(lia) fuel false w3)
    as (w' & pre & fin & Hrun & Htr & Hq & Hch & Hdv & Hum & Hres).
  { repeat split; try done.
    - rewrite take_0. symmetry. by apply insert_id.
    - rewrite Hfd3, lookup_insert_ne by done. by rewrite Hfd2, Hfd1, lookup_insert_eq.
    - by rewrite Hfd3, lookup_insert_eq.
    - lia. }
  { unfold enough_fuel in Hfuel. rewrite Hsz in Hfuel. lia. }
  exists w',
    ([SysOpen (Source args) rd_flags (Z.of_nat ni); SysFstat (Z.of_nat ni) 0;
      SysOpen (Destination args) wr_flags (Z.of_nat no)] ++ pre), fin.
  split; [done|]. rewrite Hsz. split.
  { repeat split; try congruence.
    - rewrite Htr, Htr3, Htr2, Htr1, <- !app_assoc. done.
    - apply Forall_app. split; [by repeat constructor|done].
    - by rewrite completed_app. }
  split.
  { intros Hnil _.
    destruct (Copy_unscripted args ni no sdata smode dmode w3
                (Z.of_nat (length (f_data fl))) Hsrc3 Hdst3 Hneq fuel false w3)
      as (w'' & Hrun' & Hlast).
    - repeat split; try done.
      + rewrite take_0. symmetry. by apply insert_id.
      + rewrite Hfd3, lookup_insert_ne by done. by rewrite Hfd2, Hfd1, lookup_insert_eq.
      + by rewrite Hfd3, lookup_insert_eq.
      + lia.
    - unfold enough_fuel in Hfuel. rewrite Hsz in Hfuel. lia.
    - script_empty.
    - rewrite Hrun in Hrun'. injection Hrun' as <-.
      rewrite Htr, last_of_run in Hlast. by injection Hlast. }
  assert (Hm : dmode = mode_after_create w (Destination args) (f_mode fl)).
  { unfold dmode, mode_after_create. by rewrite Hfi2, Hfi1, Hum2, Hum1. }
  destruct Hres as [(-> & Hfiles & Hlast)|(text & pre' & -> & -> & Hfiles & Hgone & Hnu)];
    [left|right].
  - exists (f_data fl), (f_mode fl). split; [by destruct fl|]. split; [done|].
    split; [|done].
    simpl in Hfiles. rewrite Hfiles, Hfi3, insert_insert_eq, Hfi2, Hfi1, <- Hm. done.
  - exists text, ([SysOpen (Source args) rd_flags (Z.of_nat ni);
                   SysFstat (Z.of_nat ni) 0;
                   SysOpen (Destination args) wr_flags (Z.of_nat no)] ++ pre').
    split; [done|]. split; [by rewrite <- app_assoc|].
    split; [rewrite Hfiles, Hfi3, delete_insert_eq; congruence|].
    split; [by rewrite <- (remove_refused_unlinks w w3 Hu3)|].
    apply Forall_app. split; [by repeat constructor|done].
Qed.

Lemma scripted_failure_at (w1 : world) (l : list fault) (i : nat) :
  scripted_failure w1 -> head (faults w1) = l !! i ->
  exists e, l !! i = Some (Errno e).
Proof. intros [e He] Hh. exists e. congruence. Qed.

(** What a run of NAN_METHOD(Move) from [w] to [w'] amounts to.  Three
    outcomes: streamed across devices, renamed on one device, or failed.
    The [remove] calls take effect unless the environment refuses them;
    on one device a [rename] that succeeds replaces the destination either
    way, and between a path and itself it succeeds only on a file that a
    refused [remove] left in place. *)
Definition Move_outcome (args : Args) (w w' : world)
    (pre : list event) (fin : event) : Prop :=
    run_shape args (source_size w args) w w' pre fin /\
    (faults w = [] -> is_Some (files w !! Source args) -> fin = success_call args) /\
    ((exists sdata smode,
        files w !! Source args = Some (File sdata smode) /\
        devs w (Source args) <> devs w (Destination args) /\
        fin = success_call args /\
        files w' =
          (if remove_refused w then id else delete (Source args))
            (<[Destination args :=
                 File sdata (mode_after_create w (Destination args) smode)]>
               (files w)) /\
        (UpdateProgress args = true ->
         last (progress_updates pre)
         = Some (source_size w args, source_size w args))) \/
     (exists sdata smode (ni no : nat) (r : Z),
        files w !! Source args = Some (File sdata smode) /\
        devs w (Source args) = devs w (Destination args) /\
        fin = success_call args /\
        pre =
          [SysOpen (Source args) rd_flags (Z.of_nat ni);
           SysFstat (Z.of_nat ni) 0;
           SysOpen (Destination args) wr_flags (Z.of_nat no);
           SysFstat (Z.of_nat no) 0;
           SysClose (Z.of_nat ni); SysClose (Z.of_nat no);
           SysRemove (Destination args);
           SysRename (Source args) (Destination args) r]
            ++ progress_call args (source_size w args) (source_size w args) /\
        fds w' = fds w /\
        ((r = 0 /\
          (Source args = Destination args -> remove_refused w = true) /\
          files w' =
            <[Destination args :=
                File (if decide (Source args = Destination args) then [] else sdata)
                     smode]>
              (delete (Source args) (files w))) \/
         (r = -1 /\
          files w' =
            if remove_refused w
            then <[Destination args :=
                     File [] (mode_after_create w (Destination args) smode)]> (files w)
            else delete (Destination args) (files w)))) \/
     (failed args w w' pre fin /\
      (files w !! Source args = None \/ early_fault w 4 \/
       devs w (Source args) <> devs w (Destination args)))).

(** NAN_METHOD(Move), for a request that [Args] accepts. *)
Lemma Move_spec (info : list jsval) (args : Args) (w : world) (fuel : nat) :
  Args_new info = Ok args -> (enough_fuel w args <= fuel)%nat ->
  exists w' pre fin,
    Move fuel info w = Some w' /\ Move_outcome args w w' pre fin.
Proof.
  intros HA Hfuel. unfold Move_outcome, Move. rewrite HA.
  pose proof (source_size_nonneg w args) as Hnn.
  destruct (open (Source args) rd_flags 0 w) as [in_ w1] eqn:Ho1.
  assert (Hu1 : unlinks w1 = unlinks w)
    by (pose proof (unlinks_open (Source args) rd_flags 0 w) as Hu; by rewrite Ho1 in Hu).
  destruct (open_rd_spec _ _ _ _ _ Ho1)
    as (Hdv1 & Hum1 & Hfi1 & Hfa1 & Htr1 &
        [(-> & Hfd1 & Hc1)|(ni & fl & -> & Hni & Hsrc & Hfd1)]).
  { (* the source could not be opened *)
    simpl. rewrite moveError_copyByPathError.
    destruct (path_error args (source_size w args) w w1 _ Htr1)
      as (pre & fin & Hshape & Hfailed);
      try done; [by repeat constructor|by repeat constructor|by rewrite Hfi1|].
    eexists _, pre, fin. split; [reflexivity|]. split; [done|].
    split; [unscripted|].
    right; right. split; [done|].
    destruct Hc1 as [Hc1|Hc1]; [right; left|by left].
    destruct (scripted_failure_at w (faults w) 0 Hc1 (head_lookup _)) as [e He].
    exists 0%nat, e. split; [lia|done]. }
  destruct (Z.ltb_spec (Z.of_nat ni) 0) as [?|_]; [lia|].
  destruct (fstat (Z.of_nat ni) w1) as [[r st] w2] eqn:Hs.
  assert (Hu2 : unlinks w2 = unlinks w)
    by (pose proof (unlinks_fstat (Z.of_nat ni) w1) as Hu; rewrite Hs in Hu; simpl in Hu;
        congruence).
  destruct (fstat_spec ni (Ofd (Source args) 0 false) fl w1 w2 r st)
    as (Hdv2 & Hum2 & Hfi2 & Hfd2 & Hfa2 & Htr2 & Hst); try done.
  { by rewrite Hfd1, lookup_insert_eq. }
  { by rewrite Hfi1. }
  destruct Hst as [(-> & Hc2)| (-> & ->)].
  { (* fstat on the source failed *)
    simpl. rewrite moveError_copyByPathError.
    destruct (path_error args (source_size w args) w (close (Z.of_nat ni) w2)
                [SysOpen (Source args) rd_flags (Z.of_nat ni);
                 SysFstat (Z.of_nat ni) (-1); SysClose (Z.of_nat ni)])
      as (pre & fin & Hshape & Hfailed); try done.
    - by rewrite trace_close, Htr2, Htr1, <- !app_assoc.
    - by repeat constructor.
    - by repeat constructor.
    - rewrite devs_close. congruence.
    - rewrite umask_close. congruence.
    - rewrite unlinks_close. congruence.
    - rewrite files_close. congruence.
    - eexists _, pre, fin. split; [reflexivity|]. split; [done|].
      split; [unscripted|].
      right; right. split; [done|]. right; left.
      destruct (scripted_failure_at w1 (faults w) 1 Hc2) as [e He].
      { by rewrite head_lookup, Hfa1, lookup_tail. }
      exists 1%nat, e. split; [lia|done]. }
  simpl.
  destruct (open (Destination args) wr_flags (f_mode fl) w2) as [out w3] eqn:Ho2.
  assert (Hu3 : unlinks w3 = unlinks w)
    by (pose proof (unlinks_open (Destination args) wr_flags (f_mode fl) w2) as Hu;
        rewrite Ho2 in Hu; simpl in Hu; congruence).
  destruct (open_wr_spec _ _ _ _ _ Ho2)
    as (Hdv3 & Hum3 & Hfa3 & Htr3 &
        [(-> & Hfd3 & Hfi3 & Hc3)|(no & -> & Hno & Hfd3 & Hfi3)]).
  { (* the destination could not be opened *)
    simpl. rewrite moveError_copyByPathError.
    destruct (path_error args (source_size w args) w (close (Z.of_nat ni) w3)
                [SysOpen (Source args) rd_flags (Z.of_nat ni);
                 SysFstat (Z.of_nat ni) 0;
                 SysOpen (Destination args) wr_flags (-1);
                 SysClose (Z.of_nat ni)])
      as (pre & fin & Hshape & Hfailed); try done.
    - by rewrite trace_close, Htr3, Htr2, Htr1, <- !app_assoc.
    - by repeat constructor.
    - by repeat constructor.
    - rewrite devs_close. congruence.
    - rewrite umask_close. congruence.
    - rewrite unlinks_close. congruence.
    - rewrite files_close. congruence.
    - eexists _, pre, fin. split; [reflexivity|]. split; [done|].
      split; [unscripted|].
      right; right. split; [done|]. right; left.
      destruct (scripted_failure_at w2 (faults w) 2 Hc3) as [e He].
      { by rewrite head_lookup, Hfa2, Hfa1, !lookup_tail. }
      exists 2%nat, e. split; [lia|done]. }
  destruct (Z.ltb_spec (Z.of_nat no) 0) as [?|_]; [lia|].
  assert (Hneq : ni <> no).
  { intros ->. rewrite Hfd2, Hfd1, lookup_insert_eq in Hno. done. }
  set (dmode := mode_after_create w2 (Destination args) (f_mode fl)) in *.
  assert (Hdst3 : files w3 !! Destination args = Some (File [] dmode))
    by (by rewrite Hfi3, lookup_insert_eq).
  destruct (fstat (Z.of_nat no) w3) as [[r' st'] w4] eqn:Hs'.
  assert (Hu4 : unlinks w4 = unlinks w)
    by (pose proof (unlinks_fstat (Z.of_nat no) w3) as Hu; rewrite Hs' in Hu; simpl in Hu;
        congruence).
  destruct (fstat_spec no (Ofd (Destination args) 0 true) (File [] dmode) w3 w4 r' st')
    as (Hdv4 & Hum4 & Hfi4 & Hfd4 & Hfa4 & Htr4 & Hst'); try done.
  { by rewrite Hfd3, lookup_insert_eq. }
  destruct Hst' as [(-> & Hc4)| (-> & ->)].
  { (* fstat on the destination failed *)
    simpl. rewrite moveError_copyByPathError.
    destruct (path_error args (source_size w args) w
                (close (Z.of_nat no) (close (Z.of_nat ni) w4))
                [SysOpen (Source args) rd_flags (Z.of_nat ni);
                 SysFstat (Z.of_nat ni) 0;
                 SysOpen (Destination args) wr_flags (Z.of_nat no);
                 SysFstat (Z.of_nat no) (-1);
                 SysClose (Z.of_nat ni); SysClose (Z.of_nat no)])
      as (pre & fin & Hshape & Hfailed); try done.
    - by rewrite !trace_close, Htr4, Htr3, Htr2, Htr1, <- !app_assoc.
    - by repeat constructor.
    - by repeat constructor.
    - rewrite !devs_close. congruence.
    - rewrite !umask_close. congruence.
    - rewrite !unlinks_close. congruence.
    - rewrite !files_close, Hfi4, Hfi3, delete_insert_eq. congruence.
    - eexists _, pre, fin. split; [reflexivity|]. split; [done|].
      split; [unscripted|].
      right; right. split; [done|]. right; left.
      destruct (scripted_failure_at w3 (faults w) 3 Hc4) as [e He].
      { by rewrite head_lookup, Hfa3, Hfa2, Hfa1, !lookup_tail. }
      exists 3%nat, e. split; [lia|done]. }
  simpl.
  assert (Hsz : source_size w args = Z.of_nat (length (f_data fl)))
    by (unfold source_size; by rewrite Hsrc).
  assert (Hm : dmode = mode_after_create w (Destination args) (f_mode fl)).
  { unfold dmode, mode_after_create. by rewrite Hfi2, Hfi1, Hum2, Hum1. }
  rewrite Hdv3, Hdv2, Hdv1.
  destruct (Z.eqb_spec (devs w (Source args)) (devs w (Destination args))) as [Hdev|Hdev].
  - (* one device: rename *)
    set (w7 := remove (Destination args) (close (Z.of_nat no) (close (Z.of_nat ni) w4))).
    destruct (rename (Source args) (Destination args) w7) as [rr w8] eqn:Hren.
    destruct (rename_spec _ _ _ _ _ Hren) as (Hdv8 & Hum8 & Hfd8 & Htr8 & Hres).
    assert (Hfi7 : files w7 =
                   if remove_refused w
                   then <[Destination args := File [] dmode]> (files w)
                   else delete (Destination args) (files w)).
    { unfold w7. rewrite files_remove.
      rewrite (remove_refused_unlinks w) by (rewrite !unlinks_close; exact Hu4).
      rewrite !files_close, Hfi4, Hfi3, delete_insert_eq, Hfi2, Hfi1.
      done. }
    assert (Hfd7 : fds w7 = fds w).
    { unfold w7. rewrite fds_remove, !fds_close, Hfd4, Hfd3.
      rewrite delete_insert_ne by done. rewrite delete_insert_eq, Hfd2, Hfd1.
      rewrite delete_insert_id by done. apply delete_id.
      rewrite Hfd2, Hfd1, lookup_insert_ne in Hno; done. }
    assert (Htr7 : trace w7 = trace w ++
      [SysOpen (Source args) rd_flags (Z.of_nat ni); SysFstat (Z.of_nat ni) 0;
       SysOpen (Destination args) wr_flags (Z.of_nat no); SysFstat (Z.of_nat no) 0;
       SysClose (Z.of_nat ni); SysClose (Z.of_nat no); SysRemove (Destination args)]).
    { unfold w7. rewrite trace_remove, !trace_close, Htr4, Htr3, Htr2, Htr1.
      by rewrite <- !app_assoc. }
    eexists _,
      ([SysOpen (Source args) rd_flags (Z.of_nat ni); SysFstat (Z.of_nat ni) 0;
        SysOpen (Destination args) wr_flags (Z.of_nat no); SysFstat (Z.of_nat no) 0;
        SysClose (Z.of_nat ni); SysClose (Z.of_nat no);
        SysRemove (Destination args);
        SysRename (Source args) (Destination args) rr]
         ++ progress_call args (source_size w args) (source_size w args)),
      (success_call args).
    split; [reflexivity|].
    rewrite <- Hsz. split.
    { unfold run_shape, SendComplete. simpl.
      rewrite trace_SendProgressUpdate, devs_SendProgressUpdate, umask_SendProgressUpdate.
      rewrite Htr8, Htr7, Hdv8, Hum8. unfold w7.
      rewrite devs_remove, umask_remove, !devs_close, !umask_close.
      split; [rewrite <- !app_assoc; simpl; reflexivity|].
      split.
      { repeat (constructor; [done|]). apply progress_call_quiet. }
      split; [|split; congruence].
      change (chain 0
                (completed (progress_call args (source_size w args) (source_size w args)))
                (source_size w args)).
      by apply chain_progress_call. }
    split; [done|].
    right; left. exists (f_data fl), (f_mode fl), ni, no, rr.
    split; [by destruct fl|]. split; [done|]. split; [done|]. split; [done|].
    unfold SendComplete. simpl.
    rewrite fds_SendProgressUpdate, files_SendProgressUpdate, Hfd8.
    split; [done|].
    destruct Hres as [(-> & Hfi8)|(fl' & -> & Hsrc7 & _ & Hfi8)]; [right|left].
    + split; [done|]. rewrite Hfi8, Hfi7, Hm. done.
    + split; [done|]. rewrite Hfi8, Hfi7. rewrite Hfi7 in Hsrc7.
      destruct (decide (Source args = Destination args)) as [Heq|Hpaths].
      * destruct (remove_refused w);
          [|by rewrite Heq, lookup_delete_eq in Hsrc7].
        split; [done|].
        rewrite Heq, lookup_insert_eq in Hsrc7. injection Hsrc7 as <-.
        rewrite Heq, delete_insert_eq. f_equal. f_equal.
        rewrite Hm. unfold mode_after_create. rewrite <- Heq, Hsrc. done.
      * split; [done|].
        destruct (remove_refused w).
        -- rewrite lookup_insert_ne in Hsrc7 by done.
           assert (fl' = fl) as -> by congruence.
           rewrite delete_insert_ne, insert_insert_eq by done. by destruct fl.
        -- rewrite lookup_delete_ne in Hsrc7 by done.
           assert (fl' = fl) as -> by congruence.
           rewrite delete_delete, insert_delete_eq. by destruct fl.
  - (* different devices: copy, then remove the source *)
    assert (Hpaths : Source args <> Destination args) by congruence.
    assert (Hsrc4 : files w4 !! Source args = Some (File (f_data fl) (f_mode fl))).
    { rewrite Hfi4, Hfi3, lookup_insert_ne by done. rewrite Hfi2, Hfi1, Hsrc.
      by destruct fl. }
    assert (Hdst4 : files w4 !! Destination args = Some (File [] dmode)) by congruence.
    destruct (Copy_spec args ni no (f_data fl) (f_mode fl) dmode w4
                (Z.of_nat (length (f_data fl)))
                Hsrc4 Hdst4 Hneq ltac:(lia) fuel true w4)
      as (w' & pre & fin & Hrun & Htr & Hq & Hch & Hdv & Hum & Hres).
    { repeat split; try done.
      - rewrite take_0. symmetry. by apply insert_id.
      - rewrite Hfd4, Hfd3, lookup_insert_ne by done.
        by rewrite Hfd2, Hfd1, lookup_insert_eq.
      - by rewrite Hfd4, Hfd3, lookup_insert_eq.
      - lia. }
    { unfold enough_fuel in Hfuel. rewrite Hsz in Hfuel. lia. }
    exists w',
      ([SysOpen (Source args) rd_flags (Z.of_nat ni); SysFstat (Z.of_nat ni) 0;
        SysOpen (Destination args) wr_flags (Z.of_nat no);
        SysFstat (Z.of_nat no) 0] ++ pre), fin.
    split; [done|]. rewrite Hsz. split.
    { repeat split; try congruence.
      - rewrite Htr, Htr4, Htr3, Htr2, Htr1, <- !app_assoc. done.
      - apply Forall_app. split; [by repeat constructor|done].
      - by rewrite completed_app. }
    split.
    { intros Hnil _.
      destruct (Copy_unscripted args ni no (f_data fl) (f_mode fl) dmode w4
                  (Z.of_nat (length (f_data fl))) Hsrc4 Hdst4 Hneq fuel true w4)
        as (w'' & Hrun' & Hlast).
      - repeat split; try done.
        + rewrite take_0. symmetry. by apply insert_id.
        + rewrite Hfd4, Hfd3, lookup_insert_ne by done.
          by rewrite Hfd2, Hfd1, lookup_insert_eq.
        + by rewrite Hfd4, Hfd3, lookup_insert_eq.
        + lia.
      - unfold enough_fuel in Hfuel. rewrite Hsz in Hfuel. lia.
      - script_empty.
      - rewrite Hrun in Hrun'. injection Hrun' as <-.
        rewrite Htr, last_of_run in Hlast. by injection Hlast. }
    destruct Hres as [(-> & Hfiles & Hlast)
                     |(text & pre' & -> & -> & Hfiles & Hgone & Hnu)].
    + left. exists (f_data fl), (f_mode fl). split; [by destruct fl|].
      split; [done|]. split; [done|]. split; [|done].
      rewrite Hfiles, (remove_refused_unlinks w w4 Hu4), Hfi4, Hfi3, insert_insert_eq,
        Hfi2, Hfi1, <- Hm.
      by destruct (remove_refused w).
    + right; right. split; [|by right; right].
      exists text, ([SysOpen (Source args) rd_flags (Z.of_nat ni);
                     SysFstat (Z.of_nat ni) 0;
                     SysOpen (Destination args) wr_flags (Z.of_nat no);
                     SysFstat (Z.of_nat no) 0] ++ pre').
      split; [done|]. split; [by rewrite <- app_assoc|].
      split; [rewrite Hfiles, Hfi4, Hfi3, delete_insert_eq; congruence|].
      split; [by rewrite <- (remove_refused_unlinks w w4 Hu4)|].
      apply Forall_app. split; [by repeat constructor|done].
Qed.

(** *** Any amount of fuel *)

Lemma Copy_method_mono (n m : nat) (info : list jsval) (w w' : world) :
  Copy_method n info w = Some w' -> (n <= m)%nat -> Copy_method m info w = Some w'.
Proof.
  unfold Copy_method. intros H Hle.
  destruct (Args_new info) as [args|msg]; [|done].
  destruct (open (Source args) rd_flags 0 w) as [in_ w1].
  destruct (in_ <? 0); [done|].
  destruct (fstat in_ w1) as [[r st] w2].
  destruct (negb (r =? 0)); [done|].
  destruct (open (Destination args) wr_flags (st_mode st) w2) as [out w3].
  destruct (out <? 0); [done|].
  by eapply Copy_mono.
Qed.

Lemma Move_mono (n m : nat) (info : list jsval) (w w' : world) :
  Move n info w = Some w' -> (n <= m)%nat -> Move m info w = Some w'.
Proof.
  unfold Move. intros H Hle.
  destruct (Args_new info) as [args|msg]; [|done].
  destruct (open (Source args) rd_flags 0 w) as [in_ w1].
  destruct (in_ <? 0); [done|].
  destruct (fstat in_ w1) as [[r st] w2].
  destruct (negb (r =? 0)); [done|].
  destruct (open (Destination args) wr_flags (st_mode st) w2) as [out w3].
  destruct (out <? 0); [done|].
  destruct (fstat out w3) as [[r' st'] w4].
  destruct (negb (r' =? 0)); [done|].
  destruct (st_dev st =? st_dev st'); [done|].
  by eapply Copy_mono.
Qed.

(** Every finished run of NAN_METHOD(Copy) is as [Copy_outcome] says. *)
Lemma Copy_method_any (fuel : nat) (info : list jsval) (args : Args) (w w' : world) :
  Args_new info = Ok args -> Copy_method fuel info w = Some w' ->
  exists pre fin, Copy_outcome args w w' pre fin.
Proof.
  intros HA Hrun.
  destruct (Copy_method_spec info args w (Nat.max fuel (enough_fuel w args)) HA)
    as (w'' & pre & fin & Hrun' & Hout); [lia|].
  apply (Copy_method_mono _ (Nat.max fuel (enough_fuel w args))) in Hrun; [|lia].
  rewrite Hrun in Hrun'. injection Hrun' as <-. by exists pre, fin.
Qed.

Lemma Move_any (fuel : nat) (info : list jsval) (args : Args) (w w' : world) :
  Args_new info = Ok args -> Move fuel info w = Some w' ->
  exists pre fin, Move_outcome args w w' pre fin.
Proof.
  intros HA Hrun.
  destruct (Move_spec info args w (Nat.max fuel (enough_fuel w args)) HA)
    as (w'' & pre & fin & Hrun' & Hout); [lia|].
  apply (Move_mono _ (Nat.max fuel (enough_fuel w args))) in Hrun; [|lia].
  rewrite Hrun in Hrun'. injection Hrun' as <-. by exists pre, fin.
Qed.

(** *** What both methods have in common *)

Definition common_outcome (args : Args) (w w' : world)
    (pre : list event) (fin : event) : Prop :=
  run_shape args (source_size w args) w w' pre fin /\
  ((fin = success_call args /\
    (UpdateProgress args = true ->
     last (progress_updates pre)
     = Some (source_size w args, source_size w args))) \/
   failed args w w' pre fin).

Lemma Copy_outcome_common args w w' pre fin :
  Copy_outcome args w w' pre fin -> common_outcome args w w' pre fin.
Proof.
  intros (Hshape & _ & [(sdata & smode & _ & Hfin & _ & Hlast)|Hfail]).
  - split; [done|]. by left.
  - split; [done|]. by right.
Qed.

Lemma Move_outcome_common args w w' pre fin :
  Move_outcome args w w' pre fin -> common_outcome args w w' pre fin.
Proof.
  intros (Hshape & _ & [(sdata & smode & _ & _ & Hfin & _ & Hlast)
                       |[(sdata & smode & ni & no & r & _ & _ & Hfin & Hpre & _)
                        |[Hfail _]]]).
  - split; [done|]. by left.
  - split; [done|]. left. split; [done|]. intros Hup. rewrite Hpre.
    unfold progress_call. rewrite Hup. reflexivity.
  - split; [done|]. by right.
Qed.

Lemma InitAll_cases (name : string) method :
  InitAll name = Some method -> method = Copy_method \/ method = Move.
Proof.
  unfold InitAll. repeat case_decide; intros [= <-]; auto.
Qed.

Lemma InitAll_any name method (fuel : nat) (info : list jsval) (args : Args)
    (w w' : world) :
  InitAll name = Some method ->
  Args_new info = Ok args -> method fuel info w = Some w' ->
  exists pre fin, common_outcome args w w' pre fin.
Proof.
  intros Hm HA Hrun. destruct (InitAll_cases _ _ Hm) as [-> | ->].
  - destruct (Copy_method_any _ _ _ _ _ HA Hrun) as (pre & fin & H).
    exists pre, fin. by apply Copy_outcome_common.
  - destruct (Move_any _ _ _ _ _ HA Hrun) as (pre & fin & H).
    exists pre, fin. by apply Move_outcome_common.
Qed.

Lemma InitAll_total name method (info : list jsval) (args : Args) (w : world) :
  InitAll name = Some method -> Args_new info = Ok args ->
  exists w', method (enough_fuel w args) info w = Some w'.
Proof.
  intros Hm HA. destruct (InitAll_cases _ _ Hm) as [-> | ->].
  - destruct (Copy_method_spec info args w (enough_fuel w args) HA)
      as (w' & _ & _ & Hrun & _); [lia|]. by exists w'.
  - destruct (Move_spec info args w (enough_fuel w args) HA)
      as (w' & _ & _ & Hrun & _); [lia|]. by exists w'.
Qed.

(** *** Reading the events of a run *)

Lemma emitted_app (w w' : world) (evs : list event) :
  trace w' = trace w ++ evs -> emitted w w' = evs.
Proof. unfold emitted. intros ->. apply drop_app_length. Qed.

Lemma emitted_shape args total w w' pre fin :
  run_shape args total w w' pre fin -> emitted w w' = pre ++ [fin].
Proof. intros (Htr & _). by apply emitted_app. Qed.

Lemma quiet_not_completion args total e :
  quiet_event args total e -> is_success e = false /\ is_failure e = false.
Proof.
  destruct e as [| | | | | | | |f argv|]; try done.
  intros (_ & _ & c & ->). done.
Qed.

Lemma quiet_progress args total e :
  quiet_event args total e -> is_progress e = true ->
  UpdateProgress args = true /\ callee_of e = ProgressCallback args /\
  exists c, progress_of e = Some (c, total).
Proof.
  destruct e as [| | | | | | | |f argv|]; try done.
  intros (Hup & -> & c & ->) _. simpl. eauto.
Qed.

Lemma quiet_no_success args total pre :
  Forall (quiet_event args total) pre -> existsb is_success pre = false.
Proof.
  induction 1 as [|e l He _ IH]; [done|]. simpl.
  apply quiet_not_completion in He as [-> _]. done.
Qed.

Lemma quiet_no_failure args total pre :
  Forall (quiet_event args total) pre -> existsb is_failure pre = false.
Proof.
  induction 1 as [|e l He _ IH]; [done|]. simpl.
  apply quiet_not_completion in He as [_ ->]. done.
Qed.

Lemma quiet_no_completion args total pre :
  Forall (quiet_event args total) pre -> List.filter is_completion pre = [].
Proof.
  induction 1 as [|e l He _ IH]; [done|]. simpl. unfold is_completion at 1.
  apply quiet_not_completion in He as [-> ->]. done.
Qed.

Lemma quiet_totals args total pre :
  Forall (quiet_event args total) pre ->
  Forall (fun u => u.2 = total) (progress_updates pre).
Proof.
  induction 1 as [|e l He _ IH]; [constructor|].
  unfold progress_updates. simpl.
  destruct (progress_of e) as [[c t]|] eqn:Hp; [|done].
  constructor; [|done]. simpl.
  assert (is_progress e = true) as Hip.
  { destruct e as [| | | | | | | |f [|[] [|[] [|]]]|]; done. }
  destruct (quiet_progress _ _ _ He Hip) as (_ & _ & c' & Hc'). congruence.
Qed.

Lemma signals_success_shape args total w w' pre fin :
  run_shape args total w w' pre fin ->
  signals_success (emitted w w') = is_success fin.
Proof.
  intros H. rewrite (emitted_shape _ _ _ _ _ _ H). destruct H as (_ & Hq & _).
  unfold signals_success. rewrite existsb_app, (quiet_no_success _ _ _ Hq). simpl.
  by rewrite orb_false_r.
Qed.

Lemma signals_failure_shape args total w w' pre fin :
  run_shape args total w w' pre fin ->
  signals_failure (emitted w w') = is_failure fin.
Proof.
  intros H. rewrite (emitted_shape _ _ _ _ _ _ H). destruct H as (_ & Hq & _).
  unfold signals_failure. rewrite existsb_app, (quiet_no_failure _ _ _ Hq). simpl.
  by rewrite orb_false_r.
Qed.

End MethodFacts.

(** * The request object *)

Module ArgsFacts.
Import Posix NativeFS.

(** Which argument ends up in which slot of an accepted request. *)
Lemma Args_new_slots (info : list jsval) (args : Args) :
  Args_new info = Ok args ->
  UpdateProgress args = (3 <? length info)%nat /\
  ProgressCallback args = arg info 2 /\
  ResultCallback args = (if (3 <? length info)%nat then arg info 3 else arg info 2) /\
  JString (Source args) = arg info 0 /\
  JString (Destination args) = arg info 1.
Proof.
  unfold Args_new.
  destruct (length info <? 3)%nat; [done|].
  destruct (negb (IsString (arg info 0))); [done|].
  destruct (negb (IsString (arg info 1))); [done|].
  destruct (negb (IsFunction (arg info 2))); [done|].
  destruct ((3 <? length info)%nat && negb (IsFunction (arg info 3))); [done|].
  unfold get.
  destruct (arg info 0) as [| | | |s0|]; try done.
  destruct (String.length s0 <=? 0)%nat; [done|].
  destruct (arg info 1) as [| | | |s1|]; try done.
  destruct (String.length s1 <=? 0)%nat; [done|].
  intros [= <-]. done.
Qed.

End ArgsFacts.

(** * What a run leaves behind *)

Module OutcomeFacts.
Import Posix NativeFS PosixFacts CopyFacts MethodFacts.

(** The name space after a run of NAN_METHOD(Copy): the source bytes were
    installed at the destination and success was reported, or failure was
    reported after the cleanup. *)
Definition copied (args : Args) (w w' : world) : Prop :=
  signals_success (emitted w w') = true /\
  signals_failure (emitted w w') = false /\
  exists sdata smode,
    files w !! Source args = Some (File sdata smode) /\
    files w' =
      <[Destination args :=
          File (if decide (Source args = Destination args) then [] else sdata)
               (mode_after_create w (Destination args) smode)]> (files w).

(** After the cleanup the name space is as before the call except at the
    destination, where no file is unless the [remove] was refused. *)
Definition cleaned_up (args : Args) (w w' : world) : Prop :=
  signals_success (emitted w w') = false /\
  signals_failure (emitted w w') = true /\
  delete (Destination args) (files w') = delete (Destination args) (files w) /\
  (remove_refused w = false -> files w' !! Destination args = None).

Lemma Copy_files (fuel : nat) (info : list jsval) (args : Args) (w w' : world) :
  Args_new info = Ok args -> Copy_method fuel info w = Some w' ->
  (faults w = [] -> is_Some (files w !! Source args) ->
   signals_success (emitted w w') = true) /\
  (copied args w w' \/ cleaned_up args w w').
Proof.
  intros HA Hrun.
  destruct (Copy_method_any _ _ _ _ _ HA Hrun) as (pre & fin & Hshape & Hun & Hres).
  unfold copied, cleaned_up.
  rewrite (signals_success_shape _ _ _ _ _ _ Hshape),
    (signals_failure_shape _ _ _ _ _ _ Hshape).
  split; [intros Hnil Hsome; by rewrite (Hun Hnil Hsome)|].
  destruct Hres as [(sdata & smode & Hsrc & -> & Hfiles & _)
                   |(text & pre' & -> & _ & Hfiles & Hgone & _)]; [left|right].
  - split; [done|]. split; [done|]. by exists sdata, smode.
  - done.
Qed.

(** The name space after a run of NAN_METHOD(Move) that reported success:
    the file went across devices, or [rename] was called on one device
    and either succeeded or failed. *)
Definition moved_across (args : Args) (w w' : world) : Prop :=
  devs w (Source args) <> devs w (Destination args) /\
  exists sdata smode,
    files w !! Source args = Some (File sdata smode) /\
    files w' =
      (if remove_refused w then id else delete (Source args))
        (<[Destination args :=
             File sdata (mode_after_create w (Destination args) smode)]> (files w)).

Definition moved_within (args : Args) (w w' : world) : Prop :=
  devs w (Source args) = devs w (Destination args) /\
  exists sdata smode,
    files w !! Source args = Some (File sdata smode) /\
    (((Source args = Destination args -> remove_refused w = true) /\
      files w' =
        <[Destination args :=
            File (if decide (Source args = Destination args) then [] else sdata) smode]>
          (delete (Source args) (files w))) \/
     files w' =
       if remove_refused w
       then <[Destination args :=
                File [] (mode_after_create w (Destination args) smode)]> (files w)
       else delete (Destination args) (files w)).

Lemma Move_files (fuel : nat) (info : list jsval) (args : Args) (w w' : world) :
  Args_new info = Ok args -> Move fuel info w = Some w' ->
  (faults w = [] -> is_Some (files w !! Source args) ->
   signals_success (emitted w w') = true) /\
  ((signals_success (emitted w w') = true /\
    signals_failure (emitted w w') = false /\
    (moved_across args w w' \/ moved_within args w w')) \/
   cleaned_up args w w').
Proof.
  intros HA Hrun.
  destruct (Move_any _ _ _ _ _ HA Hrun) as (pre & fin & Hshape & Hun & Hres).
  unfold moved_across, moved_within, cleaned_up.
  rewrite (signals_success_shape _ _ _ _ _ _ Hshape),
    (signals_failure_shape _ _ _ _ _ _ Hshape).
  split; [intros Hnil Hsome; by rewrite (Hun Hnil Hsome)|].
  destruct Hres as [(sdata & smode & Hsrc & Hdev & -> & Hfiles & _)
                   |[(sdata & smode & ni & no & r & Hsrc & Hdev & -> & _ & _ & Hr)
                    |[(text & pre' & -> & _ & Hfiles & Hgone & _) _]]].
  - left. split; [done|]. split; [done|]. left. split; [done|]. by exists sdata, smode.
  - left. split; [done|]. split; [done|]. right. split; [done|].
    exists sdata, smode. split; [done|].
    destruct Hr as [(_ & Hself & Hfiles)|(_ & Hfiles)]; [by left|by right].
  - by right.
Qed.

End OutcomeFacts.

(** * The calls of a run, in order *)

Module CallFacts.
Import Posix NativeFS PosixFacts DoWriteFacts CopyFacts MethodFacts.

(** [gapped g base l]: every element of [l] exceeds the one before it
    ([base] for the first) by more than [g]. *)
Fixpoint gapped (g base : Z) (l : list Z) : Prop :=
  match l with
  | [] => True
  | c :: l' => base + g < c /\ gapped g c l'
  end.

Lemma gapped_weaken g base base' l : base' <= base -> gapped g base l -> gapped g base' l.
Proof. destruct l; simpl; [done|]. intros ? [? ?]. split; [lia|done]. Qed.

(** Gapped values below [hi]: there are few of them. *)
Lemma gapped_length g base l hi :
  0 <= g -> gapped g base l -> Forall (fun c => c <= hi) l -> base <= hi ->
  base + (g + 1) * Z.of_nat (length l) <= hi.
Proof.
  intros Hg. revert base. induction l as [|c l IH]; simpl; intros base Hgap Hall Hb; [lia|].
  destruct Hgap as [Hc Hgap]. inversion Hall as [|? ? Hchi Hall']; subst.
  specialize (IH c Hgap Hall' Hchi). nia.
Qed.

(** What the loop of [Copy] logs: reads on one descriptor, writes on the
    other, progress calls. *)
Definition loop_event (fd_in fd_out : Z) (args : Args) (total : Z) (e : event) : Prop :=
  (exists r, e = SysRead fd_in r) \/ (exists r, e = SysWrite fd_out r) \/
  (UpdateProgress args = true /\
   exists c, e = Call (ProgressCallback args) [JNumber c; JNumber total]).

Lemma loop_event_write fd_in fd_out args total evs :
  Forall (fun e => exists r, e = SysWrite fd_out r) evs ->
  Forall (loop_event fd_in fd_out args total) evs.
Proof. intros H. eapply Forall_impl; [exact H|]. intros e He. right. by left. Qed.

Lemma loop_event_progress fd_in fd_out args c total :
  Forall (loop_event fd_in fd_out args total) (progress_call args c total).
Proof.
  unfold progress_call. destruct (UpdateProgress args) eqn:Hup; [|constructor].
  constructor; [|constructor]. right; right. split; [done|]. by exists c.
Qed.

Lemma completed_writes fd evs :
  Forall (fun e => exists r, e = SysWrite fd r) evs -> completed evs = [].
Proof. induction 1 as [|e l [r ->] _ IH]; [done|]. exact IH. Qed.

(** [read] and [write] log one call and touch no descriptor but theirs. *)
Lemma read_frame (fd count : Z) (w w' : world) (r : Z) (buf : list byte) :
  read fd count w = (r, buf, w') ->
  trace w' = trace w ++ [SysRead fd r] /\
  forall n, n <> Z.to_nat fd -> fds w' !! n = fds w !! n.
Proof.
  unfold read. destruct (next_fault w) as [f w1] eqn:Hf.
  apply next_fault_frame in Hf as (_ & Hfd & _ & _ & _ & Htr).
  rewrite <- Hfd, <- Htr.
  destruct f as [|e|k]; repeat case_match; intros [= <- <- <-]; simpl; (split; [done|]);
    intros n Hn; try done; by rewrite lookup_insert_ne.
Qed.

Lemma write_frame (fd : Z) (data : list byte) (w w' : world) (r : Z) :
  write fd data w = (r, w') ->
  trace w' = trace w ++ [SysWrite fd r] /\
  forall n, n <> Z.to_nat fd -> fds w' !! n = fds w !! n.
Proof.
  unfold write. destruct (next_fault w) as [f w1] eqn:Hf.
  apply next_fault_frame in Hf as (_ & Hfd & _ & _ & _ & Htr).
  rewrite <- Hfd, <- Htr.
  destruct f as [|e|k]; repeat case_match; intros [= <- <-]; simpl; (split; [done|]);
    intros n Hn; try done; by rewrite lookup_insert_ne.
Qed.

Lemma doWrite_frame (fuel : nat) (fd : Z) :
  forall (data : list byte) (w w' : world) (r : Z),
    doWrite write fuel fd data w = Some (r, w') ->
    exists evs,
      trace w' = trace w ++ evs /\
      Forall (fun e => exists r, e = SysWrite fd r) evs /\
      forall n, n <> Z.to_nat fd -> fds w' !! n = fds w !! n.
Proof.
  induction fuel as [|fuel IH]; intros data w w' r; [done|].
  rewrite doWrite_S. destruct (write fd data w) as [written w1] eqn:Hw.
  destruct (write_frame _ _ _ _ _ Hw) as [Htr Hfr].
  assert (Hone : Forall (fun e => exists r, e = SysWrite fd r) [SysWrite fd written])
    by (repeat constructor; by eexists).
  destruct (written =? -1); [intros [= <- <-]; by exists [SysWrite fd written]|].
  destruct (written <? Z.of_nat (length data));
    [|intros [= <- <-]; by exists [SysWrite fd written]].
  intros Hrun. destruct (IH _ _ _ _ Hrun) as (evs & Htr' & Hevs & Hfr').
  exists (SysWrite fd written :: evs). split; [|split].
  - rewrite Htr', Htr, <- app_assoc. done.
  - constructor; [by eexists|done].
  - intros n Hn. rewrite Hfr' by done. by apply Hfr.
Qed.

(** The loop of [Copy], whatever the descriptors are: its calls, the gaps
    between the progress counts it reports, and the descriptors it leaves
    alone.  [progress - sinceLastUpdate] is the count last reported. *)
Lemma Copy_loop_frame (fuel : nat) (fd_in fd_out inputSize bpu : Z) (args : Args) :
  forall (progress since : Z) (w w' : world) (ex : loop_exit),
    0 <= since ->
    Copy_loop fuel fd_in fd_out inputSize bpu args progress since w = Some (ex, w') ->
    exists evs,
      trace w' = trace w ++ evs /\
      Forall (loop_event fd_in fd_out args inputSize) evs /\
      gapped bpu (progress - since) (completed evs) /\
      forall n, n <> Z.to_nat fd_in -> n <> Z.to_nat fd_out ->
                fds w' !! n = fds w !! n.
Proof.
  induction fuel as [|fuel IH]; intros progress since w w' ex Hsince; [done|].
  rewrite Copy_loop_S.
  destruct (read fd_in BUFFER_SIZE w) as [[bytes_read buffer] w1] eqn:Hr.
  destruct (read_frame _ _ _ _ _ _ Hr) as [Htr1 Hfr1].
  assert (Hread : loop_event fd_in fd_out args inputSize (SysRead fd_in bytes_read))
    by (left; by eexists).
  destruct (Z.gtb_spec bytes_read 0) as [Hpos|_].
  2:{ intros [= <- <-]. exists [SysRead fd_in bytes_read].
      split; [done|]. split; [constructor; [done|constructor]|]. split; [done|].
      intros n Hn _. by apply Hfr1. }
  destruct (doWrite write (S fuel) fd_out buffer w1) as [[written w2]|] eqn:Hw; [|done].
  destruct (doWrite_frame _ _ _ _ _ _ Hw) as (wevs & Htr2 & Hwevs & Hfr2).
  assert (Hfr : forall n, n <> Z.to_nat fd_in -> n <> Z.to_nat fd_out ->
                          fds w2 !! n = fds w !! n).
  { intros n Hi Ho. rewrite Hfr2 by done. by apply Hfr1. }
  destruct (written =? -1).
  { intros [= <- <-]. exists (SysRead fd_in bytes_read :: wevs).
    split; [by rewrite Htr2, Htr1, <- app_assoc|].
    split; [constructor; [done|by apply loop_event_write]|].
    split; [|done].
    change (gapped bpu (progress - since) (completed wevs)).
    by rewrite (completed_writes _ _ Hwevs). }
  cbv zeta. destruct (Z.gtb_spec (since + bytes_read) bpu) as [Hgt|Hle]; intros Hrun.
  - destruct (IH _ _ _ _ _ (Z.le_refl 0) Hrun) as (evs & Htr3 & Hevs & Hgap & Hfr3).
    exists (SysRead fd_in bytes_read :: wevs
              ++ progress_call args (progress + bytes_read) inputSize ++ evs).
    split; [|split; [|split]].
    + rewrite Htr3, trace_SendProgressUpdate, Htr2, Htr1, <- !app_assoc. done.
    + constructor; [done|]. apply Forall_app. split; [by apply loop_event_write|].
      apply Forall_app. split; [apply loop_event_progress|done].
    + change (gapped bpu (progress - since)
                (completed (wevs ++ progress_call args (progress + bytes_read) inputSize
                              ++ evs))).
      rewrite !completed_app, (completed_writes _ _ Hwevs), completed_progress_call.
      rewrite Z.sub_0_r in Hgap. simpl.
      destruct (UpdateProgress args); simpl.
      * split; [lia|done].
      * eapply gapped_weaken; [|exact Hgap]. lia.
    + intros n Hi Ho. rewrite Hfr3 by done. rewrite fds_SendProgressUpdate. by apply Hfr.
  - assert (Hsince' : 0 <= since + bytes_read) by lia.
    destruct (IH _ _ _ _ _ Hsince' Hrun) as (evs & Htr3 & Hevs & Hgap & Hfr3).
    exists (SysRead fd_in bytes_read :: wevs ++ evs).
    split; [|split; [|split]].
    + rewrite Htr3, Htr2, Htr1, <- !app_assoc. done.
    + constructor; [done|]. apply Forall_app. split; [by apply loop_event_write|done].
    + change (gapped bpu (progress - since) (completed (wevs ++ evs))).
      rewrite completed_app, (completed_writes _ _ Hwevs). simpl.
      by replace (progress + bytes_read - (since + bytes_read)) with (progress - since)
        in Hgap by lia.
    + intros n Hi Ho. rewrite Hfr3 by done. by apply Hfr.
Qed.

Lemma loop_no_success fd_in fd_out args total loop :
  Forall (loop_event fd_in fd_out args total) loop -> existsb is_success loop = false.
Proof.
  induction 1 as [|e l He _ IH]; [done|].
  destruct He as [[r ->]|[[r ->]|(_ & c & ->)]]; exact IH.
Qed.

(** What [Copy] logs after the loop, on its two ways out. *)
Definition fd_success (args : Args) (total : Z) (ni no : nat) (rm : bool) : list event :=
  progress_call args total total ++
  [SysClose (Z.of_nat ni); SysFsync (Z.of_nat no); SysClose (Z.of_nat no)] ++
  (if rm then [SysRemove (Source args)] else []) ++ [success_call args].

Definition fd_failure (args : Args) (ni no : nat) (text : string) : list event :=
  [SysClose (Z.of_nat ni); SysClose (Z.of_nat no); SysRemove (Destination args);
   failure_call args text].

(** The calls of [Copy]: the loop, then one of the two endings. *)
Definition streamed (args : Args) (total : Z) (ni no : nat) (rm : bool)
    (evs : list event) : Prop :=
  exists loop,
    Forall (loop_event (Z.of_nat ni) (Z.of_nat no) args total) loop /\
    gapped (Z.quot total 100) 0 (completed loop) /\
    (evs = loop ++ fd_success args total ni no rm \/
     exists text, evs = loop ++ fd_failure args ni no text).

Lemma trace_SendError args text w :
  trace (SendError args text w) = trace w ++ [failure_call args text].
Proof. done. Qed.

Lemma Copy_frame (fuel : nat) (ni no : nat) (inputSize : Z) (args : Args)
    (rm : bool) (w w' : world) :
  Copy fuel (Z.of_nat ni) (Z.of_nat no) inputSize args rm w = Some w' ->
  (exists evs,
     trace w' = trace w ++ evs /\ streamed args inputSize ni no rm evs /\
     (rm = false -> existsb is_success evs = true -> unlinks w' = unlinks w)) /\
  fds w' !! ni = None /\ fds w' !! no = None /\
  forall n, n <> ni -> n <> no -> fds w' !! n = fds w !! n.
Proof.
  unfold Copy.
  destruct (Copy_loop fuel _ _ _ _ _ _ _ _) as [[ex w1]|] eqn:Hloop; [|done].
  destruct (Copy_loop_frame _ _ _ _ _ _ _ _ _ _ _ (Z.le_refl 0) Hloop)
    as (loop & Htr & Hevs & Hgap & Hfr).
  pose proof (Copy_loop_unlinks _ _ _ _ _ _ _ _ _ _ _ Hloop) as Hun.
  rewrite !Nat2Z.id in Hfr.
  assert (Hfail : Some (copyByFdError (Z.of_nat ni) (Z.of_nat no) args w1) = Some w' ->
    (exists evs,
       trace w' = trace w ++ evs /\ streamed args inputSize ni no rm evs /\
       (rm = false -> existsb is_success evs = true -> unlinks w' = unlinks w)) /\
    fds w' !! ni = None /\ fds w' !! no = None /\
    forall n, n <> ni -> n <> no -> fds w' !! n = fds w !! n).
  { intros [= <-]. unfold copyByFdError, SendError. simpl.
    rewrite fds_remove, trace_remove, !fds_close, !trace_close, Htr.
    split; [|split; [|split]].
    - exists (loop ++ fd_failure args ni no
                        (strerror
                           (errno (remove (Destination args)
                                     (close (Z.of_nat no) (close (Z.of_nat ni) w1)))))).
      split; [by rewrite <- !app_assoc|]. split.
      + exists loop. split; [done|]. split; [done|]. right. by eexists.
      + intros _ Hs. by rewrite existsb_app, (loop_no_success _ _ _ _ _ Hevs) in Hs.
    - destruct (decide (ni = no)) as [->|?]; [apply lookup_delete_eq|].
      rewrite lookup_delete_ne by done. apply lookup_delete_eq.
    - apply lookup_delete_eq.
    - intros n Hi Ho. rewrite !lookup_delete_ne by done. by apply Hfr. }
  destruct ex as [bytes_read|]; [|exact Hfail].
  destruct (bytes_read =? -1); [exact Hfail|].
  intros [= <-]. unfold SendComplete, fsync. simpl.
  assert (Hrm : forall w0,
    trace (if rm then remove (Source args) w0 else w0)
    = trace w0 ++ (if rm then [SysRemove (Source args)] else []) /\
    fds (if rm then remove (Source args) w0 else w0) = fds w0).
  { intros w0. destruct rm; [by rewrite trace_remove, fds_remove|].
    by rewrite app_nil_r. }
  destruct (Hrm (close (Z.of_nat no)
                   (log (SysFsync (Z.of_nat no))
                      (close (Z.of_nat ni)
                         (SendProgressUpdate args inputSize inputSize w1)))))
    as [-> ->].
  rewrite !fds_close, !trace_close. simpl.
  rewrite fds_close, trace_close, trace_SendProgressUpdate, fds_SendProgressUpdate, Htr.
  split; [|split; [|split]].
  - exists (loop ++ fd_success args inputSize ni no rm).
    split; [unfold fd_success, success_call; by rewrite <- !app_assoc|].
    split; [exists loop; split; [done|]; split; [done|]; by left|].
    intros -> _. rewrite unlinks_close. simpl.
    by rewrite unlinks_close, unlinks_SendProgressUpdate.
  - destruct (decide (ni = no)) as [->|?]; [apply lookup_delete_eq|].
    rewrite lookup_delete_ne by done. apply lookup_delete_eq.
  - apply lookup_delete_eq.
  - intros n Hi Ho. rewrite !lookup_delete_ne by done. by apply Hfr.
Qed.

(** The calls that open and stat the source and open the destination. *)
Definition opened (args : Args) (ni no : nat) : list event :=
  [SysOpen (Source args) rd_flags (Z.of_nat ni); SysFstat (Z.of_nat ni) 0;
   SysOpen (Destination args) wr_flags (Z.of_nat no)].

(** A run that fails before both files are open. *)
Definition unopened (args : Args) (evs : list event) : Prop :=
  exists text,
    evs = [SysOpen (Source args) rd_flags (-1); SysRemove (Destination args);
           failure_call args text] \/
    exists ni : nat,
      evs = [SysOpen (Source args) rd_flags (Z.of_nat ni); SysFstat (Z.of_nat ni) (-1);
             SysClose (Z.of_nat ni); SysRemove (Destination args);
             failure_call args text] \/
      evs = [SysOpen (Source args) rd_flags (Z.of_nat ni); SysFstat (Z.of_nat ni) 0;
             SysOpen (Destination args) wr_flags (-1);
             SysClose (Z.of_nat ni); SysRemove (Destination args);
             failure_call args text].

(** Every sequence of calls NAN_METHOD(Copy) can make. *)
Definition copy_calls (args : Args) (total : Z) (evs : list event) : Prop :=
  unopened args evs \/
  exists (ni no : nat) (rest : list event),
    evs = opened args ni no ++ rest /\ streamed args total ni no false rest.

(** Every sequence of calls NAN_METHOD(Move) can make from [w]. *)
Definition move_calls (args : Args) (total : Z) (w : world) (evs : list event) : Prop :=
  unopened args evs \/
  exists ni no : nat,
    (exists text,
       evs = opened args ni no
               ++ SysFstat (Z.of_nat no) (-1) :: fd_failure args ni no text) \/
    (devs w (Source args) = devs w (Destination args) /\
     exists r,
       evs = opened args ni no
               ++ [SysFstat (Z.of_nat no) 0;
                   SysClose (Z.of_nat ni); SysClose (Z.of_nat no);
                   SysRemove (Destination args);
                   SysRename (Source args) (Destination args) r]
               ++ progress_call args total total ++ [success_call args] /\
       (r = 0 \/
        (r = -1 /\
         (Source args = Destination args \/
          exists e, faults w !! 4%nat = Some (Errno e))))) \/
    (devs w (Source args) <> devs w (Destination args) /\
     exists rest,
       evs = opened args ni no ++ SysFstat (Z.of_nat no) 0 :: rest /\
       streamed args total ni no true rest).

Lemma fds_restored (ni no : nat) (oi oo : ofd) (t t' : gmap nat ofd) :
  t !! ni = None -> (<[ni := oi]> t) !! no = None ->
  t' !! ni = None -> t' !! no = None ->
  (forall n, n <> ni -> n <> no ->
             t' !! n = (<[no := oo]> (<[ni := oi]> t)) !! n) ->
  t' = t.
Proof.
  intros Hni Hno Hi Ho Hfr. apply map_eq. intros n.
  destruct (decide (n = ni)) as [->|Hn1]; [congruence|].
  destruct (decide (n = no)) as [->|Hn2].
  - rewrite lookup_insert_ne in Hno by done. congruence.
  - rewrite Hfr by done. by rewrite !lookup_insert_ne.
Qed.

Lemma rename_failure_cause (oldpath newpath : string) (w w' : world) :
  rename oldpath newpath w = (-1, w') ->
  scripted_failure w \/ files w !! oldpath = None \/
  devs w oldpath <> devs w newpath.
Proof.
  unfold rename. destruct (next_fault w) as [f w1] eqn:Hf.
  destruct (next_fault_script _ _ _ Hf) as [_ Hcause].
  apply next_fault_frame in Hf as (Hfi & _ & Hdv & _).
  rewrite <- Hfi, <- Hdv.
  destruct f as [|e|k]; try (intros _; left; by eapply Hcause);
    destruct (files w1 !! oldpath); try (intros _; right; by left);
    destruct (Z.eqb_spec (devs w1 oldpath) (devs w1 newpath)); try done;
    intros _; right; by right.
Qed.

(** The calls of a run of NAN_METHOD(Copy), and its descriptor table. *)
Lemma Copy_method_calls (fuel : nat) (info : list jsval) (args : Args) (w w' : world) :
  Args_new info = Ok args -> Copy_method fuel info w = Some w' ->
  copy_calls args (source_size w args) (emitted w w') /\ fds w' = fds w /\
  (signals_success (emitted w w') = true -> unlinks w' = unlinks w).
Proof.
  intros HA. unfold Copy_method, copy_calls. rewrite HA.
  destruct (open (Source args) rd_flags 0 w) as [in_ w1] eqn:Ho1.
  assert (Hu1 : unlinks w1 = unlinks w)
    by (pose proof (unlinks_open (Source args) rd_flags 0 w) as Hu; by rewrite Ho1 in Hu).
  destruct (open_rd_spec _ _ _ _ _ Ho1)
    as (Hdv1 & Hum1 & Hfi1 & Hfa1 & Htr1 &
        [(-> & Hfd1 & Hc1)|(ni & fl & -> & Hni & Hsrc & Hfd1)]).
  { simpl. intros [= <-]. unfold copyByPathError.
    rewrite (emitted_app w _
               [SysOpen (Source args) rd_flags (-1); SysRemove (Destination args);
                failure_call args (strerror (errno (remove (Destination args) w1)))]).
    - split; [left; eexists; by left|]. simpl. split; [by rewrite fds_remove|done].
    - rewrite trace_SendError, trace_remove, Htr1, <- !app_assoc. done. }
  destruct (Z.ltb_spec (Z.of_nat ni) 0) as [?|_]; [lia|].
  destruct (fstat (Z.of_nat ni) w1) as [[r st] w2] eqn:Hs.
  assert (Hu2 : unlinks w2 = unlinks w)
    by (pose proof (unlinks_fstat (Z.of_nat ni) w1) as Hu; rewrite Hs in Hu; simpl in Hu;
        congruence).
  destruct (fstat_spec ni (Ofd (Source args) 0 false) fl w1 w2 r st)
    as (Hdv2 & Hum2 & Hfi2 & Hfd2 & Hfa2 & Htr2 & Hst); try done.
  { by rewrite Hfd1, lookup_insert_eq. }
  { by rewrite Hfi1. }
  destruct Hst as [(-> & Hc2)| (-> & ->)].
  { simpl. intros [= <-]. unfold copyByPathError.
    rewrite (emitted_app w _
               [SysOpen (Source args) rd_flags (Z.of_nat ni);
                SysFstat (Z.of_nat ni) (-1); SysClose (Z.of_nat ni);
                SysRemove (Destination args);
                failure_call args
                  (strerror (errno (remove (Destination args) (close (Z.of_nat ni) w2))))]).
    - split; [left; eexists; right; exists ni; by left|]. simpl. split; [|done].
      rewrite fds_remove, fds_close, Hfd2, Hfd1. by apply delete_insert_id.
    - rewrite trace_SendError, trace_remove, trace_close, Htr2, Htr1, <- !app_assoc.
      done. }
  simpl.
  destruct (open (Destination args) wr_flags (f_mode fl) w2) as [out w3] eqn:Ho2.
  assert (Hu3 : unlinks w3 = unlinks w)
    by (pose proof (unlinks_open (Destination args) wr_flags (f_mode fl) w2) as Hu;
        rewrite Ho2 in Hu; simpl in Hu; congruence).
  destruct (open_wr_spec _ _ _ _ _ Ho2)
    as (Hdv3 & Hum3 & Hfa3 & Htr3 &
        [(-> & Hfd3 & Hfi3 & Hc3)|(no & -> & Hno & Hfd3 & Hfi3)]).
  { simpl. intros [= <-]. unfold copyByPathError.
    rewrite (emitted_app w _
               [SysOpen (Source args) rd_flags (Z.of_nat ni);
                SysFstat (Z.of_nat ni) 0;
                SysOpen (Destination args) wr_flags (-1); SysClose (Z.of_nat ni);
                SysRemove (Destination args);
                failure_call args
                  (strerror (errno (remove (Destination args) (close (Z.of_nat ni) w3))))]).
    - split; [left; eexists; right; exists ni; by right|]. simpl. split; [|done].
      rewrite fds_remove, fds_close, Hfd3, Hfd2, Hfd1. by apply delete_insert_id.
    - rewrite trace_SendError, trace_remove, trace_close, Htr3, Htr2, Htr1,
        <- !app_assoc. done. }
  destruct (Z.ltb_spec (Z.of_nat no) 0) as [?|_]; [lia|].
  assert (Hsz : source_size w args = Z.of_nat (length (f_data fl)))
    by (unfold source_size; by rewrite Hsrc).
  intros Hrun.
  destruct (Copy_frame _ _ _ _ _ _ _ _ Hrun)
    as ((evs & Htr & Hstr & Hkeep) & Hi & Ho & Hfr).
  rewrite (emitted_app w _ (opened args ni no ++ evs)).
  - split; [right; exists ni, no, evs; by rewrite Hsz|]. split.
    + apply (fds_restored ni no (Ofd (Source args) 0 false)
               (Ofd (Destination args) 0 true)); try done.
      * by rewrite <- Hfd1, <- Hfd2.
      * intros n Hn1 Hn2. rewrite Hfr by done. by rewrite Hfd3, Hfd2, Hfd1.
    + intros Hsucc. rewrite (Hkeep eq_refl Hsucc). exact Hu3.
  - rewrite Htr, Htr3, Htr2, Htr1, <- !app_assoc. done.
Qed.

(** The calls of a run of NAN_METHOD(Move), and its descriptor table. *)
Lemma Move_calls (fuel : nat) (info : list jsval) (args : Args) (w w' : world) :
  Args_new info = Ok args -> Move fuel info w = Some w' ->
  move_calls args (source_size w args) w (emitted w w') /\ fds w' = fds w.
Proof.
  intros HA. unfold Move, move_calls. rewrite HA.
  destruct (open (Source args) rd_flags 0 w) as [in_ w1] eqn:Ho1.
  assert (Hu1 : unlinks w1 = unlinks w)
    by (pose proof (unlinks_open (Source args) rd_flags 0 w) as Hu; by rewrite Ho1 in Hu).
  destruct (open_rd_spec _ _ _ _ _ Ho1)
    as (Hdv1 & Hum1 & Hfi1 & Hfa1 & Htr1 &
        [(-> & Hfd1 & Hc1)|(ni & fl & -> & Hni & Hsrc & Hfd1)]).
  { simpl. intros [= <-]. unfold moveError.
    rewrite (emitted_app w _
               [SysOpen (Source args) rd_flags (-1); SysRemove (Destination args);
                failure_call args (strerror (errno (remove (Destination args) w1)))]).
    - split; [left; eexists; by left|]. simpl. by rewrite fds_remove.
    - rewrite trace_SendError, trace_remove, Htr1, <- !app_assoc. done. }
  destruct (Z.ltb_spec (Z.of_nat ni) 0) as [?|_]; [lia|].
  destruct (fstat (Z.of_nat ni) w1) as [[r st] w2] eqn:Hs.
  assert (Hu2 : unlinks w2 = unlinks w)
    by (pose proof (unlinks_fstat (Z.of_nat ni) w1) as Hu; rewrite Hs in Hu; simpl in Hu;
        congruence).
  destruct (fstat_spec ni (Ofd (Source args) 0 false) fl w1 w2 r st)
    as (Hdv2 & Hum2 & Hfi2 & Hfd2 & Hfa2 & Htr2 & Hst); try done.
  { by rewrite Hfd1, lookup_insert_eq. }
  { by rewrite Hfi1. }
  destruct Hst as [(-> & Hc2)| (-> & ->)].
  { simpl. intros [= <-]. unfold moveError.
    rewrite (emitted_app w _
               [SysOpen (Source args) rd_flags (Z.of_nat ni);
                SysFstat (Z.of_nat ni) (-1); SysClose (Z.of_nat ni);
                SysRemove (Destination args);
                failure_call args
                  (strerror (errno (remove (Destination args) (close (Z.of_nat ni) w2))))]).
    - split; [left; eexists; right; exists ni; by left|]. simpl.
      rewrite fds_remove, fds_close, Hfd2, Hfd1. by apply delete_insert_id.
    - rewrite trace_SendError, trace_remove, trace_close, Htr2, Htr1, <- !app_assoc.
      done. }
  simpl.
  destruct (open (Destination args) wr_flags (f_mode fl) w2) as [out w3] eqn:Ho2.
  assert (Hu3 : unlinks w3 = unlinks w)
    by (pose proof (unlinks_open (Destination args) wr_flags (f_mode fl) w2) as Hu;
        rewrite Ho2 in Hu; simpl in Hu; congruence).
  destruct (open_wr_spec _ _ _ _ _ Ho2)
    as (Hdv3 & Hum3 & Hfa3 & Htr3 &
        [(-> & Hfd3 & Hfi3 & Hc3)|(no & -> & Hno & Hfd3 & Hfi3)]).
  { simpl. intros [= <-]. unfold moveError.
    rewrite (emitted_app w _
               [SysOpen (Source args) rd_flags (Z.of_nat ni);
                SysFstat (Z.of_nat ni) 0;
                SysOpen (Destination args) wr_flags (-1); SysClose (Z.of_nat ni);
                SysRemove (Destination args);
                failure_call args
                  (strerror (errno (remove (Destination args) (close (Z.of_nat ni) w3))))]).
    - split; [left; eexists; right; exists ni; by right|]. simpl.
      rewrite fds_remove, fds_close, Hfd3, Hfd2, Hfd1. by apply delete_insert_id.
    - rewrite trace_SendError, trace_remove, trace_close, Htr3, Htr2, Htr1,
        <- !app_assoc. done. }
  destruct (Z.ltb_spec (Z.of_nat no) 0) as [?|_]; [lia|].
  assert (Hneq : ni <> no).
  { intros ->. rewrite Hfd2, Hfd1, lookup_insert_eq in Hno. done. }
  assert (Hsz : source_size w args = Z.of_nat (length (f_data fl)))
    by (unfold source_size; by rewrite Hsrc).
  assert (Hclosed : delete no (delete ni (fds w3)) = fds w).
  { rewrite Hfd3. rewrite delete_insert_ne by done.
    rewrite delete_insert_eq, Hfd2, Hfd1. rewrite delete_insert_id by done.
    apply delete_id. rewrite Hfd2, Hfd1, lookup_insert_ne in Hno; done. }
  destruct (fstat (Z.of_nat no) w3) as [[r' st'] w4] eqn:Hs'.
  assert (Hu4 : unlinks w4 = unlinks w)
    by (pose proof (unlinks_fstat (Z.of_nat no) w3) as Hu; rewrite Hs' in Hu; simpl in Hu;
        congruence).
  destruct (fstat_spec no (Ofd (Destination args) 0 true)
              (File [] (mode_after_create w2 (Destination args) (f_mode fl)))
              w3 w4 r' st')
    as (Hdv4 & Hum4 & Hfi4 & Hfd4 & Hfa4 & Htr4 & Hst'); try done.
  { by rewrite Hfd3, lookup_insert_eq. }
  { by rewrite Hfi3, lookup_insert_eq. }
  destruct Hst' as [(-> & Hc4)| (-> & ->)].
  { simpl. intros [= <-]. unfold moveError.
    rewrite (emitted_app w _
               (opened args ni no ++ SysFstat (Z.of_nat no) (-1) ::
                  fd_failure args ni no
                    (strerror
                       (errno (remove (Destination args)
                                 (close (Z.of_nat no) (close (Z.of_nat ni) w4))))))).
    - split; [right; exists ni, no; left; by eexists|]. simpl.
      by rewrite fds_remove, !fds_close, Hfd4.
    - rewrite trace_SendError, trace_remove, !trace_close, Htr4, Htr3, Htr2, Htr1,
        <- !app_assoc. done. }
  simpl. rewrite Hdv3, Hdv2, Hdv1.
  destruct (Z.eqb_spec (devs w (Source args)) (devs w (Destination args))) as [Hdev|Hdev].
  - set (w7 := remove (Destination args) (close (Z.of_nat no) (close (Z.of_nat ni) w4))).
    destruct (rename (Source args) (Destination args) w7) as [rr w8] eqn:Hren.
    destruct (rename_spec _ _ _ _ _ Hren) as (_ & _ & Hfd8 & Htr8 & Hres).
    intros [= <-]. unfold SendComplete.
    rewrite (emitted_app w _
               (opened args ni no
                  ++ [SysFstat (Z.of_nat no) 0;
                      SysClose (Z.of_nat ni); SysClose (Z.of_nat no);
                      SysRemove (Destination args);
                      SysRename (Source args) (Destination args) rr]
                  ++ progress_call args (source_size w args) (source_size w args)
                  ++ [success_call args])).
    + split.
      * right. exists ni, no. right; left. split; [done|]. exists rr. split; [done|].
        destruct Hres as [(-> & _)|(fl' & -> & _)]; [right|by left].
        split; [done|].
        destruct (decide (Source args = Destination args)) as [?|Hne]; [by left|right].
        destruct (rename_failure_cause _ _ _ _ Hren) as [Hc|[Hc|Hc]].
        -- apply (scripted_failure_at w7 (faults w) 4 Hc).
           unfold w7. rewrite faults_remove, !faults_close, Hfa4, Hfa3, Hfa2, Hfa1.
           by rewrite head_lookup, !lookup_tail.
        -- exfalso. unfold w7 in Hc.
           rewrite (off_path (Destination args) (Source args) _ _
                      (delete_files_remove _ _)) in Hc by done.
           rewrite !files_close, Hfi4, Hfi3, lookup_insert_ne in Hc by done. congruence.
        -- exfalso. unfold w7 in Hc.
           rewrite devs_remove, !devs_close in Hc. congruence.
      * simpl. rewrite fds_SendProgressUpdate, Hfd8. unfold w7.
        by rewrite fds_remove, !fds_close, Hfd4.
    + simpl. rewrite trace_SendProgressUpdate, Htr8. unfold w7.
      rewrite trace_remove, !trace_close, Htr4, Htr3, Htr2, Htr1, Hsz.
      unfold opened, success_call. rewrite <- !app_assoc. done.
  - intros Hrun.
    destruct (Copy_frame _ _ _ _ _ _ _ _ Hrun)
      as ((evs & Htr & Hstr & _) & Hi & Ho & Hfr).
    rewrite (emitted_app w _ (opened args ni no ++ SysFstat (Z.of_nat no) 0 :: evs)).
    + split; [right; exists ni, no; right; right; split; [done|];
              exists evs; by rewrite Hsz|].
      apply (fds_restored ni no (Ofd (Source args) 0 false)
               (Ofd (Destination args) 0 true)); try done.
      * by rewrite <- Hfd1, <- Hfd2.
      * intros n Hn1 Hn2. rewrite Hfr by done. by rewrite Hfd4, Hfd3, Hfd2, Hfd1.
    + rewrite Htr, Htr4, Htr3, Htr2, Htr1, <- !app_assoc. done.
Qed.

(** *** Reading the calls *)

(** A scan of a log with [held] descriptors open at its start: whether
    every [remove] and [rename] is called while none is open, and none is
    open at the end. *)
Fixpoint closed_at_unlinks (held : Z) (evs : list event) : bool :=
  match evs with
  | [] => held =? 0
  | SysOpen _ _ r :: evs' => closed_at_unlinks (if r <? 0 then held else held + 1) evs'
  | SysClose _ :: evs' => closed_at_unlinks (held - 1) evs'
  | SysRemove _ :: evs' => (held =? 0) && closed_at_unlinks held evs'
  | SysRename _ _ _ :: evs' => (held =? 0) && closed_at_unlinks held evs'
  | _ :: evs' => closed_at_unlinks held evs'
  end.

Lemma closed_at_unlinks_loop fd_in fd_out args total loop rest held :
  Forall (loop_event fd_in fd_out args total) loop ->
  closed_at_unlinks held (loop ++ rest) = closed_at_unlinks held rest.
Proof.
  induction 1 as [|e l He _ IH]; [done|].
  destruct He as [[r ->]|[[r ->]|(_ & c & ->)]]; exact IH.
Qed.

Lemma closed_at_unlinks_progress args c total rest held :
  closed_at_unlinks held (progress_call args c total ++ rest)
  = closed_at_unlinks held rest.
Proof. apply (closed_at_unlinks_loop 0 0 args total), loop_event_progress. Qed.

Lemma signals_success_progress_call args c total :
  existsb is_success (progress_call args c total) = false.
Proof. unfold progress_call. by destruct (UpdateProgress args). Qed.

Lemma progress_updates_length evs : length (progress_updates evs) = length (completed evs).
Proof. unfold completed. by rewrite length_fmap. Qed.

Lemma progress_updates_progress_call args c t :
  progress_updates (progress_call args c t) = if UpdateProgress args then [(c, t)] else [].
Proof. unfold progress_call. by destruct (UpdateProgress args). Qed.

Lemma progress_updates_fd_success args total ni no rm :
  progress_updates (fd_success args total ni no rm)
  = if UpdateProgress args then [(total, total)] else [].
Proof.
  unfold fd_success. rewrite progress_updates_app, progress_updates_progress_call.
  destruct rm, (UpdateProgress args); done.
Qed.

Lemma progress_updates_fd_failure args ni no text :
  progress_updates (fd_failure args ni no text) = [].
Proof. done. Qed.

(** The counts reported in a run lie between 0 and the size of the source. *)
Lemma completed_within name method (fuel : nat) (info : list jsval) (args : Args)
    (w w' : world) :
  InitAll name = Some method ->
  Args_new info = Ok args -> method fuel info w = Some w' ->
  Forall (fun c => 0 <= c <= source_size w args) (completed (emitted w w')).
Proof.
  intros Hm HA Hrun.
  destruct (InitAll_any _ _ _ _ _ _ _ Hm HA Hrun) as (pre & fin & Hshape & Hres).
  rewrite (emitted_shape _ _ _ _ _ _ Hshape), completed_app.
  destruct Hshape as (_ & _ & Hch & _). apply chain_all_ge in Hch.
  apply Forall_app. split; [done|].
  destruct Hres as [[-> _]|(text & pre' & -> & _)]; constructor.
Qed.

(** The loop of [Copy] reports progress at most 99 times. *)
Lemma streamed_loop_updates (total : Z) (loop : list event) :
  0 <= total ->
  gapped (Z.quot total 100) 0 (completed loop) ->
  Forall (fun c => 0 <= c <= total) (completed loop) ->
  (length (progress_updates loop) <= 99)%nat /\
  (total = 0 -> progress_updates loop = []).
Proof.
  intros Ht Hgap Hall.
  assert (Hg : 0 <= Z.quot total 100) by (apply Z.quot_pos; lia).
  pose proof (gapped_length _ _ _ total Hg Hgap) as Hlen.
  rewrite progress_updates_length. unfold completed in *.
  specialize (Hlen ltac:(eapply Forall_impl; [exact Hall|simpl; intros; lia]) Ht).
  pose proof (Z.quot_rem' total 100) as Hqr.
  pose proof (Z.rem_bound_pos total 100 Ht ltac:(lia)) as Hrem.
  split; [nia|].
  intros ->. destruct (progress_updates loop); [done|]. simpl in Hlen. lia.
Qed.

Lemma of_nat_not_neg (n : nat) : (Z.of_nat n <? 0) = false.
Proof. apply Z.ltb_ge. lia. Qed.

(** What can be read off the calls of [Copy]. *)
Lemma streamed_reading (args : Args) (total : Z) (ni no : nat) (rm : bool)
    (rest : list event) :
  streamed args total ni no rm rest -> 0 <= total ->
  Forall (fun c => 0 <= c <= total) (completed rest) ->
  (length (progress_updates rest) <= 100)%nat /\
  (total = 0 ->
   progress_updates rest
   = if existsb is_success rest && UpdateProgress args then [(0, 0)] else []) /\
  closed_at_unlinks 2 rest = true.
Proof.
  intros (loop & Hloop & Hgap & Hrest) Ht Hall.
  assert (Hall' : Forall (fun c => 0 <= c <= total) (completed loop)).
  { destruct Hrest as [->|[text ->]]; rewrite completed_app in Hall;
      by apply Forall_app in Hall as [? _]. }
  destruct (streamed_loop_updates total loop Ht Hgap Hall') as [Hlen Hzero].
  destruct Hrest as [->|[text ->]];
    rewrite progress_updates_app, existsb_app, (loop_no_success _ _ _ _ _ Hloop),
      (closed_at_unlinks_loop _ _ _ _ _ _ _ Hloop), length_app.
  - rewrite progress_updates_fd_success. unfold fd_success.
    rewrite closed_at_unlinks_progress, existsb_app, signals_success_progress_call.
    split; [destruct (UpdateProgress args); simpl; lia|]. split.
    + intros Hz. rewrite (Hzero Hz), Hz. by destruct rm, (UpdateProgress args).
    + by destruct rm.
  - rewrite progress_updates_fd_failure. simpl.
    split; [lia|]. split; [|done].
    intros Hz. by rewrite (Hzero Hz).
Qed.

End CallFacts.

(** * Further sample requests and worlds *)

Module Scenarios.
Import Posix NativeFS Samples.

(** A request whose two paths are the same. *)
Definition info_self : list jsval := [JString "a"; JString "a"; cb1].
Definition args_self : Args :=
  {| Source := "a"; Destination := "a"; ProgressCallback := cb1;
     ResultCallback := cb1; UpdateProgress := false |}.

(** A second request, from "b" to "c". *)
Definition info_bc : list jsval := [JString "b"; JString "c"; cb1].
Definition args_bc : Args :=
  {| Source := "b"; Destination := "c"; ProgressCallback := cb1;
     ResultCallback := cb1; UpdateProgress := false |}.

(** "a" as before, and a bystander "z". *)
Definition fs_az : gmap string file :=
  {[ "a" := File hello 420; "z" := File [x7a] 384 ]}.

(** No source, and a file already at the destination. *)
Definition fs_b : gmap string file := {[ "b" := File [x62] 420 ]}.

Definition w_bystander : world := world0 fs_az disk_full.
Definition w_bystander2 : world := world2 fs_az [].
Definition w_no_source : world := world0 fs_b [].

(** A copy from "a" to "b" under short transfers, and then one from "b"
    to "c". *)
Definition w_copied : world := outcome (Copy_method 10 info3 w_short) w_short.
Definition w_copied_twice : world := outcome (Copy_method 10 info_bc w_copied) w_copied.

(** An empty source file. *)
Definition w_empty : world := world0 {[ "a" := File [] 420 ]} [].

(** A descriptor of another part of the process is open while a move
    across devices finds the disk full. *)
Definition w_held : world :=
  set_fds {[ 0%nat := Ofd "z" 1 false ]} (world2 fs_az (NoFault :: disk_full)).

(** The source cannot be opened: permission denied. *)
Definition w_denied : world := world0 fs_a [Errno 13].

(** "b" holds one byte and is open for writing at its end; the next two
    writes are short. *)
Definition w_appending : world :=
  {| files := {[ "b" := File [x68] 420 ]};
     fds := {[ 3%nat := Ofd "b" 1 true ]};
     devs := fun _ => 1; umask := 18; errno := 0;
     faults := [Short 2; Short 1]; unlinks := []; trace := [] |}.

End Scenarios.


(** * The claims *)

Import Posix NativeFS PosixFacts DoWriteFacts CopyFacts MethodFacts ArgsFacts Samples.

(** ** The write-retry helper (C9) *)

(** C9, as stated, fails: a write primitive that keeps the contract of the
    claim (each call reports an error or transfers between 0 and the
    requested number of bytes) and always transfers 0 bytes makes [doWrite]
    recurse for ever on a one-byte chunk: no amount of fuel yields a
    result. *)
Lemma doWrite_zero_byte_writes_never_return :
  write_contract write_nothing sink /\
  ~ (exists fuel r, doWrite write_nothing fuel 3 [x41] [] = Some r).
Proof.
  split; [apply write_nothing_contract|].
  intros (fuel & r & H). by rewrite doWrite_nothing_hangs in H.
Qed.

(** C9 (amended).  For every chunk and every write primitive that on each
    call reports an error or transfers a prefix of the buffer, and that
    transfers at least one byte whenever it succeeds on a non-empty buffer,
    [doWrite] returns, and when it returns anything but -1 the entire chunk
    has been written. *)
Theorem doWrite_returns_when_writes_progress
    {St : Type} (write : Z -> list byte -> St -> Z * St)
    (accepted : Z -> St -> list byte) (fd : Z) (data : list byte) (st : St) :
  write_contract write accepted -> write_progress write ->
  (exists fuel r st', doWrite write fuel fd data st = Some (r, st')) /\
  (forall fuel r st',
     doWrite write fuel fd data st = Some (r, st') ->
     r <> -1 -> accepted fd st' = accepted fd st ++ data).
Proof.
  intros Hc Hp. split.
  - destruct (doWrite_total write accepted fd Hc Hp (S (length data)) data st)
      as (r & st' & Hrun & _); [lia|]. by exists (S (length data)), r, st'.
  - intros fuel r st' Hrun Hr.
    destruct (doWrite_total write accepted fd Hc Hp
                (Nat.max fuel (S (length data))) data st)
      as (r2 & st2 & Hrun2 & Hres); [lia|].
    apply (doWrite_mono _ _ (Nat.max fuel (S (length data)))) in Hrun; [|lia].
    rewrite Hrun in Hrun2. injection Hrun2 as <- <-. by apply Hres.
Qed.

Lemma doWrite_returns_when_writes_progress_witness :
  write_contract write_one sink /\ write_progress write_one /\
  (exists fuel r st', doWrite write_one fuel 3 [x41; x42; x43] [] = Some (r, st')) /\
  (forall fuel r st',
     doWrite write_one fuel 3 [x41; x42; x43] [] = Some (r, st') ->
     r <> -1 -> sink 3 st' = sink 3 [] ++ [x41; x42; x43]).
Proof.
  split; [exact write_one_contract|].
  split; [exact write_one_progress|].
  exact (doWrite_returns_when_writes_progress write_one sink 3 [x41; x42; x43] []
           write_one_contract write_one_progress).
Defined.

(** ** Completion (C3, C2) *)

(** C3.  Every copy or move on a request that [Args] accepts returns, and
    its run makes exactly one completion call, whether the run ends in
    success or in a failure of open, fstat, read, write or rename. *)
Theorem completion_called_exactly_once
    (name : string) method (info : list jsval) (args : Args) (w : world) :
  InitAll name = Some method -> Args_new info = Ok args ->
  (exists fuel w', method fuel info w = Some w') /\
  (forall fuel w',
     method fuel info w = Some w' ->
     length (List.filter is_completion (emitted w w')) = 1%nat).
Proof.
  intros Hm HA. split.
  - destruct (InitAll_total name method info args w Hm HA) as [w' Hrun]. eauto.
  - intros fuel w' Hrun.
    destruct (InitAll_any _ _ _ _ _ _ _ Hm HA Hrun) as (pre & fin & Hshape & Hres).
    rewrite (emitted_shape _ _ _ _ _ _ Hshape).
    destruct Hshape as (_ & Hq & _).
    rewrite List.filter_app, (quiet_no_completion _ _ _ Hq).
    destruct Hres as [[-> _]|(text & pre' & -> & _)]; reflexivity.
Qed.

Lemma completion_called_exactly_once_witness :
  InitAll "copy" = Some Copy_method /\ Args_new info4 = Ok args4 /\
  (exists fuel w', Copy_method fuel info4 w_full = Some w') /\
  (forall fuel w',
     Copy_method fuel info4 w_full = Some w' ->
     length (List.filter is_completion (emitted w_full w')) = 1%nat).
Proof.
  split; [reflexivity|]. split; [reflexivity|].
  exact (completion_called_exactly_once "copy" Copy_method info4 args4 w_full
           eq_refl eq_refl).
Defined.

(** C2, as stated, fails: on a call with four arguments the completion
    outcome is delivered to the fourth argument, not to the third. *)
Lemma four_arguments_completion_not_on_third :
  exists w' ev,
    Copy_method 10 info4 w_plain = Some w' /\
    last (emitted w_plain w') = Some ev /\
    is_completion ev = true /\
    callee_of ev = arg info4 3 /\ callee_of ev <> arg info4 2.
Proof.
  eexists _, _. split; [vm_compute; reflexivity|].
  split; [vm_compute; reflexivity|]. by vm_compute.
Qed.

(** C2 (amended).  For every call to copy or move that supplies four
    arguments, the completion outcome, (errorText, false) on failure or
    (null, true) on success, is delivered to the fourth argument, and
    progress updates (completed, total) are delivered to the third. *)
Theorem four_arguments_callbacks
    (name : string) method (src dst f3 f4 : jsval) (args : Args) (w : world) :
  InitAll name = Some method ->
  Args_new [src; dst; f3; f4] = Ok args ->
  (exists fuel w', method fuel [src; dst; f3; f4] w = Some w') /\
  (forall fuel w',
     method fuel [src; dst; f3; f4] w = Some w' ->
     (exists ev, last (emitted w w') = Some ev /\ is_completion ev = true) /\
     (forall ev, ev ∈ emitted w w' ->
        (is_completion ev = true -> callee_of ev = f4) /\
        (is_progress ev = true -> callee_of ev = f3))).
Proof.
  intros Hm HA. split.
  { destruct (InitAll_total name method _ args w Hm HA) as [w' Hrun]. eauto. }
  intros fuel w' Hrun.
  destruct (Args_new_slots _ _ HA) as (_ & Hpc & Hrc & _).
  unfold arg in Hpc, Hrc. simpl in Hpc, Hrc.
  destruct (InitAll_any _ _ _ _ _ _ _ Hm HA Hrun) as (pre & fin & Hshape & Hres).
  rewrite (emitted_shape _ _ _ _ _ _ Hshape).
  destruct Hshape as (_ & Hq & _).
  assert (Hfin : is_completion fin = true /\ callee_of fin = f4 /\ is_progress fin = false).
  { destruct Hres as [[-> _]|(text & pre' & -> & _)]; by rewrite <- Hrc. }
  destruct Hfin as (Hfc & Hfcal & Hfp).
  split.
  - exists fin. split; [apply last_snoc|done].
  - intros ev Hin. apply elem_of_app in Hin as [Hin|Hin].
    + rewrite Forall_forall in Hq. specialize (Hq ev Hin). split.
      * intros Hc. unfold is_completion in Hc.
        apply quiet_not_completion in Hq as [Hs Hf]. by rewrite Hs, Hf in Hc.
      * intros Hp. destruct (quiet_progress _ _ _ Hq Hp) as (_ & -> & _). done.
    + apply list_elem_of_singleton in Hin as ->. split; [done|].
      intros Hp. by rewrite Hfp in Hp.
Qed.

Lemma four_arguments_callbacks_witness :
  InitAll "move" = Some Move /\
  Args_new [JString "a"; JString "b"; cb1; cb2] = Ok args4 /\
  emitted w_across (outcome (Move 10 info4 w_across) w_across)
  = [SysOpen "a" rd_flags 0; SysFstat 0 0; SysOpen "b" wr_flags 1; SysFstat 1 0;
     SysRead 0 5; SysWrite 1 5; Call cb1 [JNumber 5; JNumber 5];
     SysRead 0 0; Call cb1 [JNumber 5; JNumber 5];
     SysClose 0; SysFsync 1; SysClose 1; SysRemove "a";
     Call cb2 [JNull; JBool true]] /\
  (exists fuel w', Move fuel [JString "a"; JString "b"; cb1; cb2] w_across = Some w') /\
  (forall fuel w',
     Move fuel [JString "a"; JString "b"; cb1; cb2] w_across = Some w' ->
     (exists ev, last (emitted w_across w') = Some ev /\ is_completion ev = true) /\
     (forall ev, ev ∈ emitted w_across w' ->
        (is_completion ev = true -> callee_of ev = cb2) /\
        (is_progress ev = true -> callee_of ev = cb1))).
Proof.
  split; [reflexivity|]. split; [reflexivity|].
  split; [vm_compute; reflexivity|].
  exact (four_arguments_callbacks "move" Move (JString "a") (JString "b") cb1 cb2
           args4 w_across eq_refl eq_refl).
Defined.

(** ** Progress (C6) *)

(** C6.  When a progress callback was supplied, a copy or move returns,
    the completed counts of its progress updates never decrease, every
    update carries the size of the source as its total, and on success the
    last update reports completed = total = the size of the source taken
    at open time. *)
Theorem progress_updates_monotone
    (name : string) method (info : list jsval) (args : Args) (w : world) :
  InitAll name = Some method -> Args_new info = Ok args ->
  UpdateProgress args = true ->
  (exists fuel w', method fuel info w = Some w') /\
  (forall fuel w',
     method fuel info w = Some w' ->
     StronglySorted Z.le (completed (emitted w w')) /\
     Forall (fun u => u.2 = source_size w args) (progress_updates (emitted w w')) /\
     (signals_success (emitted w w') = true ->
      last (progress_updates (emitted w w'))
      = Some (source_size w args, source_size w args))).
Proof.
  intros Hm HA Hup. split.
  { destruct (InitAll_total name method _ args w Hm HA) as [w' Hrun]. eauto. }
  intros fuel w' Hrun.
  destruct (InitAll_any _ _ _ _ _ _ _ Hm HA Hrun) as (pre & fin & Hshape & Hres).
  rewrite (signals_success_shape _ _ _ _ _ _ Hshape).
  rewrite (emitted_shape _ _ _ _ _ _ Hshape).
  destruct Hshape as (_ & Hq & Hch & _).
  assert (Hfin : progress_updates (pre ++ [fin]) = progress_updates pre).
  { rewrite progress_updates_app.
    destruct Hres as [[-> _]|(text & pre' & -> & _)]; apply app_nil_r. }
  unfold completed. rewrite Hfin.
  split; [by eapply chain_sorted|].
  split; [by eapply quiet_totals|].
  intros Hs. destruct Hres as [[_ Hlast]|(text & pre' & -> & _)]; [|done].
  by apply Hlast.
Qed.

Lemma progress_updates_monotone_witness :
  InitAll "copy" = Some Copy_method /\ Args_new info4 = Ok args4 /\
  UpdateProgress args4 = true /\
  progress_updates (emitted w_short (outcome (Copy_method 10 info4 w_short) w_short))
  = [(2, 5); (5, 5); (5, 5)] /\
  (exists fuel w', Copy_method fuel info4 w_short = Some w') /\
  (forall fuel w',
     Copy_method fuel info4 w_short = Some w' ->
     StronglySorted Z.le (completed (emitted w_short w')) /\
     Forall (fun u => u.2 = source_size w_short args4)
       (progress_updates (emitted w_short w')) /\
     (signals_success (emitted w_short w') = true ->
      last (progress_updates (emitted w_short w'))
      = Some (source_size w_short args4, source_size w_short args4))).
Proof.
  split; [reflexivity|]. split; [reflexivity|]. split; [reflexivity|].
  split; [vm_compute; reflexivity|].
  exact (progress_updates_monotone "copy" Copy_method info4 args4 w_short
           eq_refl eq_refl eq_refl).
Defined.

(** ** Failure (C4, C10) *)

(** C4, as stated, fails: the code calls [remove] on the destination and
    ignores its result (main.cc 231, 261, 319).  Here the second write
    finds the disk full and the environment then refuses the [remove] with
    EACCES: the copy reports a failure, and the two bytes written so far
    are left at the destination path, where no file was before. *)
Lemma failed_copy_leaves_partial_destination :
  exists w',
    Copy_method 10 info3 w_full_kept = Some w' /\
    emitted w_full_kept w'
    = [SysOpen "a" rd_flags 0; SysFstat 0 0; SysOpen "b" wr_flags 1;
       SysRead 0 3; SysWrite 1 2; SysWrite 1 (-1); SysClose 0; SysClose 1;
       SysRemove "b"; Call cb1 [JString "Permission denied"; JBool false]] /\
    signals_failure (emitted w_full_kept w') = true /\
    content w_full_kept "b" = None /\
    content w' "b" = Some [x68; x65].
Proof.
  eexists. split; [vm_compute; reflexivity|]. by vm_compute.
Qed.

(** C4 (amended).  On every copy or move that reports a failure (at open,
    at fstat, or on a read or write in mid-transfer), [remove] is called on
    the destination immediately before the failure is reported, and when
    the environment does not refuse that call no file is left at the
    destination path. *)
Theorem failure_removes_destination
    (name : string) method (info : list jsval) (args : Args)
    (w w' : world) (fuel : nat) :
  InitAll name = Some method -> Args_new info = Ok args ->
  method fuel info w = Some w' ->
  signals_failure (emitted w w') = true ->
  (remove_refused w = false -> files w' !! Destination args = None) /\
  exists before text,
    emitted w w' = before ++ [SysRemove (Destination args); failure_call args text].
Proof.
  intros Hm HA Hrun Hfail.
  destruct (InitAll_any _ _ _ _ _ _ _ Hm HA Hrun) as (pre & fin & Hshape & Hres).
  rewrite (signals_failure_shape _ _ _ _ _ _ Hshape) in Hfail.
  rewrite (emitted_shape _ _ _ _ _ _ Hshape).
  destruct Hres as [[-> _]|(text & pre' & -> & -> & _ & Hgone & _)]; [done|].
  split; [exact Hgone|].
  exists pre', text. by rewrite <- app_assoc.
Qed.

Lemma failure_removes_destination_witness :
  InitAll "copy" = Some Copy_method /\ Args_new info3 = Ok args3 /\
  Copy_method 10 info3 w_full = Some (outcome (Copy_method 10 info3 w_full) w_full) /\
  signals_failure (emitted w_full (outcome (Copy_method 10 info3 w_full) w_full))
  = true /\
  remove_refused w_full = false /\
  files (outcome (Copy_method 10 info3 w_full) w_full) !! Destination args3 = None /\
  exists before text,
    emitted w_full (outcome (Copy_method 10 info3 w_full) w_full)
    = before ++ [SysRemove (Destination args3); failure_call args3 text].
Proof.
  split; [reflexivity|]. split; [reflexivity|].
  split; [vm_compute; reflexivity|].
  split; [vm_compute; reflexivity|].
  split; [reflexivity|].
  destruct (failure_removes_destination "copy" Copy_method info3 args3 w_full
              (outcome (Copy_method 10 info3 w_full) w_full) 10)
    as [Hgone Hcalls];
    [reflexivity|reflexivity|vm_compute; reflexivity|vm_compute; reflexivity|].
  split; [apply Hgone; reflexivity|exact Hcalls].
Defined.

(** C10.  A move between two devices that reports a failure, be it on a
    read or write in mid-transfer or earlier, leaves the source file in
    place as it was, and never calls [remove] on the source: that call
    lies on the success path only. *)
Theorem failed_cross_device_move_keeps_source
    (info : list jsval) (args : Args) (w w' : world) (fuel : nat) :
  Args_new info = Ok args ->
  devs w (Source args) <> devs w (Destination args) ->
  Move fuel info w = Some w' ->
  signals_failure (emitted w w') = true ->
  files w' !! Source args = files w !! Source args /\
  SysRemove (Source args) ∉ emitted w w'.
Proof.
  intros HA Hdev Hrun Hfail.
  assert (Hpaths : Source args <> Destination args) by congruence.
  destruct (Move_any _ _ _ _ _ HA Hrun) as (pre & fin & Hout).
  pose proof (Move_outcome_common _ _ _ _ _ Hout) as (Hshape & Hres).
  rewrite (signals_failure_shape _ _ _ _ _ _ Hshape) in Hfail.
  rewrite (emitted_shape _ _ _ _ _ _ Hshape).
  destruct Hres as [[-> _]|(text & pre' & -> & -> & Hfiles & _ & Hnu)]; [done|].
  split.
  - by apply (off_path _ _ _ _ Hfiles).
  - rewrite !elem_of_app, !list_elem_of_singleton. intros [[Hin|Heq]|Heq].
    + rewrite Forall_forall in Hnu. exact (Hnu _ Hin).
    + by injection Heq.
    + discriminate Heq.
Qed.

Lemma failed_cross_device_move_keeps_source_witness :
  Args_new info3 = Ok args3 /\
  devs w_move_full (Source args3) <> devs w_move_full (Destination args3) /\
  Move 10 info3 w_move_full = Some (outcome (Move 10 info3 w_move_full) w_move_full) /\
  signals_failure (emitted w_move_full (outcome (Move 10 info3 w_move_full) w_move_full))
  = true /\
  files w_move_full !! Source args3 = Some (File hello 420) /\
  files (outcome (Move 10 info3 w_move_full) w_move_full) !! Source args3
  = files w_move_full !! Source args3 /\
  SysRemove (Source args3)
  ∉ emitted w_move_full (outcome (Move 10 info3 w_move_full) w_move_full).
Proof.
  split; [reflexivity|]. split; [by vm_compute|].
  split; [vm_compute; reflexivity|].
  split; [vm_compute; reflexivity|].
  split; [reflexivity|].
  apply (failed_cross_device_move_keeps_source info3 args3 w_move_full _ 10);
    [reflexivity|by vm_compute|vm_compute; reflexivity|vm_compute; reflexivity].
Defined.

(** ** Copy (C1) *)

(** C1, as stated, fails on the mode bits.  A destination that exists
    before the copy keeps its own mode ([open] applies its mode argument
    only to a file it creates), and a destination that the copy creates
    gets the source mode without the umask bits. *)
Lemma copy_success_mode_differs :
  (exists w',
     Copy_method 10 info3
       (world0 {[ "a" := File hello 420; "b" := File [] 384 ]} []) = Some w' /\
     signals_success
       (emitted (world0 {[ "a" := File hello 420; "b" := File [] 384 ]} []) w') = true /\
     mode_of w' "b" = Some 384 /\
     mode_of (world0 {[ "a" := File hello 420; "b" := File [] 384 ]} []) "a" = Some 420) /\
  (exists w',
     Copy_method 10 info3 (world0 {[ "a" := File hello 438 ]} []) = Some w' /\
     signals_success (emitted (world0 {[ "a" := File hello 438 ]} []) w') = true /\
     mode_of w' "b" = Some 420 /\
     mode_of (world0 {[ "a" := File hello 438 ]} []) "a" = Some 438).
Proof.
  split; eexists; (split; [vm_compute; reflexivity|]); by vm_compute.
Qed.

(** C1 (amended).  For every copy operation that signals success, the
    destination file's content is byte-for-byte equal to the source file's
    content (which, for two different paths, is the content the source had
    before the call), and the destination file's mode bits are those the
    destination had if it existed before the call, and otherwise the
    source's mode bits captured at open time with the umask bits
    cleared. *)
Theorem copy_success_content_and_mode
    (info : list jsval) (args : Args) (w w' : world) (fuel : nat) :
  Args_new info = Ok args ->
  Copy_method fuel info w = Some w' ->
  signals_success (emitted w w') = true ->
  exists smode,
    mode_of w (Source args) = Some smode /\
    is_Some (content w' (Destination args)) /\
    content w' (Destination args) = content w' (Source args) /\
    (Source args <> Destination args ->
     content w' (Source args) = content w (Source args)) /\
    mode_of w' (Destination args)
    = Some (match mode_of w (Destination args) with
            | Some dmode => dmode
            | None => Z.ldiff smode (umask w)
            end).
Proof.
  intros HA Hrun Hs.
  destruct (Copy_method_any _ _ _ _ _ HA Hrun) as (pre & fin & Hshape & _ & Hres).
  rewrite (signals_success_shape _ _ _ _ _ _ Hshape) in Hs.
  destruct Hres as [(sdata & smode & Hsrc & _ & Hfiles & _)
                   |(text & pre' & -> & _)]; [|done].
  exists smode. unfold content, mode_of. rewrite Hfiles, Hsrc, lookup_insert_eq. simpl.
  split; [done|]. split; [by eexists|]. split; [|split].
  - destruct (decide (Source args = Destination args)) as [Heq|Hne].
    + by rewrite Heq, lookup_insert_eq.
    + rewrite lookup_insert_ne by done. by rewrite Hsrc.
  - intros Hne. rewrite lookup_insert_ne by done. by rewrite Hsrc.
  - unfold mode_after_create. by destruct (files w !! Destination args).
Qed.

Lemma copy_success_content_and_mode_witness :
  Args_new info3 = Ok args3 /\
  Copy_method 10 info3 w_short = Some (outcome (Copy_method 10 info3 w_short) w_short) /\
  signals_success (emitted w_short (outcome (Copy_method 10 info3 w_short) w_short))
  = true /\
  content (outcome (Copy_method 10 info3 w_short) w_short) "b" = Some hello /\
  exists smode,
    mode_of w_short (Source args3) = Some smode /\
    is_Some (content (outcome (Copy_method 10 info3 w_short) w_short) (Destination args3)) /\
    content (outcome (Copy_method 10 info3 w_short) w_short) (Destination args3)
    = content (outcome (Copy_method 10 info3 w_short) w_short) (Source args3) /\
    (Source args3 <> Destination args3 ->
     content (outcome (Copy_method 10 info3 w_short) w_short) (Source args3)
     = content w_short (Source args3)) /\
    mode_of (outcome (Copy_method 10 info3 w_short) w_short) (Destination args3)
    = Some (match mode_of w_short (Destination args3) with
            | Some dmode => dmode
            | None => Z.ldiff smode (umask w_short)
            end).
Proof.
  split; [reflexivity|].
  split; [vm_compute; reflexivity|].
  split; [vm_compute; reflexivity|].
  split; [vm_compute; reflexivity|].
  apply (copy_success_content_and_mode info3 args3 w_short _ 10);
    [reflexivity|vm_compute; reflexivity|vm_compute; reflexivity].
Defined.

(** ** Move (C7, C5, C8) *)

(** C7, as stated, fails on the progress update: a move on one device
    called without a progress callback reports success and emits no
    progress update at all. *)
Lemma move_without_progress_callback_is_silent :
  exists w',
    Move 10 info3 w_plain = Some w' /\
    devs w_plain "a" = devs w_plain "b" /\
    signals_success (emitted w_plain w') = true /\
    progress_updates (emitted w_plain w') = [].
Proof.
  eexists. split; [vm_compute; reflexivity|]. by vm_compute.
Qed.

(** C7 (amended).  For every move where the source's device id equals the
    destination's device id (both files having been opened and stat'ed),
    the operation closes both handles without reading or writing a byte,
    calls remove on the destination, then rename from the source path to the
    destination path, emits exactly one progress update (size, size) when a
    progress callback was supplied and none otherwise, and signals success;
    when the rename call succeeds and source and destination are two
    paths, the destination is the source's file and the source path is
    gone. *)
Theorem same_device_move
    (info : list jsval) (args : Args) (w : world) (sdata : list byte) (smode : Z) :
  Args_new info = Ok args ->
  files w !! Source args = Some (File sdata smode) ->
  opening_fault w = false ->
  devs w (Source args) = devs w (Destination args) ->
  (exists fuel w', Move fuel info w = Some w') /\
  (forall fuel w',
     Move fuel info w = Some w' ->
     exists (ni no : nat) (r : Z),
       emitted w w' =
         [SysOpen (Source args) rd_flags (Z.of_nat ni);
          SysFstat (Z.of_nat ni) 0;
          SysOpen (Destination args) wr_flags (Z.of_nat no);
          SysFstat (Z.of_nat no) 0;
          SysClose (Z.of_nat ni); SysClose (Z.of_nat no);
          SysRemove (Destination args);
          SysRename (Source args) (Destination args) r]
           ++ progress_call args (Z.of_nat (length sdata)) (Z.of_nat (length sdata))
           ++ [success_call args] /\
       fds w' = fds w /\
       (r = 0 -> Source args <> Destination args ->
        files w' = <[Destination args := File sdata smode]>
                     (delete (Source args) (files w)))).
Proof.
  intros HA Hsrc Hof Hdev. split.
  - destruct (InitAll_total "move" Move info args w eq_refl HA) as [w' Hrun]. eauto.
  - intros fuel w' Hrun.
    destruct (Move_any _ _ _ _ _ HA Hrun) as (pre & fin & Hshape & _ & Hres).
    rewrite (emitted_shape _ _ _ _ _ _ Hshape).
    assert (Hsz : source_size w args = Z.of_nat (length sdata))
      by (unfold source_size; by rewrite Hsrc).
    destruct Hres as [(? & ? & _ & Hne & _)
                     |[(sdata' & smode' & ni & no & r & Hsrc' & _ & -> & -> & Hfds & Hfiles)
                      |[_ [Hnone|[Hearly|Hne]]]]]; try done.
    + exists ni, no, r. rewrite Hsz, <- app_assoc. split; [done|]. split; [done|].
      intros -> Hpaths. destruct Hfiles as [(_ & _ & ->)|[? _]]; [|done].
      rewrite decide_False by done. congruence.
    + congruence.
    + apply opening_fault_early in Hearly. congruence.
Qed.

Lemma same_device_move_witness :
  Args_new info4 = Ok args4 /\
  files w_plain !! Source args4 = Some (File hello 420) /\
  opening_fault w_plain = false /\
  devs w_plain (Source args4) = devs w_plain (Destination args4) /\
  Move 10 info4 w_plain = Some (outcome (Move 10 info4 w_plain) w_plain) /\
  emitted w_plain (outcome (Move 10 info4 w_plain) w_plain)
  = [SysOpen "a" rd_flags 0; SysFstat 0 0; SysOpen "b" wr_flags 1; SysFstat 1 0;
     SysClose 0; SysClose 1; SysRemove "b"; SysRename "a" "b" 0;
     Call cb1 [JNumber 5; JNumber 5]; Call cb2 [JNull; JBool true]] /\
  files (outcome (Move 10 info4 w_plain) w_plain) = {[ "b" := File hello 420 ]} /\
  (exists fuel w', Move fuel info4 w_plain = Some w') /\
  (forall fuel w',
     Move fuel info4 w_plain = Some w' ->
     exists (ni no : nat) (r : Z),
       emitted w_plain w' =
         [SysOpen (Source args4) rd_flags (Z.of_nat ni);
          SysFstat (Z.of_nat ni) 0;
          SysOpen (Destination args4) wr_flags (Z.of_nat no);
          SysFstat (Z.of_nat no) 0;
          SysClose (Z.of_nat ni); SysClose (Z.of_nat no);
          SysRemove (Destination args4);
          SysRename (Source args4) (Destination args4) r]
           ++ progress_call args4 (Z.of_nat (length hello)) (Z.of_nat (length hello))
           ++ [success_call args4] /\
       fds w' = fds w_plain /\
       (r = 0 -> Source args4 <> Destination args4 ->
        files w' = <[Destination args4 := File hello 420]>
                     (delete (Source args4) (files w_plain)))).
Proof.
  split; [reflexivity|]. split; [reflexivity|]. split; [reflexivity|].
  split; [reflexivity|]. split; [vm_compute; reflexivity|].
  split; [vm_compute; reflexivity|]. split; [vm_compute; reflexivity|].
  apply (same_device_move info4 args4 w_plain hello 420); reflexivity.
Defined.

(** C5: the code breaks the claim.  [Move] ignores the result of [rename]:
    here the rename fails with EACCES (and, in the second run, because
    source and destination are one path and the file was removed the line
    before), and the run still reports (null, true), never an error. *)
Lemma move_rename_failure_reported_as_success :
  (exists w',
     Move 10 info3 (world0 fs_a [NoFault; NoFault; NoFault; NoFault; Errno 13])
     = Some w' /\
     emitted (world0 fs_a [NoFault; NoFault; NoFault; NoFault; Errno 13]) w'
     = [SysOpen "a" rd_flags 0; SysFstat 0 0; SysOpen "b" wr_flags 1; SysFstat 1 0;
        SysClose 0; SysClose 1; SysRemove "b"; SysRename "a" "b" (-1);
        Call cb1 [JNull; JBool true]] /\
     content w' "a" = Some hello /\ content w' "b" = None) /\
  (exists w',
     Move 10 [JString "a"; JString "a"; cb1] (world0 fs_a []) = Some w' /\
     emitted (world0 fs_a []) w'
     = [SysOpen "a" rd_flags 0; SysFstat 0 0; SysOpen "a" wr_flags 1; SysFstat 1 0;
        SysClose 0; SysClose 1; SysRemove "a"; SysRename "a" "a" (-1);
        Call cb1 [JNull; JBool true]] /\
     content w' "a" = None).
Proof.
  split; eexists; (split; [vm_compute; reflexivity|]); by vm_compute.
Qed.

(** C8: the code breaks the claim.  [Copy] ignores the result of the
    [remove] that deletes the source (main.cc 221): here the two paths are
    on two devices and the environment refuses that [remove] with EACCES;
    the move reports (null, true), never an error, and the source file is
    still in place next to its copy. *)
Lemma move_across_reports_success_with_source_in_place :
  exists w',
    Move 10 info3 w_across_kept = Some w' /\
    devs w_across_kept "a" <> devs w_across_kept "b" /\
    emitted w_across_kept w'
    = [SysOpen "a" rd_flags 0; SysFstat 0 0; SysOpen "b" wr_flags 1; SysFstat 1 0;
       SysRead 0 5; SysWrite 1 5; SysRead 0 0; SysClose 0; SysFsync 1; SysClose 1;
       SysRemove "a"; Call cb1 [JNull; JBool true]] /\
    content w' "b" = Some hello /\
    content w' "a" = Some hello.
Proof.
  eexists. split; [vm_compute; reflexivity|]. by vm_compute.
Qed.

(** * Further properties *)

Import OutcomeFacts CallFacts Scenarios.

(** ** The request object *)

(** X1.  The constructor of [Args] raises no exception exactly when the
    first two arguments are non-empty strings, the third is a function and
    a fourth, if there is one, is a function as well; arguments past the
    fourth are ignored.  With three arguments the third is the completion
    callback and no progress is reported; with more, the third is the
    progress callback and the fourth the completion callback. *)
Theorem Args_accepts_exactly (info : list jsval) (args : Args) :
  Args_new info = Ok args <->
  exists (src dst : string) (f : nat) (rest : list jsval),
    info = JString src :: JString dst :: JFunction f :: rest /\
    src <> "" /\ dst <> "" /\
    match rest with
    | [] =>
      args = {| Source := src; Destination := dst;
                ProgressCallback := JFunction f; ResultCallback := JFunction f;
                UpdateProgress := false |}
    | g :: _ =>
      IsFunction g = true /\
      args = {| Source := src; Destination := dst;
                ProgressCallback := JFunction f; ResultCallback := g;
                UpdateProgress := true |}
    end.
Proof.
  split.
  - unfold Args_new.
    destruct info as [|a [|b [|c rest]]]; try done.
    destruct a as [| | | |src|]; try done.
    destruct b as [| | | |dst|]; try done.
    destruct c as [| | | | |f]; try done.
    destruct rest as [|g rest]; simpl.
    + destruct src as [|c1 src]; [done|]. destruct dst as [|c2 dst]; [done|].
      simpl. intros [= <-]. by eexists _, _, _, [].
    + unfold arg. simpl. destruct (IsFunction g) eqn:Hg; simpl; [|done].
      destruct src as [|c1 src]; [done|]. destruct dst as [|c2 dst]; [done|].
      simpl. intros [= <-]. by eexists _, _, _, (g :: rest).
  - intros (src & dst & f & rest & -> & Hs & Hd & Hrest).
    destruct src as [|c1 src]; [done|]. destruct dst as [|c2 dst]; [done|].
    destruct rest as [|g rest].
    + by subst args.
    + destruct Hrest as [Hg ->]. unfold Args_new, arg. simpl. by rewrite Hg.
Qed.

(** X2.  A call with exactly three arguments makes one kind of JavaScript
    call only: every call of the run is a completion call on the third
    argument, and no progress update is emitted. *)
Theorem three_arguments_single_callback (name : string)
    (method : nat -> list jsval -> world -> option world)
    (info : list jsval) (args : Args) (w w' : world) (fuel : nat) :
  InitAll name = Some method ->
  Args_new info = Ok args -> length info = 3%nat ->
  method fuel info w = Some w' ->
  progress_updates (emitted w w') = [] /\
  forall f argv,
    Call f argv ∈ emitted w w' ->
    f = arg info 2 /\ is_completion (Call f argv) = true.
Proof.
  intros Hm HA Hlen Hrun.
  destruct (InitAll_any _ _ _ _ _ _ _ Hm HA Hrun) as (pre & fin & Hshape & Hres).
  destruct (Args_new_slots _ _ HA) as (Hup & _ & Hrc & _).
  rewrite Hlen in Hup, Hrc. change (3 <? 3)%nat with false in Hup, Hrc.
  rewrite (emitted_shape _ _ _ _ _ _ Hshape).
  destruct Hshape as (_ & Hq & _).
  assert (Hnocall : forall f argv, Call f argv ∈ pre -> False).
  { intros f argv Hin. rewrite Forall_forall in Hq. apply Hq in Hin.
    simpl in Hin. destruct Hin as [Hin _]. congruence. }
  assert (Hfin : is_completion fin = true /\ callee_of fin = arg info 2 /\
                 progress_of fin = None).
  { destruct Hres as [[-> _]|(text & pre' & -> & _)]; by rewrite <- Hrc. }
  split.
  - rewrite progress_updates_app.
    assert (progress_updates pre = []) as ->.
    { clear -Hnocall. induction pre as [|e l IH]; [done|].
      unfold progress_updates in *. simpl.
      destruct e as [| | | | | | | |f argv|]; simpl;
        try (apply IH; intros f' a' H'; eapply Hnocall; by right).
      exfalso. eapply Hnocall. by left. }
    unfold progress_updates. simpl. destruct Hfin as (_ & _ & ->). done.
  - intros f argv Hin. apply elem_of_app in Hin as [Hin|Hin].
    + exfalso. by eapply Hnocall.
    + apply list_elem_of_singleton in Hin. subst fin.
      destruct Hfin as (Hc & Hcal & _). done.
Qed.

Lemma three_arguments_single_callback_witness :
  InitAll "move" = Some Move /\
  Args_new info3 = Ok args3 /\ length info3 = 3%nat /\
  Move 10 info3 w_across = Some (outcome (Move 10 info3 w_across) w_across) /\
  progress_updates (emitted w_across (outcome (Move 10 info3 w_across) w_across)) = [] /\
  forall f argv,
    Call f argv ∈ emitted w_across (outcome (Move 10 info3 w_across) w_across) ->
    f = arg info3 2 /\ is_completion (Call f argv) = true.
Proof.
  split; [reflexivity|]. split; [reflexivity|]. split; [reflexivity|].
  split; [vm_compute; reflexivity|].
  apply (three_arguments_single_callback "move" Move info3 args3 w_across _ 10);
    [reflexivity|reflexivity|reflexivity|vm_compute; reflexivity].
Defined.

(** ** What a copy and a move leave alone *)

(** X3.  A copy changes the name space at the destination path only: every
    other path, the source included, holds after the run what it held
    before, whether the copy succeeded or failed. *)
Theorem copy_leaves_other_paths (info : list jsval) (args : Args)
    (w w' : world) (fuel : nat) (path : string) :
  Args_new info = Ok args ->
  Copy_method fuel info w = Some w' ->
  path <> Destination args ->
  files w' !! path = files w !! path.
Proof.
  intros HA Hrun Hne.
  destruct (Copy_files _ _ _ _ _ HA Hrun)
    as (_ & [(_ & _ & sdata & smode & _ & ->)|(_ & _ & Hfiles & _)]).
  - by apply lookup_insert_ne.
  - by apply (off_path _ _ _ _ Hfiles).
Qed.

Lemma copy_leaves_other_paths_witness :
  Args_new info3 = Ok args3 /\
  Copy_method 10 info3 w_full = Some (outcome (Copy_method 10 info3 w_full) w_full) /\
  "a" <> Destination args3 /\
  files (outcome (Copy_method 10 info3 w_full) w_full) !! "a" = files w_full !! "a".
Proof.
  split; [reflexivity|]. split; [vm_compute; reflexivity|]. split; [done|].
  apply (copy_leaves_other_paths info3 args3 w_full _ 10 "a");
    [reflexivity|vm_compute; reflexivity|done].
Defined.

(** X4.  A move changes the name space at its two paths only: every path
    other than the source and the destination holds after the run what it
    held before. *)
Theorem move_leaves_other_paths (info : list jsval) (args : Args)
    (w w' : world) (fuel : nat) (path : string) :
  Args_new info = Ok args ->
  Move fuel info w = Some w' ->
  path <> Source args -> path <> Destination args ->
  files w' !! path = files w !! path.
Proof.
  intros HA Hrun Hs Hd.
  destruct (Move_files _ _ _ _ _ HA Hrun)
    as (_ & [(_ & _ & [(_ & sdata & smode & _ & ->)
                      |(_ & sdata & smode & _ & [(_ & ->)| ->])])
            |(_ & _ & Hfiles & _)]).
  - destruct (remove_refused w); simpl; [|rewrite lookup_delete_ne by done];
      by apply lookup_insert_ne.
  - rewrite lookup_insert_ne by done. by apply lookup_delete_ne.
  - destruct (remove_refused w); [by apply lookup_insert_ne|by apply lookup_delete_ne].
  - by apply (off_path _ _ _ _ Hfiles).
Qed.

Lemma move_leaves_other_paths_witness :
  Args_new info3 = Ok args3 /\
  Move 10 info3 w_bystander2
  = Some (outcome (Move 10 info3 w_bystander2) w_bystander2) /\
  "z" <> Source args3 /\ "z" <> Destination args3 /\
  files (outcome (Move 10 info3 w_bystander2) w_bystander2) !! "z"
  = files w_bystander2 !! "z".
Proof.
  split; [reflexivity|]. split; [vm_compute; reflexivity|].
  split; [done|]. split; [done|].
  apply (move_leaves_other_paths info3 args3 w_bystander2 _ 10 "z");
    [reflexivity|vm_compute; reflexivity|done|done].
Defined.

(** ** Requests that cannot succeed, or should not be made *)

(** X5.  When no file is at the source path, a copy or a move reports
    failure, and whatever file was at the destination path before the call
    is removed; nothing else changes.  When the environment refuses the
    [remove], nothing changes at all. *)
Theorem missing_source_costs_destination (name : string)
    (method : nat -> list jsval -> world -> option world)
    (info : list jsval) (args : Args) (w w' : world) (fuel : nat) :
  InitAll name = Some method ->
  Args_new info = Ok args ->
  files w !! Source args = None ->
  method fuel info w = Some w' ->
  signals_failure (emitted w w') = true /\
  signals_success (emitted w w') = false /\
  files w' = if remove_refused w then files w else delete (Destination args) (files w).
Proof.
  intros Hm HA Hnone Hrun.
  destruct (open (Source args) rd_flags 0 w) as [r w1] eqn:Hopen.
  assert (Hu : unlinks w1 = unlinks w)
    by (pose proof (unlinks_open (Source args) rd_flags 0 w) as Hu;
        by rewrite Hopen in Hu).
  destruct (open_rd_spec _ _ _ _ _ Hopen)
    as (_ & _ & Hfi & _ & Htr & [(-> & _)|(n & fl & _ & _ & Hsome & _)]);
    [|congruence].
  assert (Some (copyByPathError args w1) = Some w') as [= <-].
  { destruct (InitAll_cases _ _ Hm) as [-> | ->].
    - unfold Copy_method in Hrun. by rewrite HA, Hopen in Hrun.
    - unfold Move in Hrun. by rewrite HA, Hopen in Hrun. }
  assert (Hem : emitted w (copyByPathError args w1)
                = [SysOpen (Source args) rd_flags (-1); SysRemove (Destination args);
                   failure_call args (strerror (errno (remove (Destination args) w1)))]).
  { apply emitted_app. unfold copyByPathError.
    by rewrite trace_SendError, trace_remove, Htr, <- !app_assoc. }
  rewrite Hem. split; [done|]. split; [done|].
  unfold copyByPathError, SendError. simpl.
  rewrite files_remove, (remove_refused_unlinks w) by done. by rewrite Hfi.
Qed.

Lemma missing_source_costs_destination_witness :
  InitAll "copy" = Some Copy_method /\
  Args_new info3 = Ok args3 /\
  files w_no_source !! Source args3 = None /\
  files w_no_source !! Destination args3 = Some (File [x62] 420) /\
  Copy_method 10 info3 w_no_source
  = Some (outcome (Copy_method 10 info3 w_no_source) w_no_source) /\
  files (outcome (Copy_method 10 info3 w_no_source) w_no_source) !! Destination args3
  = None /\
  signals_failure
    (emitted w_no_source (outcome (Copy_method 10 info3 w_no_source) w_no_source)) = true /\
  signals_success
    (emitted w_no_source (outcome (Copy_method 10 info3 w_no_source) w_no_source)) = false /\
  files (outcome (Copy_method 10 info3 w_no_source) w_no_source)
  = if remove_refused w_no_source then files w_no_source
    else delete (Destination args3) (files w_no_source).
Proof.
  split; [reflexivity|]. split; [reflexivity|]. split; [reflexivity|].
  split; [reflexivity|]. split; [vm_compute; reflexivity|].
  split; [vm_compute; reflexivity|].
  apply (missing_source_costs_destination "copy" Copy_method info3 args3 w_no_source _ 10);
    [reflexivity|reflexivity|reflexivity|vm_compute; reflexivity].
Defined.

(** X6.  A copy of a file onto its own path that reports success leaves
    the file empty (the destination is truncated before the first read).
    One that reports a failure leaves no file at the path, unless the
    environment refuses the [remove] of the cleanup. *)
Theorem copy_onto_itself_loses_content (info : list jsval) (args : Args)
    (w w' : world) (fuel : nat) :
  Args_new info = Ok args ->
  Source args = Destination args ->
  Copy_method fuel info w = Some w' ->
  (signals_success (emitted w w') = true -> content w' (Source args) = Some []) /\
  (signals_success (emitted w w') = false -> remove_refused w = false ->
   content w' (Source args) = None).
Proof.
  intros HA Heq Hrun. unfold content.
  destruct (Copy_files _ _ _ _ _ HA Hrun)
    as (_ & [(-> & _ & sdata & smode & _ & ->)|(-> & _ & _ & Hgone)]).
  - split; [intros _|done]. rewrite Heq at 1. rewrite lookup_insert_eq. simpl.
    by destruct (decide (Source args = Destination args)).
  - split; [done|]. intros _ Hok. by rewrite Heq, (Hgone Hok).
Qed.

Lemma copy_onto_itself_loses_content_witness :
  Args_new info_self = Ok args_self /\
  Source args_self = Destination args_self /\
  Copy_method 10 info_self w_plain
  = Some (outcome (Copy_method 10 info_self w_plain) w_plain) /\
  content w_plain (Source args_self) = Some hello /\
  signals_success
    (emitted w_plain (outcome (Copy_method 10 info_self w_plain) w_plain)) = true /\
  content (outcome (Copy_method 10 info_self w_plain) w_plain) (Source args_self)
  = Some [].
Proof.
  split; [reflexivity|]. split; [reflexivity|]. split; [vm_compute; reflexivity|].
  split; [reflexivity|]. split; [vm_compute; reflexivity|].
  destruct (copy_onto_itself_loses_content info_self args_self w_plain
              (outcome (Copy_method 10 info_self w_plain) w_plain) 10)
    as [Hempty _]; [reflexivity|reflexivity|vm_compute; reflexivity|].
  apply Hempty. vm_compute; reflexivity.
Defined.

(** X7.  A move of a file onto its own path deletes the file: after every
    run whose [remove] the environment does not refuse, no file is at the
    path, and when no call is made to fail and the file existed, the run
    reports success all the same.  When the [remove] is refused, such a
    run leaves the file in place and empty. *)
Theorem move_onto_itself_deletes_file (info : list jsval) (args : Args)
    (w w' : world) (fuel : nat) :
  Args_new info = Ok args ->
  Source args = Destination args ->
  Move fuel info w = Some w' ->
  (remove_refused w = false -> files w' !! Source args = None) /\
  (faults w = [] -> is_Some (files w !! Source args) ->
   signals_success (emitted w w') = true /\
   content w' (Source args) = if remove_refused w then Some [] else None).
Proof.
  intros HA Heq Hrun. unfold content.
  destruct (Move_files _ _ _ _ _ HA Hrun) as (Hun & Hres).
  destruct Hres
    as [(_ & _ & [(Hdev & _)|(_ & sdata & smode & _ & [(Hself & ->)| ->])])
       |(Hs & _ & _ & Hgone)].
  - by rewrite Heq in Hdev.
  - rewrite (Hself Heq). split; [done|]. intros Hnil Hsome.
    split; [by apply Hun|]. rewrite Heq at 1. rewrite lookup_insert_eq. simpl.
    by destruct (decide (Source args = Destination args)).
  - split.
    + intros ->. rewrite Heq. apply lookup_delete_eq.
    + intros Hnil Hsome. split; [by apply Hun|]. rewrite Heq.
      destruct (remove_refused w); [by rewrite lookup_insert_eq|].
      by rewrite lookup_delete_eq.
  - split; [intros Hok; by rewrite Heq, (Hgone Hok)|].
    intros Hnil Hsome. rewrite (Hun Hnil Hsome) in Hs. discriminate Hs.
Qed.

Lemma move_onto_itself_deletes_file_witness :
  (Args_new info_self = Ok args_self /\
   Source args_self = Destination args_self /\
   Move 10 info_self w_plain = Some (outcome (Move 10 info_self w_plain) w_plain) /\
   files w_plain !! Source args_self = Some (File hello 420) /\
   remove_refused w_plain = false /\
   signals_success
     (emitted w_plain (outcome (Move 10 info_self w_plain) w_plain)) = true /\
   files (outcome (Move 10 info_self w_plain) w_plain) !! Source args_self = None) /\
  (Move 10 info_self w_plain_kept
   = Some (outcome (Move 10 info_self w_plain_kept) w_plain_kept) /\
   remove_refused w_plain_kept = true /\
   signals_success
     (emitted w_plain_kept (outcome (Move 10 info_self w_plain_kept) w_plain_kept))
   = true /\
   content (outcome (Move 10 info_self w_plain_kept) w_plain_kept) (Source args_self)
   = Some []).
Proof.
  split.
  - split; [reflexivity|]. split; [reflexivity|]. split; [vm_compute; reflexivity|].
    split; [reflexivity|]. split; [reflexivity|]. split; [vm_compute; reflexivity|].
    destruct (move_onto_itself_deletes_file info_self args_self w_plain
                (outcome (Move 10 info_self w_plain) w_plain) 10)
      as [Hgone _]; [reflexivity|reflexivity|vm_compute; reflexivity|].
    apply Hgone. reflexivity.
  - split; [vm_compute; reflexivity|]. split; [reflexivity|].
    destruct (move_onto_itself_deletes_file info_self args_self w_plain_kept
                (outcome (Move 10 info_self w_plain_kept) w_plain_kept) 10)
      as [_ Hrun]; [reflexivity|reflexivity|vm_compute; reflexivity|].
    apply Hrun; [reflexivity|by eexists].
Defined.

(** ** Runs that nothing disturbs *)

(** X8.  When no call is made to fail and a file is at the source path, a
    copy to a different path finishes, reports success, and leaves the
    bytes the source had before the call at both paths. *)
Theorem copy_succeeds_undisturbed (info : list jsval) (args : Args)
    (w : world) (sdata : list byte) (smode : Z) :
  Args_new info = Ok args ->
  faults w = [] ->
  files w !! Source args = Some (File sdata smode) ->
  Source args <> Destination args ->
  (exists w', Copy_method (enough_fuel w args) info w = Some w') /\
  forall fuel w',
    Copy_method fuel info w = Some w' ->
    signals_success (emitted w w') = true /\
    signals_failure (emitted w w') = false /\
    content w' (Destination args) = Some sdata /\
    content w' (Source args) = Some sdata.
Proof.
  intros HA Hnil Hsrc Hne. split.
  - destruct (Copy_method_spec info args w (enough_fuel w args) HA)
      as (w' & _ & _ & Hrun & _); [lia|]. by exists w'.
  - intros fuel w' Hrun.
    destruct (Copy_files _ _ _ _ _ HA Hrun) as (Hun & Hres).
    specialize (Hun Hnil ltac:(by eexists)).
    destruct Hres as [(_ & Hf & sdata' & smode' & Hsrc' & Hfiles)|(Hs & _)];
      [|congruence].
    rewrite Hsrc in Hsrc'. injection Hsrc' as <- <-.
    split; [done|]. split; [done|]. unfold content. rewrite Hfiles.
    rewrite lookup_insert_eq, lookup_insert_ne by done. rewrite Hsrc. simpl.
    by destruct (decide (Source args = Destination args)).
Qed.

Lemma copy_succeeds_undisturbed_witness :
  Args_new info3 = Ok args3 /\
  faults w_plain = [] /\
  files w_plain !! Source args3 = Some (File hello 420) /\
  Source args3 <> Destination args3 /\
  (exists w', Copy_method (enough_fuel w_plain args3) info3 w_plain = Some w') /\
  forall fuel w',
    Copy_method fuel info3 w_plain = Some w' ->
    signals_success (emitted w_plain w') = true /\
    signals_failure (emitted w_plain w') = false /\
    content w' (Destination args3) = Some hello /\
    content w' (Source args3) = Some hello.
Proof.
  split; [reflexivity|]. split; [reflexivity|]. split; [reflexivity|].
  split; [done|].
  apply (copy_succeeds_undisturbed info3 args3 w_plain hello 420);
    [reflexivity|reflexivity|reflexivity|done].
Defined.

(** X9.  When no call is made to fail, no [remove] is refused and a file
    is at the source path, a move to a different path finishes and reports
    success: the destination holds the bytes the source had, and no file is
    left at the source path.  On one device the destination also takes over
    the source's mode bits; across devices it keeps its own if it existed,
    and is created with the source's mode less the umask bits otherwise. *)
Theorem move_succeeds_undisturbed (info : list jsval) (args : Args)
    (w : world) (sdata : list byte) (smode : Z) :
  Args_new info = Ok args ->
  faults w = [] ->
  remove_refused w = false ->
  files w !! Source args = Some (File sdata smode) ->
  Source args <> Destination args ->
  (exists w', Move (enough_fuel w args) info w = Some w') /\
  forall fuel w',
    Move fuel info w = Some w' ->
    signals_success (emitted w w') = true /\
    signals_failure (emitted w w') = false /\
    files w' !! Source args = None /\
    content w' (Destination args) = Some sdata /\
    mode_of w' (Destination args)
    = Some (if decide (devs w (Source args) = devs w (Destination args))
            then smode
            else mode_after_create w (Destination args) smode).
Proof.
  intros HA Hnil Hok Hsrc Hne. split.
  - destruct (Move_spec info args w (enough_fuel w args) HA)
      as (w' & _ & _ & Hrun & _); [lia|]. by exists w'.
  - intros fuel w' Hrun.
    destruct (Move_any _ _ _ _ _ HA Hrun) as (pre & fin & Hshape & Hun & Hres).
    destruct (Move_calls _ _ _ _ _ HA Hrun) as [Hcalls _].
    specialize (Hun Hnil ltac:(by eexists)). subst fin.
    rewrite (signals_success_shape _ _ _ _ _ _ Hshape),
      (signals_failure_shape _ _ _ _ _ _ Hshape).
    split; [done|]. split; [done|]. unfold content, mode_of.
    destruct Hres as [(sdata' & smode' & Hsrc' & Hdev & _ & -> & _)
                     |[(sdata' & smode' & ni & no & r & Hsrc' & Hdev & _ & Hpre & _ & Hr)
                      |[(text & pre' & Hfin & _) _]]]; [| |done].
    + rewrite Hsrc in Hsrc'. injection Hsrc' as <- <-. rewrite Hok.
      rewrite lookup_delete_eq, lookup_delete_ne, lookup_insert_eq by done.
      by destruct (decide _).
    + rewrite Hsrc in Hsrc'. injection Hsrc' as <- <-.
      assert (r = 0) as ->.
      { rewrite (emitted_shape _ _ _ _ _ _ Hshape), Hpre in Hcalls.
        destruct Hcalls as [(text & [Hf|(ni' & [Hf|Hf])])
                           |(ni' & no' & [(text & Hf)
                                         |[(_ & r' & Hf & Hr')|(Hdev' & _)]])];
          try discriminate Hf; [|done].
        injection Hf as _ _ _ _ _ _ ->.
        destruct Hr' as [?|(_ & [?|(e & He)])]; [done|done|].
        by rewrite Hnil in He. }
      destruct Hr as [(_ & _ & ->)|(? & _)]; [|done].
      rewrite lookup_insert_ne, lookup_delete_eq, lookup_insert_eq by done.
      rewrite (decide_False (P := Source args = Destination args)) by done.
      by destruct (decide _).
Qed.

Lemma move_succeeds_undisturbed_witness :
  Args_new info3 = Ok args3 /\
  faults w_plain = [] /\
  remove_refused w_plain = false /\
  files w_plain !! Source args3 = Some (File hello 420) /\
  Source args3 <> Destination args3 /\
  (exists w', Move (enough_fuel w_plain args3) info3 w_plain = Some w') /\
  forall fuel w',
    Move fuel info3 w_plain = Some w' ->
    signals_success (emitted w_plain w') = true /\
    signals_failure (emitted w_plain w') = false /\
    files w' !! Source args3 = None /\
    content w' (Destination args3) = Some hello /\
    mode_of w' (Destination args3)
    = Some (if decide (devs w_plain (Source args3) = devs w_plain (Destination args3))
            then 420
            else mode_after_create w_plain (Destination args3) 420).
Proof.
  split; [reflexivity|]. split; [reflexivity|]. split; [reflexivity|].
  split; [reflexivity|]. split; [done|].
  apply (move_succeeds_undisturbed info3 args3 w_plain hello 420);
    [reflexivity|reflexivity|reflexivity|reflexivity|done].
Defined.

(** ** Copies in sequence *)

(** X10.  Two successful copies in a row, the second reading what the
    first wrote, carry the content along: after a -> b and then b -> c,
    the paths b and c both hold the bytes that a held before the first
    call. *)
Theorem copy_of_a_copy (info1 info2 : list jsval) (args1 args2 : Args)
    (w w1 w2 : world) (fuel1 fuel2 : nat) :
  Args_new info1 = Ok args1 -> Args_new info2 = Ok args2 ->
  Source args2 = Destination args1 ->
  Source args1 <> Destination args1 ->
  Source args2 <> Destination args2 ->
  Copy_method fuel1 info1 w = Some w1 ->
  signals_success (emitted w w1) = true ->
  Copy_method fuel2 info2 w1 = Some w2 ->
  signals_success (emitted w1 w2) = true ->
  is_Some (content w (Source args1)) /\
  content w2 (Destination args2) = content w (Source args1) /\
  content w2 (Destination args1) = content w (Source args1).
Proof.
  intros HA1 HA2 Hlink Hne1 Hne2 Hrun1 Hs1 Hrun2 Hs2.
  destruct (Copy_files _ _ _ _ _ HA1 Hrun1)
    as (_ & [(_ & _ & d1 & m1 & Hsrc1 & Hf1)|(Hs & _)]); [|congruence].
  destruct (Copy_files _ _ _ _ _ HA2 Hrun2)
    as (_ & [(_ & _ & d2 & m2 & Hsrc2 & Hf2)|(Hs & _)]); [|congruence].
  destruct (decide (Source args1 = Destination args1)) as [?|_]; [done|].
  destruct (decide (Source args2 = Destination args2)) as [?|_]; [done|].
  rewrite Hf1, Hlink, lookup_insert_eq in Hsrc2. injection Hsrc2 as <- <-.
  unfold content. rewrite Hsrc1. simpl. split; [by eexists|].
  rewrite Hf2, lookup_insert_eq. split; [done|].
  rewrite <- Hlink, lookup_insert_ne by done.
  rewrite Hf1, Hlink, lookup_insert_eq. done.
Qed.

Lemma copy_of_a_copy_witness :
  Args_new info3 = Ok args3 /\ Args_new info_bc = Ok args_bc /\
  Source args_bc = Destination args3 /\
  Source args3 <> Destination args3 /\
  Source args_bc <> Destination args_bc /\
  Copy_method 10 info3 w_short = Some w_copied /\
  signals_success (emitted w_short w_copied) = true /\
  Copy_method 10 info_bc w_copied = Some w_copied_twice /\
  signals_success (emitted w_copied w_copied_twice) = true /\
  is_Some (content w_short (Source args3)) /\
  content w_copied_twice (Destination args_bc) = content w_short (Source args3) /\
  content w_copied_twice (Destination args3) = content w_short (Source args3).
Proof.
  split; [reflexivity|]. split; [reflexivity|]. split; [reflexivity|].
  split; [done|]. split; [done|].
  split; [vm_compute; reflexivity|]. split; [vm_compute; reflexivity|].
  split; [vm_compute; reflexivity|]. split; [vm_compute; reflexivity|].
  apply (copy_of_a_copy info3 info_bc args3 args_bc w_short w_copied w_copied_twice 10 10);
    [reflexivity|reflexivity|reflexivity|done|done
    |vm_compute; reflexivity|vm_compute; reflexivity
    |vm_compute; reflexivity|vm_compute; reflexivity].
Defined.

(** ** Progress reports *)

(** X11.  A run reports progress at most 100 times, whatever the size of
    the file and however short the reads are: an update is due only once
    more than a hundredth of the size has been read since the last one,
    and one more follows the loop. *)
Theorem progress_reports_at_most_100 (name : string)
    (method : nat -> list jsval -> world -> option world)
    (info : list jsval) (args : Args) (w w' : world) (fuel : nat) :
  InitAll name = Some method ->
  Args_new info = Ok args ->
  method fuel info w = Some w' ->
  (length (progress_updates (emitted w w')) <= 100)%nat.
Proof.
  intros Hm HA Hrun.
  pose proof (completed_within _ _ _ _ _ _ _ Hm HA Hrun) as Hall.
  pose proof (source_size_nonneg w args) as Hnn.
  destruct (InitAll_cases _ _ Hm) as [-> | ->].
  - destruct (Copy_method_calls _ _ _ _ _ HA Hrun) as [Hcalls _].
    destruct Hcalls as [(text & [Hf|(ni & [Hf|Hf])])|(ni & no & rest & Hf & Hstr)];
      rewrite Hf in *; try (simpl; lia).
    apply (streamed_reading _ _ _ _ _ _ Hstr Hnn Hall).
  - destruct (Move_calls _ _ _ _ _ HA Hrun) as [Hcalls _].
    destruct Hcalls as [(text & [Hf|(ni & [Hf|Hf])])
                       |(ni & no & [(text & Hf)
                                   |[(_ & r & Hf & _)|(_ & rest & Hf & Hstr)]])];
      rewrite Hf in *; try (simpl; lia).
    + unfold opened. simpl. unfold progress_updates, progress_call.
      destruct (UpdateProgress args); simpl; lia.
    + apply (streamed_reading _ _ _ _ _ _ Hstr Hnn Hall).
Qed.

Lemma progress_reports_at_most_100_witness :
  InitAll "copy" = Some Copy_method /\
  Args_new info4 = Ok args4 /\
  Copy_method 10 info4 w_short = Some (outcome (Copy_method 10 info4 w_short) w_short) /\
  progress_updates (emitted w_short (outcome (Copy_method 10 info4 w_short) w_short))
  = [(2, 5); (5, 5); (5, 5)] /\
  (length (progress_updates
             (emitted w_short (outcome (Copy_method 10 info4 w_short) w_short)))
   <= 100)%nat.
Proof.
  split; [reflexivity|]. split; [reflexivity|]. split; [vm_compute; reflexivity|].
  split; [vm_compute; reflexivity|].
  apply (progress_reports_at_most_100 "copy" Copy_method info4 args4 w_short _ 10);
    [reflexivity|reflexivity|vm_compute; reflexivity].
Defined.

(** X12.  For an empty source file the only progress update is (0, 0): a
    run that reports success emits it once, when a progress callback was
    given, and no other run emits any. *)
Theorem empty_source_progress (name : string)
    (method : nat -> list jsval -> world -> option world)
    (info : list jsval) (args : Args) (w w' : world) (fuel : nat) (smode : Z) :
  InitAll name = Some method ->
  Args_new info = Ok args ->
  files w !! Source args = Some (File [] smode) ->
  method fuel info w = Some w' ->
  progress_updates (emitted w w')
  = if signals_success (emitted w w') && UpdateProgress args then [(0, 0)] else [].
Proof.
  intros Hm HA Hsrc Hrun.
  pose proof (completed_within _ _ _ _ _ _ _ Hm HA Hrun) as Hall.
  assert (Hsz : source_size w args = 0) by (unfold source_size; by rewrite Hsrc).
  rewrite Hsz in Hall. unfold signals_success.
  destruct (InitAll_cases _ _ Hm) as [-> | ->].
  - destruct (Copy_method_calls _ _ _ _ _ HA Hrun) as [Hcalls _].
    rewrite Hsz in Hcalls.
    destruct Hcalls as [(text & [Hf|(ni & [Hf|Hf])])|(ni & no & rest & Hf & Hstr)];
      rewrite Hf in *; try done.
    by apply (streamed_reading _ _ _ _ _ _ Hstr ltac:(lia) Hall).
  - destruct (Move_calls _ _ _ _ _ HA Hrun) as [Hcalls _].
    rewrite Hsz in Hcalls.
    destruct Hcalls as [(text & [Hf|(ni & [Hf|Hf])])
                       |(ni & no & [(text & Hf)
                                   |[(_ & r & Hf & _)|(_ & rest & Hf & Hstr)]])];
      rewrite Hf in *; try done.
    + unfold opened. simpl. unfold progress_updates, progress_call.
      by destruct (UpdateProgress args).
    + by apply (streamed_reading _ _ _ _ _ _ Hstr ltac:(lia) Hall).
Qed.

Lemma empty_source_progress_witness :
  InitAll "copy" = Some Copy_method /\
  Args_new info4 = Ok args4 /\
  files w_empty !! Source args4 = Some (File [] 420) /\
  Copy_method 10 info4 w_empty = Some (outcome (Copy_method 10 info4 w_empty) w_empty) /\
  progress_updates (emitted w_empty (outcome (Copy_method 10 info4 w_empty) w_empty))
  = [(0, 0)] /\
  progress_updates (emitted w_empty (outcome (Copy_method 10 info4 w_empty) w_empty))
  = if signals_success (emitted w_empty (outcome (Copy_method 10 info4 w_empty) w_empty))
       && UpdateProgress args4
    then [(0, 0)] else [].
Proof.
  split; [reflexivity|]. split; [reflexivity|]. split; [reflexivity|].
  split; [vm_compute; reflexivity|]. split; [vm_compute; reflexivity|].
  apply (empty_source_progress "copy" Copy_method info4 args4 w_empty _ 10 420);
    [reflexivity|reflexivity|reflexivity|vm_compute; reflexivity].
Defined.

(** ** Descriptors *)

(** X13.  No run leaks a descriptor: when a copy or a move has finished,
    on whichever path, the descriptor table is what it was before the
    call. *)
Theorem descriptors_restored (name : string)
    (method : nat -> list jsval -> world -> option world)
    (info : list jsval) (args : Args) (w w' : world) (fuel : nat) :
  InitAll name = Some method ->
  Args_new info = Ok args ->
  method fuel info w = Some w' ->
  fds w' = fds w.
Proof.
  intros Hm HA Hrun. destruct (InitAll_cases _ _ Hm) as [-> | ->].
  - by destruct (Copy_method_calls _ _ _ _ _ HA Hrun) as (_ & ? & _).
  - by destruct (Move_calls _ _ _ _ _ HA Hrun).
Qed.

Lemma descriptors_restored_witness :
  InitAll "move" = Some Move /\
  Args_new info3 = Ok args3 /\
  Move 10 info3 w_held = Some (outcome (Move 10 info3 w_held) w_held) /\
  signals_failure (emitted w_held (outcome (Move 10 info3 w_held) w_held)) = true /\
  fds w_held = {[ 0%nat := Ofd "z" 1 false ]} /\
  fds (outcome (Move 10 info3 w_held) w_held) = fds w_held.
Proof.
  split; [reflexivity|]. split; [reflexivity|]. split; [vm_compute; reflexivity|].
  split; [vm_compute; reflexivity|]. split; [reflexivity|].
  apply (descriptors_restored "move" Move info3 args3 w_held _ 10);
    [reflexivity|reflexivity|vm_compute; reflexivity].
Defined.

(** X14.  Every [remove] and [rename] of a run is called while the run
    holds no descriptor: counting the successful [open] calls up and the
    [close] calls down along the log, the count is 0 at each of them, and
    0 again at the end. *)
Theorem unlinks_only_when_closed (name : string)
    (method : nat -> list jsval -> world -> option world)
    (info : list jsval) (args : Args) (w w' : world) (fuel : nat) :
  InitAll name = Some method ->
  Args_new info = Ok args ->
  method fuel info w = Some w' ->
  closed_at_unlinks 0 (emitted w w') = true.
Proof.
  intros Hm HA Hrun.
  pose proof (completed_within _ _ _ _ _ _ _ Hm HA Hrun) as Hall.
  pose proof (source_size_nonneg w args) as Hnn.
  destruct (InitAll_cases _ _ Hm) as [-> | ->].
  - destruct (Copy_method_calls _ _ _ _ _ HA Hrun) as [Hcalls _].
    destruct Hcalls as [(text & [Hf|(ni & [Hf|Hf])])|(ni & no & rest & Hf & Hstr)];
      rewrite Hf in *; simpl; rewrite ?of_nat_not_neg; try done.
    apply (streamed_reading _ _ _ _ _ _ Hstr Hnn Hall).
  - destruct (Move_calls _ _ _ _ _ HA Hrun) as [Hcalls _].
    destruct Hcalls as [(text & [Hf|(ni & [Hf|Hf])])
                       |(ni & no & [(text & Hf)
                                   |[(_ & r & Hf & _)|(_ & rest & Hf & Hstr)]])];
      rewrite Hf in *; simpl; rewrite ?of_nat_not_neg; try done.
    + by rewrite closed_at_unlinks_progress.
    + apply (streamed_reading _ _ _ _ _ _ Hstr Hnn Hall).
Qed.

Lemma unlinks_only_when_closed_witness :
  InitAll "move" = Some Move /\
  Args_new info3 = Ok args3 /\
  Move 10 info3 w_move_short
  = Some (outcome (Move 10 info3 w_move_short) w_move_short) /\
  SysRemove "a" ∈ emitted w_move_short (outcome (Move 10 info3 w_move_short) w_move_short) /\
  closed_at_unlinks 0
    (emitted w_move_short (outcome (Move 10 info3 w_move_short) w_move_short)) = true.
Proof.
  split; [reflexivity|]. split; [reflexivity|]. split; [vm_compute; reflexivity|].
  split; [vm_compute; set_solver|].
  apply (unlinks_only_when_closed "move" Move info3 args3 w_move_short _ 10);
    [reflexivity|reflexivity|vm_compute; reflexivity].
Defined.

(** ** The calls of a successful run *)

(** X15.  A copy that reports success has made exactly these calls, in
    this order: open and fstat on the source, open on the destination,
    then reads on the source descriptor, writes on the destination
    descriptor and progress calls, then the final progress call, close
    on the source, fsync and close on the destination, and the completion
    call last. *)
Theorem successful_copy_calls (info : list jsval) (args : Args)
    (w w' : world) (fuel : nat) :
  Args_new info = Ok args ->
  Copy_method fuel info w = Some w' ->
  signals_success (emitted w w') = true ->
  exists (ni no : nat) (loop : list event),
    Forall (loop_event (Z.of_nat ni) (Z.of_nat no) args (source_size w args)) loop /\
    emitted w w' =
      [SysOpen (Source args) rd_flags (Z.of_nat ni); SysFstat (Z.of_nat ni) 0;
       SysOpen (Destination args) wr_flags (Z.of_nat no)]
      ++ loop
      ++ progress_call args (source_size w args) (source_size w args)
      ++ [SysClose (Z.of_nat ni); SysFsync (Z.of_nat no); SysClose (Z.of_nat no);
          success_call args].
Proof.
  intros HA Hrun Hs. unfold signals_success in Hs.
  destruct (Copy_method_calls _ _ _ _ _ HA Hrun) as [Hcalls _].
  destruct Hcalls as [(text & [Hf|(ni & [Hf|Hf])])|(ni & no & rest & Hf & Hstr)];
    rewrite Hf in *; try done.
  destruct Hstr as (loop & Hloop & _ & [->|[text ->]]).
  - by exists ni, no, loop.
  - simpl in Hs. by rewrite existsb_app, (loop_no_success _ _ _ _ _ Hloop) in Hs.
Qed.

Lemma successful_copy_calls_witness :
  Args_new info3 = Ok args3 /\
  Copy_method 10 info3 w_short = Some (outcome (Copy_method 10 info3 w_short) w_short) /\
  signals_success (emitted w_short (outcome (Copy_method 10 info3 w_short) w_short))
  = true /\
  exists (ni no : nat) (loop : list event),
    Forall (loop_event (Z.of_nat ni) (Z.of_nat no) args3 (source_size w_short args3)) loop /\
    emitted w_short (outcome (Copy_method 10 info3 w_short) w_short) =
      [SysOpen (Source args3) rd_flags (Z.of_nat ni); SysFstat (Z.of_nat ni) 0;
       SysOpen (Destination args3) wr_flags (Z.of_nat no)]
      ++ loop
      ++ progress_call args3 (source_size w_short args3) (source_size w_short args3)
      ++ [SysClose (Z.of_nat ni); SysFsync (Z.of_nat no); SysClose (Z.of_nat no);
          success_call args3].
Proof.
  split; [reflexivity|]. split; [vm_compute; reflexivity|].
  split; [vm_compute; reflexivity|].
  apply (successful_copy_calls info3 args3 w_short _ 10);
    [reflexivity|vm_compute; reflexivity|vm_compute; reflexivity].
Defined.

(** X16.  A move across devices that reports success removes the source
    last of all: after the final progress call come close on the source,
    fsync and close on the destination, then [remove] on the source path,
    and only then the completion call.  Before them the run has opened
    and stat'ed both files and made reads on the source descriptor, writes
    on the destination descriptor and progress calls, nothing else. *)
Theorem successful_move_across_calls (info : list jsval) (args : Args)
    (w w' : world) (fuel : nat) :
  Args_new info = Ok args ->
  devs w (Source args) <> devs w (Destination args) ->
  Move fuel info w = Some w' ->
  signals_success (emitted w w') = true ->
  exists (ni no : nat) (loop : list event),
    Forall (loop_event (Z.of_nat ni) (Z.of_nat no) args (source_size w args)) loop /\
    emitted w w' =
      [SysOpen (Source args) rd_flags (Z.of_nat ni); SysFstat (Z.of_nat ni) 0;
       SysOpen (Destination args) wr_flags (Z.of_nat no); SysFstat (Z.of_nat no) 0]
      ++ loop
      ++ progress_call args (source_size w args) (source_size w args)
      ++ [SysClose (Z.of_nat ni); SysFsync (Z.of_nat no); SysClose (Z.of_nat no);
          SysRemove (Source args); success_call args].
Proof.
  intros HA Hdev Hrun Hs. unfold signals_success in Hs.
  destruct (Move_calls _ _ _ _ _ HA Hrun) as [Hcalls _].
  destruct Hcalls as [(text & [Hf|(ni & [Hf|Hf])])
                     |(ni & no & [(text & Hf)
                                 |[(Hdev' & _)|(_ & rest & Hf & Hstr)]])];
    try rewrite Hf in *; try done.
  destruct Hstr as (loop & Hloop & _ & [->|[text ->]]).
  - by exists ni, no, loop.
  - simpl in Hs. by rewrite existsb_app, (loop_no_success _ _ _ _ _ Hloop) in Hs.
Qed.

Lemma successful_move_across_calls_witness :
  Args_new info3 = Ok args3 /\
  devs w_move_short (Source args3) <> devs w_move_short (Destination args3) /\
  Move 10 info3 w_move_short
  = Some (outcome (Move 10 info3 w_move_short) w_move_short) /\
  signals_success
    (emitted w_move_short (outcome (Move 10 info3 w_move_short) w_move_short)) = true /\
  exists (ni no : nat) (loop : list event),
    Forall (loop_event (Z.of_nat ni) (Z.of_nat no) args3
              (source_size w_move_short args3)) loop /\
    emitted w_move_short (outcome (Move 10 info3 w_move_short) w_move_short) =
      [SysOpen (Source args3) rd_flags (Z.of_nat ni); SysFstat (Z.of_nat ni) 0;
       SysOpen (Destination args3) wr_flags (Z.of_nat no); SysFstat (Z.of_nat no) 0]
      ++ loop
      ++ progress_call args3 (source_size w_move_short args3)
           (source_size w_move_short args3)
      ++ [SysClose (Z.of_nat ni); SysFsync (Z.of_nat no); SysClose (Z.of_nat no);
          SysRemove (Source args3); success_call args3].
Proof.
  split; [reflexivity|]. split; [by vm_compute|].
  split; [vm_compute; reflexivity|]. split; [vm_compute; reflexivity|].
  apply (successful_move_across_calls info3 args3 w_move_short _ 10);
    [reflexivity|by vm_compute|vm_compute; reflexivity|vm_compute; reflexivity].
Defined.

(** ** Error texts *)

(** X17.  When the first [open] fails with error number [e], the text
    handed to the completion callback describes [e] only if a file was at
    the destination path and the [remove] of the cleanup took it away.
    When none was, that [remove] fails and overwrites errno before it is
    read, and the text is that of ENOENT whatever [e] was; when the
    environment refuses the [remove], the text is that of its error. *)
Theorem source_open_error_text (name : string)
    (method : nat -> list jsval -> world -> option world)
    (info : list jsval) (args : Args) (w w' : world) (fuel : nat)
    (e : Z) (script : list fault) :
  InitAll name = Some method ->
  Args_new info = Ok args ->
  faults w = Errno e :: script ->
  method fuel info w = Some w' ->
  emitted w w' =
    [SysOpen (Source args) rd_flags (-1); SysRemove (Destination args);
     failure_call args
       (strerror (match files w !! Destination args with
                  | Some _ => match unlinks w with Errno e' :: _ => e' | _ => e end
                  | None => ENOENT
                  end))].
Proof.
  intros Hm HA Hfa Hrun. apply emitted_app.
  assert (Hopen : open (Source args) rd_flags 0 w
                  = (-1, log (SysOpen (Source args) rd_flags (-1))
                           (set_errno e (set_faults script w)))).
  { unfold open, next_fault. by rewrite Hfa. }
  assert (Some (copyByPathError args
                  (log (SysOpen (Source args) rd_flags (-1))
                     (set_errno e (set_faults script w)))) = Some w') as Hw'.
  { destruct (InitAll_cases _ _ Hm) as [-> | ->].
    - unfold Copy_method in Hrun. by rewrite HA, Hopen in Hrun.
    - unfold Move in Hrun. by rewrite HA, Hopen in Hrun. }
  injection Hw' as <-. unfold copyByPathError, remove, next_unlink. simpl.
  destruct (unlinks w) as [|[|e'|k] l]; simpl;
    destruct (files w !! Destination args); simpl; by rewrite <- !app_assoc.
Qed.

Lemma source_open_error_text_witness :
  InitAll "copy" = Some Copy_method /\
  Args_new info3 = Ok args3 /\
  faults w_denied = Errno 13 :: [] /\
  Copy_method 10 info3 w_denied = Some (outcome (Copy_method 10 info3 w_denied) w_denied) /\
  strerror 13 = "Permission denied" /\
  emitted w_denied (outcome (Copy_method 10 info3 w_denied) w_denied) =
    [SysOpen (Source args3) rd_flags (-1); SysRemove (Destination args3);
     failure_call args3 "No such file or directory"] /\
  emitted w_denied (outcome (Copy_method 10 info3 w_denied) w_denied) =
    [SysOpen (Source args3) rd_flags (-1); SysRemove (Destination args3);
     failure_call args3
       (strerror (match files w_denied !! Destination args3 with
                  | Some _ =>
                    match unlinks w_denied with Errno e' :: _ => e' | _ => 13 end
                  | None => ENOENT
                  end))].
Proof.
  split; [reflexivity|]. split; [reflexivity|]. split; [reflexivity|].
  split; [vm_compute; reflexivity|]. split; [reflexivity|].
  split; [vm_compute; reflexivity|].
  apply (source_open_error_text "copy" Copy_method info3 args3 w_denied _ 10 13 []);
    [reflexivity|reflexivity|reflexivity|vm_compute; reflexivity].
Defined.

(** ** The write-retry helper on a file *)

(** X18.  On a descriptor that stands at the end of its file, [doWrite]
    returns within as many [write] calls as the chunk has bytes (one for an
    empty chunk).  Unless a call failed, which takes a scripted fault, it
    has appended the whole chunk, short writes or not, and moved the
    descriptor to the new end; either way no other file is touched. *)
Theorem doWrite_appends_chunk (fuel no : nat) (dst : string) (dmode : Z)
    (data d : list byte) (w : world) :
  fds w !! no = Some (Ofd dst (length d) true) ->
  files w !! dst = Some (File d dmode) ->
  (length data <= fuel)%nat -> (0 < fuel)%nat ->
  exists r w',
    doWrite write fuel (Z.of_nat no) data w = Some (r, w') /\
    (faults w = [] -> r <> -1) /\
    (r <> -1 ->
     files w' !! dst = Some (File (d ++ data) dmode) /\
     fds w' !! no = Some (Ofd dst (length d + length data) true)) /\
    (forall path, path <> dst -> files w' !! path = files w !! path).
Proof.
  intros Hfd Hfile Hlen Hpos.
  destruct (doWrite_world fuel no dst dmode data d w Hfd Hfile Hlen Hpos)
    as (r & w' & evs & Hrun & _ & _ & _ & _ & _ & Hnf & Hres).
  exists r, w'. split; [done|]. split; [intros Hnil; by apply Hnf|].
  destruct Hres as [(-> & d' & ->)|(Hr & -> & Hfd')].
  - split; [done|]. intros path Hne. by apply lookup_insert_ne.
  - split; [intros _; by rewrite lookup_insert_eq|].
    intros path Hne. by apply lookup_insert_ne.
Qed.

Lemma doWrite_appends_chunk_witness :
  fds w_appending !! 3%nat = Some (Ofd "b" (length [x68]) true) /\
  files w_appending !! "b" = Some (File [x68] 420) /\
  (length [x65; x6c; x6c; x6f] <= 4)%nat /\ (0 < 4)%nat /\
  exists r w',
    doWrite write 4 (Z.of_nat 3) [x65; x6c; x6c; x6f] w_appending = Some (r, w') /\
    (faults w_appending = [] -> r <> -1) /\
    (r <> -1 ->
     files w' !! "b" = Some (File ([x68] ++ [x65; x6c; x6c; x6f]) 420) /\
     fds w' !! 3%nat
     = Some (Ofd "b" (length [x68] + length [x65; x6c; x6c; x6f]) true)) /\
    (forall path, path <> "b" -> files w' !! path = files w_appending !! path).
Proof.
  split; [reflexivity|]. split; [reflexivity|]. split; [simpl; lia|]. split; [lia|].
  apply (doWrite_appends_chunk 4 3 "b" 420 [x65; x6c; x6c; x6f] [x68] w_appending);
    [reflexivity|reflexivity|simpl; lia|lia].
Defined.

(** ** A move across devices *)

(** X19.  A move between two devices that signals success leaves the
    destination with the content the source had, and leaves the file
    system as [copy_then_delete] (a copy followed by the deletion of the
    source) leaves it in the same environment; no file is left at the
    source path when the environment does not refuse the [remove]. *)
Theorem move_across_is_copy_then_remove
    (info : list jsval) (args : Args) (w w' : world) (fuel : nat) :
  Args_new info = Ok args ->
  devs w (Source args) <> devs w (Destination args) ->
  Move fuel info w = Some w' ->
  signals_success (emitted w w') = true ->
  is_Some (content w (Source args)) /\
  content w' (Destination args) = content w (Source args) /\
  (remove_refused w = false -> files w' !! Source args = None) /\
  exists fuel_c wc,
    copy_then_delete fuel_c info (set_faults [] w) = Some wc /\
    files w' = files wc.
Proof.
  intros HA Hdev Hrun Hs.
  assert (Hpaths : Source args <> Destination args) by congruence.
  destruct (Move_any _ _ _ _ _ HA Hrun) as (pre & fin & Hshape & _ & Hres).
  rewrite (signals_success_shape _ _ _ _ _ _ Hshape) in Hs.
  destruct Hres as [(sdata & smode & Hsrc & _ & _ & Hfiles & _)
                   |[(? & ? & ? & ? & ? & _ & Heq & _)
                    |[(text & pre' & -> & _) _]]]; try done.
  unfold content. rewrite Hfiles, Hsrc.
  split; [by eexists|]. split.
  { destruct (remove_refused w); simpl; [|rewrite lookup_delete_ne by done];
      by rewrite lookup_insert_eq. }
  split; [intros ->; apply lookup_delete_eq|].
  set (w0 := set_faults [] w).
  destruct (Copy_method_spec info args w0 (enough_fuel w0 args) HA ltac:(lia))
    as (wc & prec & finc & Hrunc & Hshapec & Hunscripted & Hresc).
  assert (Hfinc : finc = success_call args).
  { apply Hunscripted; [done|]. unfold w0. simpl. by rewrite Hsrc. }
  assert (Hsc : signals_success (emitted w0 wc) = true)
    by (by rewrite (signals_success_shape _ _ _ _ _ _ Hshapec), Hfinc).
  destruct (Copy_method_calls _ _ _ _ _ HA Hrunc) as (_ & _ & Hkeep).
  exists (enough_fuel w0 args), (remove (Source args) wc).
  unfold copy_then_delete. rewrite Hrunc, Hsc, HA.
  split; [done|].
  rewrite files_remove, (remove_refused_unlinks w wc) by (by rewrite (Hkeep Hsc)).
  destruct Hresc as [(sdata' & smode' & Hsrc' & _ & Hfilesc & _)
                    |(text & pre' & Hf & _)]; [|by rewrite Hfinc in Hf].
  rewrite Hfilesc. unfold w0 in Hsrc'. simpl in Hsrc'.
  rewrite Hsrc in Hsrc'. injection Hsrc' as <- <-.
  rewrite decide_False by done. by destruct (remove_refused w).
Qed.

Lemma move_across_is_copy_then_remove_witness :
  Args_new info4 = Ok args4 /\
  devs w_move_short (Source args4) <> devs w_move_short (Destination args4) /\
  Move 10 info4 w_move_short
  = Some (outcome (Move 10 info4 w_move_short) w_move_short) /\
  signals_success
    (emitted w_move_short (outcome (Move 10 info4 w_move_short) w_move_short)) = true /\
  files (outcome (Move 10 info4 w_move_short) w_move_short)
  = {[ "b" := File hello 420 ]} /\
  is_Some (content w_move_short (Source args4)) /\
  content (outcome (Move 10 info4 w_move_short) w_move_short) (Destination args4)
  = content w_move_short (Source args4) /\
  (remove_refused w_move_short = false ->
   files (outcome (Move 10 info4 w_move_short) w_move_short) !! Source args4 = None) /\
  exists fuel_c wc,
    copy_then_delete fuel_c info4 (set_faults [] w_move_short) = Some wc /\
    files (outcome (Move 10 info4 w_move_short) w_move_short) = files wc.
Proof.
  split; [reflexivity|]. split; [by vm_compute|].
  split; [vm_compute; reflexivity|]. split; [vm_compute; reflexivity|].
  split; [vm_compute; reflexivity|].
  apply (move_across_is_copy_then_remove info4 args4 w_move_short _ 10);
    [reflexivity|by vm_compute|vm_compute; reflexivity|vm_compute; reflexivity].
Defined.
